(** * Financial-Transcripts-RAG: retrieval pipeline, chunker, embedding cache

    A shallow embedding of the backend of the application
    ([backend/app/api], [backend/app/core], [backend/app/services]) and the
    properties of it that the specification states.

    Conventions of the embedding.
    - A Python [str] is a list of code points ([Chunker.str]) where the code
      counts or inspects characters, and a [string] where it is only an
      identifier, a dictionary key or a message.
    - A Python [float] is a rational number ([Q]); comparisons and
      subtraction are the exact ones.
    - A [dict] with free keys is a [gmap]; a dict whose key set is fixed by
      the code is a record.
    - A caught exception is a value of a sum type; a logger call appends to
      an explicit log. *)

From Stdlib Require Import ZArith NArith QArith Qreals Reals Lra Lia List.
From stdpp Require Import base option list gmap strings pretty sorting.
Import ListNotations.

#[local] Open Scope Z_scope.

(* ===================================================================== *)
(** ** Sentence chunker: [api/embeddings.py], [_split_into_chunks]       *)
(* ===================================================================== *)

Module Chunker.

(** A character is a Unicode code point, a text a list of them, so that
    [length] is Python's [len]. *)
Definition char := N.
Abbreviation str := (list char).

(** Reads a literal, one code point per character. *)
Definition lit (s : string) : str :=
  map (fun a => N.of_nat (Ascii.nat_of_ascii a)) (String.list_ascii_of_string s).

(** The character class [[.!?]] of the regular expression. *)
Definition is_sep (c : char) : bool :=
  ((c =? 46) || (c =? 33) || (c =? 63))%N.

(** The characters [str.strip()] removes: the code points for which
    [str.isspace] holds. *)
Definition is_space (c : char) : bool :=
  ((9 <=? c) && (c <=? 13) || (28 <=? c) && (c <=? 32)
   || (c =? 133) || (c =? 160) || (c =? 5760)
   || (8192 <=? c) && (c <=? 8202)
   || (c =? 8232) || (c =? 8233) || (c =? 8239) || (c =? 8287)
   || (c =? 12288))%N.

Fixpoint lstrip (s : str) : str :=
  match s with
  | [] => []
  | c :: s' => if is_space c then lstrip s' else s
  end.

Definition rstrip (s : str) : str := rev (lstrip (rev s)).

(** [s.strip()] *)
Definition strip (s : str) : str := rstrip (lstrip s).

(** [re.split(r'[.!?]+', text)]: the pieces between maximal runs of
    separators; a run at either end of the text leaves an empty piece.
    [in_run] tells that the previous character was a separator, [cur] is the
    piece being read, reversed. *)
Fixpoint re_split_from (in_run : bool) (cur : str) (text : str) : list str :=
  match text with
  | [] => [rev cur]
  | c :: text' =>
      if is_sep c then
        if in_run then re_split_from true cur text'
        else rev cur :: re_split_from true [] text'
      else re_split_from false (c :: cur) text'
  end.

Definition re_split (text : str) : list str := re_split_from false [] text.

(** Truth value of a string. *)
Definition truthy (s : str) : bool :=
  match s with [] => false | _ => true end.

(** The loop's state: the chunks appended so far and [current_chunk]. *)
Record loop_state := { chunks : list str; current_chunk : str }.

(** One iteration of [for sentence in sentences]. *)
Definition loop_body (max_chunk_size : Z) (st : loop_state) (sentence : str)
  : loop_state :=
  let sentence := strip sentence in
  if negb (truthy sentence) then st
  else if (Z.of_nat (length (current_chunk st)) + Z.of_nat (length sentence)
             >? max_chunk_size)
          && truthy (current_chunk st)
  then {| chunks := chunks st ++ [strip (current_chunk st)];
          current_chunk := sentence |}
  else {| chunks := chunks st;
          current_chunk :=
            if truthy (current_chunk st)
            then current_chunk st ++ lit " " ++ sentence
            else sentence |}.

(** The statements after the loop: "add the last chunk". *)
Definition finish (st : loop_state) : list str :=
  if truthy (strip (current_chunk st))
  then chunks st ++ [strip (current_chunk st)]
  else chunks st.

Definition _split_into_chunks (text : str) (max_chunk_size : Z) : list str :=
  finish (fold_left (loop_body max_chunk_size) (re_split text)
            {| chunks := []; current_chunk := [] |}).



(** The default of [max_chunk_size], which the ingestion also passes. *)
Definition default_max_chunk_size : Z := 512.

(** *** Vocabulary of the chunker's properties *)






End Chunker.

(* ===================================================================== *)
(** ** Python values shared by the services                              *)
(* ===================================================================== *)

Module Py.

(** The exceptions the handlers tell apart: FastAPI's [HTTPException], and
    every other [Exception]. [except Exception] catches both. *)
Inductive exn :=
  | HTTPException (status_code : Z) (detail : string)
  | Exception (message : string).

(** [str(e)] *)
Definition str_of_exn (e : exn) : string :=
  match e with
  | HTTPException c d => pretty c +:+ ": " +:+ d
  | Exception m => m
  end.

(** The outcome of a call that may raise. *)
Inductive result (A : Type) :=
  | Ok (a : A)
  | Raise (e : exn).
Arguments Ok {A} a.
Arguments Raise {A} e.

(** The records written with [logger.warning] and [logger.error]
    (info-level records are left out). *)
Inductive level := WARNING | ERROR.
Definition log := list (level * string).

(** Truth value of a [str], and [x or default] on an optional float:
    [None] and [0.0] are the falsy values. *)
Definition truthy_str (s : string) : bool :=
  match s with EmptyString => false | _ => true end.

Definition float_or (x : option Q) (default : Q) : Q :=
  match x with
  | Some v => if Qeq_bool v 0 then default else v
  | None => default
  end.

(** [l[:k]] *)
Definition slice_to {A} (l : list A) (k : Z) : list A :=
  if 0 <=? k then take (Z.to_nat k) l
  else take (length l - Z.to_nat (- k))%nat l.

(** [round(x, 3)]: the nearest multiple of 1/1000, a tie going to the even
    one. *)
Definition round_half_even (q : Q) : Z :=
  let n := Qnum q in
  let d := Z.pos (Qden q) in
  let fl := n / d in
  let r := n mod d in
  match 2 * r ?= d with
  | Lt => fl
  | Gt => fl + 1
  | Eq => if Z.even fl then fl else fl + 1
  end.

Definition round3 (q : Q) : Q := Qmake (round_half_even (q * 1000)) 1000.

(** [list.sort(key=...)]: a stable sort. [before y x] tells that [y]'s key
    sorts strictly before [x]'s; elements with equal keys keep their order. *)
Fixpoint insert_by {A} (before : A → A → bool) (x : A) (l : list A) : list A :=
  match l with
  | [] => [x]
  | y :: l' => if before y x then y :: insert_by before x l' else x :: l
  end.

Definition sort_by {A} (before : A → A → bool) (l : list A) : list A :=
  foldr (insert_by before) [] l.

(** The order a sort establishes between neighbours: the later element
    does not sort strictly before the earlier one. *)
Definition in_order {A} (before : A → A → bool) (a b : A) : Prop :=
  before b a = false.

(** The call returned. *)
Definition is_ok {A} (r : result A) : bool :=
  match r with Ok _ => true | Raise _ => false end.

End Py.

(* ===================================================================== *)
(** ** Embedding service: [services/embedding_service.py]                *)
(* ===================================================================== *)

Module EmbeddingService.
Import Py.

(** A numpy vector. *)
Abbreviation embedding := (list Q).

(** What [pickle.dump] writes for one text. *)
Record cache_entry := {
  entry_text : string;
  entry_embedding : embedding;
  entry_model : string
}.

(** The fields of the service the cache reads. *)
Record service := {
  model_name : string;
  cache_dir : string
}.

(** A [Path]: the directory and the file's name in it. *)
Abbreviation path := (string * string)%type.

(** The world the service acts on: the files under the cache directories,
    and the batches handed to the model's [encode], oldest first. *)
Record world := {
  files : gmap path cache_entry;
  encode_calls : list (list string)
}.

Section WithModel.

(** [hashlib.md5(text.encode()).hexdigest()] *)
Variable md5_hexdigest : string → string.
(** Whether [load_model] succeeds, and the vector the model of a given name
    computes for a text. *)
Variable model_loads : bool.
Variable model_encode : string → string → embedding.

Definition _get_cache_key (text : string) : string := md5_hexdigest text.

Definition _get_cache_path (svc : service) (cache_key : string) : path :=
  (cache_dir svc, cache_key +:+ ".pkl").

Definition save_embedding_to_cache (svc : service) (text : string)
    (e : embedding) (w : world) : world :=
  let cache_key := _get_cache_key text in
  let cache_path := _get_cache_path svc cache_key in
  {| files := <[cache_path :=
                  {| entry_text := text; entry_embedding := e;
                     entry_model := model_name svc |}]> (files w);
     encode_calls := encode_calls w |}.

Definition load_embedding_from_cache (svc : service) (text : string)
    (w : world) : option embedding :=
  let cache_key := _get_cache_key text in
  let cache_path := _get_cache_path svc cache_key in
  match files w !! cache_path with
  | None => None
  | Some data =>
      if decide (entry_model data = model_name svc)
      then Some (entry_embedding data)
      else None
  end.

Definition encode_texts (svc : service) (texts : list string) (w : world)
  : result (list embedding) * world :=
  match texts with
  | [] => (Ok [], w)
  | _ =>
      if model_loads
      then (Ok (map (model_encode (model_name svc)) texts),
            {| files := files w; encode_calls := encode_calls w ++ [texts] |})
      else (Raise (Exception "Failed to load embedding model"), w)
  end.

(** [encode_texts([text], show_progress=False)[0]] *)
Definition encode_single_text (svc : service) (text : string) (w : world)
  : result embedding * world :=
  match encode_texts svc [text] w with
  | (Ok (e :: _), w') => (Ok e, w')
  | (Ok [], w') => (Raise (Exception "index 0 is out of bounds"), w')
  | (Raise e, w') => (Raise e, w')
  end.

(** The state of the first loop of [encode_with_cache]. *)
Record cache_scan := {
  embeddings : list (option embedding);
  texts_to_encode : list string;
  indices_to_encode : list nat
}.

(** One iteration of [for i, text in enumerate(texts)]. *)
Definition scan_body (svc : service) (w : world) (st : cache_scan)
    (item : nat * string) : cache_scan :=
  let '(i, text) := item in
  match load_embedding_from_cache svc text w with
  | Some cached_embedding =>
      {| embeddings := embeddings st ++ [Some cached_embedding];
         texts_to_encode := texts_to_encode st;
         indices_to_encode := indices_to_encode st |}
  | None =>
      {| embeddings := embeddings st ++ [None];
         texts_to_encode := texts_to_encode st ++ [text];
         indices_to_encode := indices_to_encode st ++ [i] |}
  end.

(** [enumerate(l)] *)
Definition enumerate {A} (l : list A) : list (nat * A) :=
  zip (seq 0 (length l)) l.

(** One iteration of the second loop: save the new vector and write it at
    [indices_to_encode[i]]. An index outside the list raises [IndexError]. *)
Definition fill_body (svc : service) (indices : list nat)
    (st : result (list (option embedding)) * world)
    (item : nat * (string * embedding))
  : result (list (option embedding)) * world :=
  let '(i, (text, e)) := item in
  match st with
  | (Raise err, w) => (Raise err, w)
  | (Ok embs, w) =>
      let w' := save_embedding_to_cache svc text e w in
      match indices !! i with
      | Some j =>
          if decide (j < length embs)%nat
          then (Ok (<[j := Some e]> embs), w')
          else (Raise (Exception "list assignment index out of range"), w')
      | None => (Raise (Exception "list index out of range"), w')
      end
  end.

Definition encode_with_cache (svc : service) (texts : list string)
    (use_cache : bool) (w : world)
  : result (list (option embedding)) * world :=
  if negb use_cache then
    match encode_texts svc texts w with
    | (Ok embs, w') => (Ok (map Some embs), w')
    | (Raise e, w') => (Raise e, w')
    end
  else
    let st := fold_left (scan_body svc w) (enumerate texts)
                {| embeddings := []; texts_to_encode := [];
                   indices_to_encode := [] |} in
    match texts_to_encode st with
    | [] => (Ok (embeddings st), w)
    | _ =>
        match encode_texts svc (texts_to_encode st) w with
        | (Raise e, w') => (Raise e, w')
        | (Ok new_embeddings, w') =>
            fold_left (fill_body svc (indices_to_encode st))
              (enumerate (zip (texts_to_encode st) new_embeddings))
              (Ok (embeddings st), w')
        end
    end.

(** *** Vocabulary of the cache's properties *)

(** A history of calls to [save_embedding_to_cache]. *)
Definition run_saves (w : world) (saves : list (service * string * embedding))
  : world :=
  fold_left (fun w s => save_embedding_to_cache (s.1.1) (s.1.2) (s.2) w)
    saves w.

(** The texts the cache does not answer, and their positions counted from
    [k]. *)
Definition missed (svc : service) (w : world) (texts : list string)
  : list string :=
  filter (fun t => load_embedding_from_cache svc t w = None) texts.

Fixpoint missed_from (svc : service) (w : world) (k : nat)
    (texts : list string) : list nat :=
  match texts with
  | [] => []
  | t :: texts' =>
      match load_embedding_from_cache svc t w with
      | Some _ => missed_from svc w (S k) texts'
      | None => k :: missed_from svc w (S k) texts'
      end
  end.

End WithModel.

(** What the second loop of [encode_with_cache] leaves in [embeddings]:
    at each position of [indices], the vector computed for it. *)
Definition fill (indices : list nat) (vectors : list embedding)
    (embs : list (option embedding)) : list (option embedding) :=
  fold_left (fun acc iv => <[iv.1 := Some iv.2]> acc) (zip indices vectors) embs.

(** *** Cosine similarity *)

(** [compute_similarity] divides by norms, which are square roots: it is
    stated over the real numbers, and a rational vector is read through
    [Q2R]. *)
Definition dot (a b : list R) : R :=
  fold_right Rplus 0%R (zip_with Rmult a b).

(** [np.linalg.norm] *)
Definition norm (a : list R) : R := sqrt (dot a a).

(** [np.dot] refuses vectors of different lengths, and the function then
    returns [0.0] from its [except]. *)
Definition compute_similarity (embedding1 embedding2 : list R) : R :=
  let norm1 := norm embedding1 in
  let norm2 := norm embedding2 in
  if Req_dec_T norm1 0 then 0%R
  else if Req_dec_T norm2 0 then 0%R
  else if decide (length embedding1 = length embedding2)
       then (dot embedding1 embedding2 / (norm1 * norm2))%R
       else 0%R.

End EmbeddingService.

(* ===================================================================== *)
(** ** The vector store, as the services use it                          *)
(* ===================================================================== *)

(** The vector database is an external collaborator. This is the model of
    the part of its interface the services call: a collection is the list
    of its records in insertion order; a missing collection and an empty one
    are not told apart ([get_or_create_collection] creates what is
    missing). The distance between two vectors is the store's own and is a
    parameter of every definition that ranks by it. *)
Module VectorStore.
Import Py.

(** A metadata value: a string or an integer. *)
Inductive meta_value :=
  | MStr (s : string)
  | MInt (n : Z).

#[global] Instance meta_value_eq_dec : EqDecision meta_value.
Proof. solve_decision. Defined.

Abbreviation metadata := (gmap string meta_value).

Record row := {
  row_id : string;
  row_document : string;
  row_metadata : metadata;
  row_embedding : list Q
}.

Abbreviation collection := (list row).
Abbreviation database := (gmap string (list row)).

(** A [where] filter: for each key either a value the metadata must equal,
    or the operator dictionary [{"$gte": a, "$lte": b}], either bound
    optional, compared as strings. *)
Record range := { gte : option string; lte : option string }.

Inductive condition :=
  | Equals (v : meta_value)
  | Range (r : range).

Abbreviation where_clause := (gmap string condition).

Definition in_range (r : range) (d : string) : bool :=
  match gte r with Some a => String.leb a d | None => true end
  && match lte r with Some b => String.leb d b | None => true end.

Definition condition_holds (c : condition) (v : option meta_value) : bool :=
  match c, v with
  | Equals x, Some y => bool_decide (x = y)
  | Range r, Some (MStr d) => in_range r d
  | _, _ => false
  end.

Definition matches (w : where_clause) (r : row) : Prop :=
  map_Forall (fun k c => condition_holds c (row_metadata r !! k) = true) w.

#[global] Instance matches_dec w r : Decision (matches w r).
Proof. unfold matches. apply _. Defined.

(** [collection.count()] *)
Definition count (coll : collection) : Z := Z.of_nat (length coll).

(** [collection.get(where=w)]: the matching records, in insertion order. *)
Definition get (coll : collection) (w : where_clause) : list row :=
  filter (matches w) coll.

(** One hit of a query: the record and its distance to the query vector. *)
Record hit := { hit_row : row; hit_distance : Q }.

Definition nearer (a b : hit) : bool :=
  negb (Qle_bool (hit_distance b) (hit_distance a)).

(** [collection.query(query_embeddings=[q], n_results=n, where=w)]: the [n]
    matching records nearest to [q], nearest first; a request for no
    result or fewer is refused. *)
Definition query (distance : list Q → list Q → Q) (coll : collection)
    (q : list Q) (n_results : Z) (w : where_clause) : result (list hit) :=
  if n_results <=? 0
  then Raise (Exception "Number of requested results cannot be negative, or zero")
  else Ok (take (Z.to_nat n_results)
             (sort_by nearer
                (map (fun r => {| hit_row := r;
                                  hit_distance := distance q (row_embedding r) |})
                     (get coll w)))).

(** [collection.add(ids, documents, embeddings, metadatas)]: the records are
    appended; one whose id the collection already holds is ignored, and an
    empty batch is refused. *)
Definition add_one (coll : collection) (r : row) : collection :=
  if bool_decide (row_id r ∈ map row_id coll) then coll else coll ++ [r].

Definition add (coll : collection) (rows : list row) : result collection :=
  match rows with
  | [] => Raise (Exception "Expected IDs to be a non-empty list")
  | _ => Ok (fold_left add_one rows coll)
  end.

(** [get_or_create_collection(name)] *)
Definition get_or_create_collection (db : database) (name : string)
  : collection :=
  default [] (db !! name).

(** The distance of a collection created with a description only, as
    [ChromaDBManager.get_or_create_collection] creates them: the store's
    default, the squared Euclidean distance. *)
Definition squared_l2 (a b : list Q) : Q :=
  fold_right Qplus 0%Q (zip_with (fun x y => (x - y) * (x - y))%Q a b).

End VectorStore.

(* ===================================================================== *)
(** ** Chroma service: [services/chroma_service.py]                      *)
(* ===================================================================== *)

Module ChromaService.
Import Py VectorStore.
Export EmbeddingService.

(** [str.lower()] on the ASCII letters (company symbols and collection
    names are ASCII). *)
Definition lower_ascii (a : Ascii.ascii) : Ascii.ascii :=
  let n := Ascii.nat_of_ascii a in
  if ((65 <=? n) && (n <=? 90))%nat then Ascii.ascii_of_nat (n + 32) else a.

Fixpoint lower (s : string) : string :=
  match s with
  | EmptyString => EmptyString
  | String a s' => String (lower_ascii a) (lower s')
  end.

(** [self.company_names], in the order the dictionary is written. *)
Definition company_names : list (string * string) :=
  [ ("AAPL", "Apple Inc.");
    ("AMD", "Advanced Micro Devices Inc.");
    ("AMZN", "Amazon.com Inc.");
    ("ASML", "ASML Holding N.V.");
    ("CSCO", "Cisco Systems Inc.");
    ("GOOGL", "Alphabet Inc.");
    ("INTC", "Intel Corporation");
    ("MSFT", "Microsoft Corporation");
    ("MU", "Micron Technology Inc.");
    ("NVDA", "NVIDIA Corporation") ]%string.

Definition get_collection_name (company : string) : string :=
  "transcripts_" +:+ lower company.

(** One result of [search_similar_chunks]: the dictionary it builds. *)
Record chunk := {
  company : string;
  document_id : meta_value;
  chunk_index : meta_value;
  date : meta_value;
  quarter : meta_value;
  content : string;
  similarity_score : Q;
  chunk_metadata : metadata
}.

(** [date_filter.get(key)] as a condition: the value when present and not
    empty. *)
Definition get_truthy (d : gmap string string) (key : string) : option string :=
  match d !! key with
  | Some s => if truthy_str s then Some s else None
  | None => None
  end.

(** The [where] clause of one company's query. *)
Definition build_where (company : string)
    (date_filter : option (gmap string string)) : where_clause :=
  let where_clause : where_clause := {[ "company" := Equals (MStr company) ]} in
  match date_filter with
  | None => where_clause
  | Some df =>
      if decide (df = ∅) then where_clause
      else
        let where_clause :=
          match get_truthy df "start" with
          | Some start =>
              <["date" := Range {| gte := Some start; lte := None |}]> where_clause
          | None => where_clause
          end in
        match get_truthy df "end" with
        | Some e =>
            match where_clause !! "date" with
            | Some (Range r) =>
                <["date" := Range {| gte := gte r; lte := Some e |}]> where_clause
            | _ =>
                <["date" := Range {| gte := None; lte := Some e |}]> where_clause
            end
        | None => where_clause
        end
  end.

(** The dictionary built for a hit whose score passes. *)
Definition make_result (company : string) (h : hit) : chunk :=
  let metadata := row_metadata (hit_row h) in
  {| company := company;
     document_id := default (MStr "") (metadata !! "document_id");
     chunk_index := default (MInt 0) (metadata !! "chunk_index");
     date := default (MStr "") (metadata !! "date");
     quarter := default (MStr "") (metadata !! "quarter");
     content := row_document (hit_row h);
     similarity_score := 1 - hit_distance h;
     chunk_metadata := metadata |}.

Section WithStore.

(** The distance of the store's collections. *)
Variable distance : list Q → list Q → Q.
(** The embedding model (see [EmbeddingService]). *)
Variable model_loads : bool.
Variable model_encode : string → string → embedding.

(** The hits of one query that pass the threshold, as results. *)
Definition process_results (company : string) (similarity_threshold : Q)
    (hits : list hit) : list chunk :=
  map (make_result company)
    (filter (fun h => Qle_bool similarity_threshold (1 - hit_distance h) = true)
       hits).

(** The body of [for company in companies_to_search], with its [try]. *)
Definition search_company (db : database) (query_embedding : embedding)
    (max_results : Z) (similarity_threshold : Q)
    (date_filter : option (gmap string string)) (company : string)
  : list chunk * log :=
  let collection_name := get_collection_name company in
  let collection := get_or_create_collection db collection_name in
  if count collection =? 0 then
    ([], [(WARNING, "Collection " +:+ collection_name +:+ " is empty")])
  else
    let where_clause := build_where company date_filter in
    match query distance collection query_embedding
            (Z.min (max_results * 2) 50) where_clause with
    | Raise e =>
        ([], [(WARNING, "Failed to search in collection for " +:+ company
                          +:+ ": " +:+ str_of_exn e)])
    | Ok hits => (process_results company similarity_threshold hits, [])
    end.

(** [company_filter or list(self.company_names.keys())] *)
Definition companies_to_search (company_filter : option (list string))
  : list string :=
  match company_filter with
  | Some (c :: cs) => c :: cs
  | _ => map fst company_names
  end.

(** The loop over the companies: the results and the log records, each in
    the order they are appended. *)
Definition search_all (db : database) (query_embedding : embedding)
    (max_results : Z) (similarity_threshold : Q)
    (date_filter : option (gmap string string)) (companies : list string)
  : list chunk * log :=
  fold_left
    (fun acc company =>
       let r := search_company db query_embedding max_results
                  similarity_threshold date_filter company in
       (fst acc ++ fst r, snd acc ++ snd r))
    companies ([], []).

(** The key order of [all_results.sort(key=score, reverse=True)]. *)
Definition higher_score (a b : chunk) : bool :=
  negb (Qle_bool (similarity_score a) (similarity_score b)).

Definition search_similar_chunks (db : database) (svc : service) (w : world)
    (query : string) (company_filter : option (list string))
    (max_results : Z) (similarity_threshold : Q)
    (date_filter : option (gmap string string))
  : list chunk * log :=
  match fst (encode_single_text model_loads model_encode svc query w) with
  | Raise e =>
      ([], [(ERROR, "Failed to search similar chunks: " +:+ str_of_exn e)])
  | Ok query_embedding =>
      let '(all_results, records) :=
        search_all db query_embedding max_results similarity_threshold
          date_filter (companies_to_search company_filter) in
      (slice_to (sort_by higher_score all_results) max_results, records)
  end.

(** The records [store_document_chunks] prepares: one per pair of
    [zip(chunks, embeddings)], numbered by [enumerate]. *)
Definition chunk_rows (company document_id : string) (chunks : list string)
    (embeddings : list embedding) (metadata : metadata) : list row :=
  imap (fun i item =>
          {| row_id := document_id +:+ "_chunk_" +:+ pretty i;
             row_document := fst item;
             row_metadata :=
               <["total_chunks" := MInt (Z.of_nat (length chunks))]>
                 (<["company" := MStr company]>
                    (<["document_id" := MStr document_id]>
                       (<["chunk_index" := MInt (Z.of_nat i)]> metadata)));
             row_embedding := snd item |})
       (zip chunks embeddings).

(** Returns the function's value, the database afterwards and the log
    records. *)
Definition store_document_chunks (db : database) (svc : service) (w : world)
    (company document_id : string) (chunks : list string)
    (metadata : metadata) : bool * database * log :=
  let collection_name := get_collection_name company in
  let collection := get_or_create_collection db collection_name in
  let failed (e : exn) :=
    (false, db, [(ERROR, "Failed to store document chunks: " +:+ str_of_exn e)]) in
  match fst (encode_texts model_loads model_encode svc chunks w) with
  | Raise e => failed e
  | Ok embeddings =>
      match add collection
              (chunk_rows company document_id chunks embeddings metadata) with
      | Raise e => failed e
      | Ok collection' => (true, <[collection_name := collection']> db, [])
      end
  end.

(** What [get_document_by_id] returns for a document it finds. *)
Record document := {
  doc_document_id : string;
  doc_company : string;
  doc_chunks : list (string * meta_value);
  doc_metadata : metadata
}.

(** The order of the sort keys: integers by value, strings by code point;
    Python refuses to compare an integer with a string. *)
Definition key_before (a b : meta_value) : bool :=
  match a, b with
  | MInt x, MInt y => x <? y
  | MStr x, MStr y => String.ltb x y
  | _, _ => false
  end.

Definition comparable (keys : list meta_value) : bool :=
  forallb (fun k => match k with MInt _ => true | MStr _ => false end) keys
  || forallb (fun k => match k with MStr _ => true | MInt _ => false end) keys.

Definition get_document_by_id (db : database) (document_id company : string)
  : option document * log :=
  let collection_name := get_collection_name company in
  let collection := get_or_create_collection db collection_name in
  let results := get collection {[ "document_id" := Equals (MStr document_id) ]} in
  match results with
  | [] => (None, [])
  | first :: _ =>
      let chunks :=
        map (fun r => (row_document r,
                       default (MInt 0) (row_metadata r !! "chunk_index")))
            results in
      let metadata := delete "chunk_index" (row_metadata first) in
      if comparable (map snd chunks) then
        (Some {| doc_document_id := document_id;
                 doc_company := company;
                 doc_chunks :=
                   sort_by (fun a b => key_before (snd a) (snd b)) chunks;
                 doc_metadata := metadata |}, [])
      else
        (None, [(ERROR, "Failed to get document " +:+ document_id
                          +:+ ": '<' not supported between instances of 'str' and 'int'")])
  end.

End WithStore.

(** *** Vocabulary of the service's properties *)

(** The metadata passes the date filter. *)
Definition date_in_filter (date_filter : option (gmap string string))
    (m : metadata) : Prop :=
  match date_filter with
  | None => True
  | Some df =>
      (∀ s, get_truthy df "start" = Some s →
            ∃ d, m !! "date" = Some (MStr d) ∧ String.leb s d = true)
      ∧ (∀ e, get_truthy df "end" = Some e →
              ∃ d, m !! "date" = Some (MStr d) ∧ String.leb d e = true)
  end.

(** [c] is the result built for a record of [company]'s collection that
    passes the company and date filters. *)
Definition retrieved_from (distance : list Q → list Q → Q) (db : database)
    (query_embedding : embedding) (date_filter : option (gmap string string))
    (company : string) (c : chunk) : Prop :=
  ∃ r, r ∈ get_or_create_collection db (get_collection_name company)
       ∧ row_metadata r !! "company" = Some (MStr company)
       ∧ date_in_filter date_filter (row_metadata r)
       ∧ c = make_result company
               {| hit_row := r;
                  hit_distance := distance query_embedding (row_embedding r) |}.

(** Metadata as the ingestion writes it: the date and the document id are
    strings and the chunk index an integer, where present. *)
Definition typed_metadata (m : metadata) : Prop :=
  (∀ v, m !! "date" = Some v → ∃ d, v = MStr d)
  ∧ (∀ v, m !! "document_id" = Some v → ∃ id, v = MStr id)
  ∧ (∀ v, m !! "chunk_index" = Some v → ∃ i, v = MInt i).

(** Non-increasing similarity score. *)
Definition by_score (a b : chunk) : Prop :=
  (similarity_score b <= similarity_score a)%Q.

(** No record of the collection belongs to the document, neither by its
    metadata nor by its id. *)
Definition absent (document_id : string) (coll : collection) : Prop :=
  Forall (fun r =>
            row_metadata r !! "document_id" ≠ Some (MStr document_id)
            ∧ ∀ i : nat, row_id r ≠ document_id +:+ "_chunk_" +:+ pretty i)
         coll.

(** Ascending sort keys. *)
Definition ascending (a b : string * meta_value) : Prop :=
  key_before (snd b) (snd a) = false.

End ChromaService.

(* ===================================================================== *)
(** ** Request and response models, settings:
       [models/query.py], [models/response.py], [core/config.py]         *)
(* ===================================================================== *)

Module Models.
Import Py VectorStore.

Inductive CompanySymbol :=
  AAPL | AMD | AMZN | ASML | CSCO | GOOGL | INTC | MSFT | MU | NVDA.

(** [c.value] *)
Definition value (c : CompanySymbol) : string :=
  match c with
  | AAPL => "AAPL" | AMD => "AMD" | AMZN => "AMZN" | ASML => "ASML"
  | CSCO => "CSCO" | GOOGL => "GOOGL" | INTC => "INTC" | MSFT => "MSFT"
  | MU => "MU" | NVDA => "NVDA"
  end.

Record DateRange := { start : option string; end_ : option string }.

Record QueryRequest := {
  question : string;
  company_filter : option (list CompanySymbol);
  date_range : option DateRange;
  max_results : Z;
  similarity_threshold : option Q;
  temperature : option Q
}.

(** The bounds the [Field]s of [QueryRequest] declare on its numbers. *)
Definition within (lo hi : Q) (x : option Q) : Prop :=
  match x with Some v => (lo <= v)%Q ∧ (v <= hi)%Q | None => True end.

Definition valid_query_request (r : QueryRequest) : Prop :=
  1 <= Z.of_nat (String.length (question r)) <= 1000
  ∧ 1 <= max_results r <= 20
  ∧ within 0 1 (similarity_threshold r)
  ∧ within 0 2 (temperature r).

Record SearchRequest := {
  search_query : string;
  search_company_filter : option (list CompanySymbol);
  search_max_results : Z;
  search_similarity_threshold : option Q
}.

Record EmbeddingRequest := {
  force_recreate : bool;
  companies : option (list CompanySymbol);
  batch_size : Z
}.

Record SourceDocument := {
  source_company : string;
  source_date : string;
  source_quarter : option string;
  source_chunk : string;
  source_similarity_score : Q;
  source_document_id : string;
  source_chunk_index : option Z
}.

Record QueryMetadata := {
  processing_time : string;
  total_chunks_searched : Z;
  model_used : string;
  llm_model : string;
  metadata_similarity_threshold : Q;
  metadata_max_results : Z
}.

Record QueryResponse := {
  query : string;
  answer : string;
  sources : list SourceDocument;
  metadata : QueryMetadata
}.

Record SearchResult := {
  result_document_id : string;
  result_company : string;
  result_date : string;
  result_content : string;
  result_similarity_score : Q;
  result_metadata : gmap string meta_value
}.

Record SearchResponse := {
  response_query : string;
  results : list SearchResult;
  total_results : Z;
  response_processing_time : string
}.

(** The settings the pipeline reads. *)
Record Settings := {
  EMBEDDING_MODEL : string;
  SIMILARITY_THRESHOLD : Q;
  TEMPERATURE : Q
}.

(** The values [Settings] declares, used when the environment sets none. *)
Definition default_settings : Settings :=
  {| EMBEDDING_MODEL := "all-MiniLM-L6-v2";
     SIMILARITY_THRESHOLD := 7 # 10;
     TEMPERATURE := 7 # 10 |}.

(** [ge=0.0, le=1.0] on a similarity score. *)
Definition score_in_range (s : Q) : bool := Qle_bool 0 s && Qle_bool s 1.

End Models.

(* ===================================================================== *)
(** ** RAG pipeline: [core/rag_pipeline.py]                              *)
(* ===================================================================== *)

Module RAGPipeline.
Import Py VectorStore Models.
Import ChromaService.

(** The calls the pipeline makes to its two services, with their
    arguments. *)
Inductive call :=
  | SearchSimilarChunks (query : string) (company_filter : option (list string))
      (max_results : Z) (similarity_threshold : Q)
      (date_filter : option (gmap string string))
  | GenerateResponse (question : string) (sources : list chunk)
      (temperature : Q).

(** The answer given when the model returns nothing. *)
Definition apology : string :=
  "I apologize, but I couldn't generate a response to your question. Please try rephrasing your question or check if the system is properly configured.".

Section WithServices.

Variable settings : Settings.
(** [self.chroma_service.search_similar_chunks] and
    [self.gemini_service.generate_response]: the services the pipeline was
    given, which it calls inside its [try]. *)
Variable search_similar_chunks :
  string → option (list string) → Z → Q → option (gmap string string) →
  result (list chunk).
Variable generate_response :
  string → list chunk → Q → result (option string).
(** [_estimate_total_chunks_searched], which reads the store's statistics
    and returns 0 when that fails. *)
Variable _estimate_total_chunks_searched : option (list string) → Z.
(** [_extract_quarter], on a string. *)
Variable _extract_quarter : string → option string.
(** The elapsed time, formatted. *)
Variable elapsed : string.

(** [SourceDocument(...)] for one chunk, with the validation of its fields:
    the date and the document id are strings, the chunk index an integer,
    the rounded score within [0, 1]. *)
Definition source_document (c : chunk) : result SourceDocument :=
  match date c, document_id c, chunk_index c with
  | MStr d, MStr id, MInt i =>
      let score := round3 (similarity_score c) in
      if score_in_range score then
        Ok {| source_company := company c;
              source_date := d;
              source_quarter := _extract_quarter d;
              source_chunk := content c;
              source_similarity_score := score;
              source_document_id := id;
              source_chunk_index := Some i |}
      else Raise (Exception "validation error for SourceDocument")
  | _, _, _ => Raise (Exception "validation error for SourceDocument")
  end.

(** One iteration of the loop of [_format_sources], with its [try]. *)
Definition format_body (acc : list SourceDocument * log) (c : chunk)
  : list SourceDocument * log :=
  match source_document c with
  | Ok source => (fst acc ++ [source], snd acc)
  | Raise e =>
      (fst acc, snd acc ++ [(WARNING, "Failed to format source: " +:+ str_of_exn e)])
  end.

Definition _format_sources (chunks : list chunk) : list SourceDocument * log :=
  fold_left format_body chunks ([], []).

(** The dictionary built from [request.date_range]. *)
Definition build_date_filter (dr : DateRange) : gmap string string :=
  let date_filter : gmap string string := ∅ in
  let date_filter :=
    match start dr with
    | Some s => if truthy_str s then <["start" := s]> date_filter else date_filter
    | None => date_filter
    end in
  match end_ dr with
  | Some e => if truthy_str e then <["end" := e]> date_filter else date_filter
  | None => date_filter
  end.

(** [[c.value for c in request.company_filter] if request.company_filter
    else None] *)
Definition company_values (cf : option (list CompanySymbol))
  : option (list string) :=
  match cf with
  | Some (c :: cs) => Some (map value (c :: cs))
  | _ => None
  end.

(** The response, the calls made to the services in order, and the log
    records. *)
Definition process_query (request : QueryRequest)
  : QueryResponse * list call * log :=
  let question := question request in
  let company_filter := company_values (company_filter request) in
  let max_results := max_results request in
  let similarity_threshold :=
    float_or (similarity_threshold request) (SIMILARITY_THRESHOLD settings) in
  let temperature :=
    float_or (temperature request) (TEMPERATURE settings) in
  let date_filter := build_date_filter <$> date_range request in
  let search_call :=
    SearchSimilarChunks question company_filter max_results
      similarity_threshold date_filter in
  let error_response (e : exn) :=
    {| query := question;
       answer := "An error occurred while processing your query: " +:+ str_of_exn e;
       sources := [];
       metadata :=
         {| processing_time := elapsed;
            total_chunks_searched := 0;
            model_used := EMBEDDING_MODEL settings;
            llm_model := "gemini-pro";
            metadata_similarity_threshold :=
              float_or (Some similarity_threshold) (7 # 10);
            metadata_max_results := max_results |} |} in
  let failed (e : exn) := [(ERROR, "RAG pipeline failed: " +:+ str_of_exn e)] in
  match search_similar_chunks question company_filter max_results
          similarity_threshold date_filter with
  | Raise e => (error_response e, [search_call], failed e)
  | Ok similar_chunks =>
      let generate_call := GenerateResponse question similar_chunks temperature in
      match generate_response question similar_chunks temperature with
      | Raise e => (error_response e, [search_call; generate_call], failed e)
      | Ok generated_answer =>
          let generated_answer :=
            match generated_answer with
            | Some a => if truthy_str a then a else apology
            | None => apology
            end in
          let '(sources, records) := _format_sources similar_chunks in
          ({| query := question;
              answer := generated_answer;
              sources := sources;
              metadata :=
                {| processing_time := elapsed;
                   total_chunks_searched :=
                     _estimate_total_chunks_searched company_filter;
                   model_used := EMBEDDING_MODEL settings;
                   llm_model := "gemini-pro";
                   metadata_similarity_threshold := similarity_threshold;
                   metadata_max_results := max_results |} |},
           [search_call; generate_call], records)
      end
  end.

End WithServices.

(** *** Vocabulary of the pipeline's properties *)


(** A chunk as the services produce it from a record they stored: string
    date and document id, integer index, score within [0, 1]. *)
Definition well_formed (c : chunk) : Prop :=
  (∃ d, date c = MStr d) ∧ (∃ id, document_id c = MStr id)
  ∧ (∃ i, chunk_index c = MInt i)
  ∧ (0 <= similarity_score c)%Q ∧ (similarity_score c <= 1)%Q.


(** The outcome of [process_query] after it caught [e]: an ordinary
    response that carries the message and no source, and one error
    record. *)
Definition reports_failure (e : exn)
    (outcome : QueryResponse * list call * log) : Prop :=
  answer (fst (fst outcome))
  = "An error occurred while processing your query: " +:+ str_of_exn e
  ∧ sources (fst (fst outcome)) = []
  ∧ snd outcome = [(ERROR, "RAG pipeline failed: " +:+ str_of_exn e)].

End RAGPipeline.

(* ===================================================================== *)
(** ** Endpoints: [api/query.py], [api/embeddings.py]                    *)
(* ===================================================================== *)

Module Api.
Import Py VectorStore Models.
Import ChromaService.

(** The status the client receives: 200 for a returned response, the
    status of an [HTTPException], and 500 from the application's handler
    for any other exception. *)
Definition status_code {A} (r : result A) : Z :=
  match r with
  | Ok _ => 200
  | Raise (HTTPException c _) => c
  | Raise (Exception _) => 500
  end.

(** [not s.strip()], the string read as a text of code points. *)
Definition blank (s : string) : bool :=
  negb (Chunker.truthy (Chunker.strip (Chunker.lit s))).

Definition unavailable : exn :=
  HTTPException 503
    "Embedding services are currently unavailable. Please check that sentence-transformers is properly installed and configured.".

(** [except HTTPException: raise] followed by [except Exception as e]:
    what the handlers do with an exception raised in their [try]. *)
Definition reraise {A} (logged detail : string) (e : exn) : result A * log :=
  match e with
  | HTTPException c d => (Raise (HTTPException c d), [])
  | Exception m =>
      (Raise (HTTPException 500 (detail +:+ m)),
       [(ERROR, logged +:+ m)])
  end.

Section Query.

(** [chroma_service.is_available()] and the two dependencies of the
    handlers, which they call inside their [try]. *)
Variable is_available : bool.
Variable process_query : QueryRequest → result QueryResponse.
Variable search_similar_chunks :
  string → option (list string) → Z → Q → option (gmap string string) →
  result (list chunk).
Variable elapsed : string.

(** [POST /query] *)
Definition process_rag_query (request : QueryRequest)
  : result QueryResponse * log :=
  let handle := reraise "Failed to process RAG query: "
                  "Internal server error while processing query: " in
  if negb is_available then handle unavailable
  else if blank (question request)
  then handle (HTTPException 400 "Question cannot be empty")
  else
    match process_query request with
    | Ok response => (Ok response, [])
    | Raise e => handle e
    end.

(** [SearchResult(...)] for one chunk, with the validation of its fields. *)
Definition search_result (c : chunk) : result SearchResult :=
  match document_id c, date c with
  | MStr id, MStr d =>
      let score := round3 (similarity_score c) in
      if score_in_range score then
        Ok {| result_document_id := id;
              result_company := company c;
              result_date := d;
              result_content := content c;
              result_similarity_score := score;
              result_metadata := chunk_metadata c |}
      else Raise (Exception "validation error for SearchResult")
  | _, _ => Raise (Exception "validation error for SearchResult")
  end.

(** The loop that formats the results: the first failure leaves it. *)
Fixpoint format_results (chunks : list chunk) : result (list SearchResult) :=
  match chunks with
  | [] => Ok []
  | c :: rest =>
      match search_result c with
      | Raise e => Raise e
      | Ok r =>
          match format_results rest with
          | Raise e => Raise e
          | Ok rs => Ok (r :: rs)
          end
      end
  end.

(** [POST /search] *)
Definition vector_similarity_search (request : SearchRequest)
  : result SearchResponse * log :=
  let handle := reraise "Failed to perform vector search: "
                  "Internal server error during search: " in
  if negb is_available then handle unavailable
  else if blank (search_query request)
  then handle (HTTPException 400 "Query cannot be empty")
  else
    let company_filter :=
      RAGPipeline.company_values (search_company_filter request) in
    match search_similar_chunks (search_query request) company_filter
            (search_max_results request)
            (float_or (search_similarity_threshold request) (1 # 2))
            None with
    | Raise e => handle e
    | Ok chunks =>
        match format_results chunks with
        | Raise e => handle e
        | Ok results =>
            (Ok {| response_query := search_query request;
                   results := results;
                   total_results := Z.of_nat (length results);
                   response_processing_time := elapsed |}, [])
        end
    end.

End Query.

(** *** Embedding generation *)

(** The module-level dictionary [embedding_status]; its keys are fixed. *)
Record embedding_status := {
  status : string;
  progress : Q;
  total_documents : Z;
  processed_documents : Z;
  current_company : option string;
  estimated_time_remaining : option string;
  error : option string
}.


(** The dictionary after [embedding_status.update({...})] in
    [create_embeddings]: all seven keys are written. *)
Definition reset_status : embedding_status :=
  {| status := "starting"; progress := 0; total_documents := 0;
     processed_documents := 0; current_company := None;
     estimated_time_remaining := None; error := None |}.

(** A task handed to [background_tasks.add_task]: a run of
    [_generate_embeddings_background] on the request. *)
Inductive task :=
  | GenerateEmbeddings (request : EmbeddingRequest).

(** What the handler acts on: the shared dictionary and the tasks
    scheduled so far. *)
Record server := {
  shared_status : embedding_status;
  background_tasks : list task
}.

(** The dictionary the handler returns. *)
Record started := {
  started_message : string;
  started_status : string;
  started_force_recreate : bool;
  started_companies : option (list string);
  started_batch_size : Z
}.

(** [POST /embeddings/create]: the outcome, the server afterwards and the
    log records. *)
Definition create_embeddings (request : EmbeddingRequest) (s : server)
  : result started * server * log :=
  if String.eqb (status (shared_status s)) "processing" then
    (Raise (HTTPException 409 "Embedding generation is already in progress"),
     s, [])
  else
    (Ok {| started_message := "Embedding generation started";
           started_status := "starting";
           started_force_recreate := force_recreate request;
           started_companies := RAGPipeline.company_values (companies request);
           started_batch_size := batch_size request |},
     {| shared_status := reset_status;
        background_tasks := background_tasks s ++ [GenerateEmbeddings request] |},
     []).

(** *** Vocabulary of the handlers' properties *)


(** How a handler ends when the call it makes ends with [inner]: with the
    response, with the [HTTPException] as raised, or with the 500 it makes
    of another exception, logged once. *)
Definition ends_as {A} (outcome : result A * log) (inner : result A)
    (logged detail : string) : Prop :=
  match inner with
  | Ok response => outcome = (Ok response, [])
  | Raise (HTTPException c d) => outcome = (Raise (HTTPException c d), [])
  | Raise (Exception m) =>
      outcome = (Raise (HTTPException 500 (detail +:+ m)),
                 [(ERROR, logged +:+ m)])
  end.

End Api.

(* ===================================================================== *)
(** ** Directory listings *)
(* ===================================================================== *)

Module Files.

(** [fnmatch(name, "*" + suffix)]: the name ends with the suffix. *)
Definition ends_with (suffix name : string) : bool :=
  (String.length suffix <=? String.length name)%nat
  && String.eqb
       (String.substring (String.length name - String.length suffix)
          (String.length suffix) name)
       suffix.

End Files.

(* ===================================================================== *)
(** ** Cache maintenance: [services/embedding_service.py] *)
(* ===================================================================== *)

Module CacheMaintenance.
Import Py EmbeddingService Files.

(** [self.cache_dir.glob("*.pkl")]: the files of the cache directory whose
    name ends in [.pkl]. *)
Definition cache_file (svc : service) (p : path) : bool :=
  bool_decide (p.1 = cache_dir svc) && ends_with ".pkl" p.2.

Definition cache_files (svc : service) (w : world) : gmap path cache_entry :=
  filter (fun kv => cache_file svc kv.1 = true) (files w).

(** [clear_cache]: every cache file is unlinked, which succeeds for the
    files just listed; the number of them is returned. *)
Definition clear_cache (svc : service) (w : world) : Z * world :=
  (Z.of_nat (size (cache_files svc w)),
   {| files := filter (fun kv => cache_file svc kv.1 = false) (files w);
      encode_calls := encode_calls w |}).

(** [round(x, 2)] *)
Definition round2 (q : Q) : Q := Qmake (round_half_even (q * 100)) 100.

(** The dictionary [get_cache_info] returns. *)
Record cache_info := {
  cached_embeddings : Z;
  cache_size_mb : Q;
  cache_directory : string;
  info_model_name : string
}.

Section CacheInfo.

(** [f.stat().st_size] of a cache file, in bytes. *)
Variable st_size : cache_entry → Z.

Definition get_cache_info (svc : service) (w : world) : cache_info :=
  let cache_files := map_to_list (cache_files svc w) in
  let total_size := foldr Z.add 0 (map (fun kv => st_size kv.2) cache_files) in
  {| cached_embeddings := Z.of_nat (length cache_files);
     cache_size_mb := round2 (inject_Z total_size / inject_Z (1024 * 1024));
     cache_directory := cache_dir svc;
     info_model_name := model_name svc |}.

End CacheInfo.

End CacheMaintenance.

(* ===================================================================== *)
(** ** Company statistics: [services/chroma_service.py],
       [core/rag_pipeline.py] *)
(* ===================================================================== *)

Module CompanyStatistics.
Import Py VectorStore ChromaService.

(** Truth value of a metadata value. *)
Definition truthy_meta (v : meta_value) : bool :=
  match v with
  | MStr s => truthy_str s
  | MInt n => negb (n =? 0)
  end.

(** [self.company_names.get(company, company)] *)
Definition company_name (company : string) : string :=
  default company
    (snd <$> List.find (fun kv => String.eqb (fst kv) company) company_names).

(** The dictionary [get_company_stats] returns; [stats_date_range] holds
    the values under ["start"] and ["end"]. *)
Record company_stats := {
  stats_company : string;
  stats_name : string;
  stats_transcript_count : Z;
  stats_chunk_count : Z;
  stats_date_range : option (meta_value * meta_value);
  stats_latest_transcript : option meta_value
}.

(** The dictionary returned for a company without data, and after an
    exception. *)
Definition no_stats (company : string) : company_stats :=
  {| stats_company := company;
     stats_name := company_name company;
     stats_transcript_count := 0;
     stats_chunk_count := 0;
     stats_date_range := None;
     stats_latest_transcript := None |}.

Section Statistics.

(** The [TypeError] with which [list.sort] leaves a list that holds both
    strings and integers. *)
Variable sort_error : list meta_value → exn.

(** [keys.sort()] *)
Definition sort_keys (keys : list meta_value) : result (list meta_value) :=
  if comparable keys then Ok (sort_by key_before keys)
  else Raise (sort_error keys).

(** The values under [key] that are present and true, one per record that
    has one. *)
Definition truthy_values (key : string) (metadatas : list metadata)
  : list meta_value :=
  filter (fun v => truthy_meta v = true) (omap (fun m => m !! key) metadatas).

Definition get_company_stats (db : database) (company : string)
  : company_stats * log :=
  let collection_name := get_collection_name company in
  let collection := get_or_create_collection db collection_name in
  if count collection =? 0 then (no_stats company, [])
  else
    let metadatas := map row_metadata collection in
    match metadatas with
    | [] => (no_stats company, [])
    | _ =>
        let unique_documents :=
          remove_dups (truthy_values "document_id" metadatas) in
        match sort_keys (truthy_values "date" metadatas) with
        | Raise e =>
            (no_stats company,
             [(ERROR, "Failed to get company stats for " +:+ company +:+ ": "
                        +:+ str_of_exn e)])
        | Ok dates =>
            ({| stats_company := company;
                stats_name := company_name company;
                stats_transcript_count := Z.of_nat (length unique_documents);
                stats_chunk_count := Z.of_nat (length metadatas);
                stats_date_range :=
                  match dates, last dates with
                  | first :: _, Some latest => Some (first, latest)
                  | _, _ => None
                  end;
                stats_latest_transcript := last dates |}, [])
        end
    end.

(** [get_all_companies_stats]: the statistics of the known companies, in
    the order of [company_names], and the log records. *)
Definition get_all_companies_stats (db : database)
  : list company_stats * log :=
  fold_left
    (fun acc company =>
       let r := get_company_stats db company in
       (fst acc ++ [fst r], snd acc ++ snd r))
    (map fst company_names) ([], []).

End Statistics.

(** [_estimate_total_chunks_searched]: the sum of the [chunk_count] of the
    companies searched, and the log records of the statistics. *)
Definition _estimate_total_chunks_searched (sort_error : list meta_value → exn)
    (db : database) (company_filter : option (list string)) : Z * log :=
  fold_left
    (fun acc company =>
       let stats := get_company_stats sort_error db company in
       (fst acc + stats_chunk_count (fst stats), snd acc ++ snd stats))
    (companies_to_search company_filter) (0, []).

(** *** Vocabulary of the properties *)

(** [a] does not sort after [b]. *)
Definition key_le (a b : meta_value) : Prop := key_before b a = false.

(** Two keys of the same type. *)
Definition same_type (a b : meta_value) : Prop :=
  match a, b with
  | MInt _, MInt _ | MStr _, MStr _ => True
  | _, _ => False
  end.

End CompanyStatistics.

(* ===================================================================== *)
(** ** Companies endpoint: [api/health.py], [models/response.py] *)
(* ===================================================================== *)

Module Health.
Import Py VectorStore ChromaService CompanyStatistics.

Record CompanyInfo := {
  info_symbol : string;
  info_name : string;
  info_transcript_count : Z;
  info_date_range : string * string;
  info_latest_transcript : option string
}.

Record CompaniesResponse := {
  companies_listed : list CompanyInfo;
  total_companies : Z;
  total_transcripts : Z
}.

(** [CompanyInfo(...)] for one company's statistics, with the validation of
    its fields: [date_range] maps to strings, [latest_transcript] is a
    string or [None]. Statistics without a date range are given
    [{"start": None, "end": None}], which is refused. *)
Definition company_info (stats : company_stats) : result CompanyInfo :=
  match stats_date_range stats, stats_latest_transcript stats with
  | Some (MStr first, MStr latest), Some (MStr l) =>
      Ok {| info_symbol := stats_company stats;
            info_name := stats_name stats;
            info_transcript_count := stats_transcript_count stats;
            info_date_range := (first, latest);
            info_latest_transcript := Some l |}
  | Some (MStr first, MStr latest), None =>
      Ok {| info_symbol := stats_company stats;
            info_name := stats_name stats;
            info_transcript_count := stats_transcript_count stats;
            info_date_range := (first, latest);
            info_latest_transcript := None |}
  | _, _ => Raise (Exception "validation error for CompanyInfo")
  end.

(** The loop of [get_companies]: the first failure leaves it. *)
Fixpoint company_infos (all_stats : list company_stats)
  : result (list CompanyInfo) :=
  match all_stats with
  | [] => Ok []
  | stats :: rest =>
      match company_info stats with
      | Raise e => Raise e
      | Ok info =>
          match company_infos rest with
          | Raise e => Raise e
          | Ok infos => Ok (info :: infos)
          end
      end
  end.

(** [GET /companies] *)
Definition get_companies (sort_error : list meta_value → exn) (db : database)
  : CompaniesResponse * log :=
  let '(companies_stats, records) := get_all_companies_stats sort_error db in
  match company_infos companies_stats with
  | Ok companies =>
      ({| companies_listed := companies;
          total_companies := Z.of_nat (length companies);
          total_transcripts :=
            fold_left Z.add (map stats_transcript_count companies_stats) 0 |},
       records)
  | Raise e =>
      ({| companies_listed := []; total_companies := 0; total_transcripts := 0 |},
       records ++ [(ERROR, "Failed to get companies info: " +:+ str_of_exn e)])
  end.

End Health.

(* ===================================================================== *)
(** ** Gemini service: [services/gemini_service.py]                      *)
(* ===================================================================== *)

Module GeminiService.
Import Py ChromaService.

(** Writes a text of code points below 256 as a string. *)
Definition unlit (s : Chunker.str) : string :=
  String.string_of_list_ascii (map Ascii.ascii_of_N s).

(** [s.strip()] on a string, read as a text of code points. *)
Definition strip (s : string) : string :=
  unlit (Chunker.strip (Chunker.lit s)).

(** The line feed. *)
Definition nl : string := String (Ascii.ascii_of_nat 10) EmptyString.

(** [genai.types.GenerationConfig(...)] *)
Record GenerationConfig := {
  config_temperature : Q;
  max_output_tokens : Z;
  top_p : Q;
  top_k : Z
}.

Definition _generate_no_context_response (question : string) : string :=
  "I couldn't find relevant information in the available financial transcripts to answer your question: '"
  +:+ question +:+ "'. This could be because:" +:+ nl +:+ nl
  +:+ "1. The topic isn't covered in the available earnings call transcripts"
  +:+ nl
  +:+ "2. The information might be in transcripts outside the covered time period (2016-2020)"
  +:+ nl
  +:+ "3. The question might need to be rephrased to match the content better"
  +:+ nl +:+ nl
  +:+ "Try refining your question or asking about topics commonly discussed in earnings calls such as revenue, growth, market conditions, or business strategy.".

Section WithClient.

(** The library: how [genai.configure] and [GenerativeModel] end, and
    [model.generate_content(prompt, generation_config).text]. *)
Variable genai_client : result unit.
Variable generate_content : string → GenerationConfig → result string.
(** [_create_rag_prompt], the text built from the question and the
    sources. *)
Variable _create_rag_prompt : string → list chunk → Q → string.

(** [_initialize_client]: whether [self.model] is set afterwards, and the
    log records. *)
Definition _initialize_client (api_key : string) : bool * log :=
  if negb (truthy_str api_key) || String.eqb api_key "your_gemini_api_key_here"
  then (false, [(ERROR, "Google API key not configured")])
  else
    match genai_client with
    | Ok _ => (true, [])
    | Raise e =>
        (false, [(ERROR, "Failed to initialize Gemini client: " +:+ str_of_exn e)])
    end.

(** [generate_response]: the answer, the calls made to the model and the
    log records. [model] tells whether [self.model] is set. *)
Definition generate_response (model : bool) (question : string)
    (sources : list chunk) (temperature : Q) (max_tokens : Z)
  : option string * list (string * GenerationConfig) * log :=
  if negb model then (None, [], [(ERROR, "Gemini model not initialized")])
  else
    match sources with
    | [] => (Some (_generate_no_context_response question), [], [])
    | _ =>
        let prompt := _create_rag_prompt question sources temperature in
        let generation_config :=
          {| config_temperature := temperature;
             max_output_tokens := max_tokens;
             top_p := 9 # 10;
             top_k := 40 |} in
        match generate_content prompt generation_config with
        | Raise e =>
            (None, [(prompt, generation_config)],
             [(ERROR, "Failed to generate response: " +:+ str_of_exn e)])
        | Ok text =>
            if truthy_str text
            then (Some (strip text), [(prompt, generation_config)], [])
            else (None, [(prompt, generation_config)],
                  [(WARNING, "Empty response from Gemini")])
        end
    end.

(** The default of [max_tokens], with which the pipeline calls. *)
Definition default_max_tokens : Z := 2000.

End WithClient.

End GeminiService.

(* ===================================================================== *)
(** ** Quarters of dates and file names:
       [core/rag_pipeline.py], [api/embeddings.py]                        *)
(* ===================================================================== *)

Module Quarter.
Import Chunker.

(** An element of the regular expressions the code searches with: [\d],
    [\w] and the hyphen. *)
Inductive atom := Digit | Word | Hyphen.

(** The month names both functions know, with the month's number. *)
Definition months : list (string * Z) :=
  [ ("Jan", 1); ("Feb", 2); ("Mar", 3); ("Apr", 4); ("May", 5); ("Jun", 6);
    ("Jul", 7); ("Aug", 8); ("Sep", 9); ("Oct", 10); ("Nov", 11);
    ("Dec", 12) ]%string.

(** [month_map.get(month_str)] *)
Definition month_map (month_str : str) : option Z :=
  snd <$> List.find (fun kv => bool_decide (lit (fst kv) = month_str)) months.

(** [month_to_quarter.get(month)] *)
Definition month_to_quarter (month : str) : option str :=
  snd <$> List.find (fun kv => bool_decide (lit (fst kv) = month))
            [ ("Jan", lit "Q1"); ("Feb", lit "Q1"); ("Mar", lit "Q1");
              ("Apr", lit "Q2"); ("May", lit "Q2"); ("Jun", lit "Q2");
              ("Jul", lit "Q3"); ("Aug", lit "Q3"); ("Sep", lit "Q3");
              ("Oct", lit "Q4"); ("Nov", lit "Q4"); ("Dec", lit "Q4") ]%string.

(** The chain [if month in [1, 2, 3]: ... else: ...] with its f-strings. *)
Definition quarter_label (month year : Z) : str :=
  if bool_decide (month ∈ [1; 2; 3]) then lit ("Q1 " +:+ pretty year)
  else if bool_decide (month ∈ [4; 5; 6]) then lit ("Q2 " +:+ pretty year)
  else if bool_decide (month ∈ [7; 8; 9]) then lit ("Q3 " +:+ pretty year)
  else lit ("Q4 " +:+ pretty year).

(** The days of a month, as [datetime.date] checks them. *)
Definition is_leap (year : Z) : bool :=
  (year mod 4 =? 0) && (negb (year mod 100 =? 0) || (year mod 400 =? 0)).

Definition days_in_month (year month : Z) : Z :=
  if month =? 2 then (if is_leap year then 29 else 28)
  else if bool_decide (month ∈ [4; 6; 9; 11]) then 30
  else 31.

(** The character class [[lo-hi]] of ASCII digits. *)
Definition between (lo hi : N) (c : char) : bool := ((lo <=? c) && (c <=? hi))%N.
Arguments between (lo hi c)%_N.

(** The value of an ASCII digit. *)
Definition digit (c : char) : Z := Z.of_N c - 48.

(** [s.split(sep)] for a separator of one character; [cur] is the piece
    being read, reversed. *)
Fixpoint split_on (sep : char) (cur : str) (s : str) : list str :=
  match s with
  | [] => [rev cur]
  | c :: s' =>
      if (c =? sep)%N then rev cur :: split_on sep [] s'
      else split_on sep (c :: cur) s'
  end.

(** The date the ingestion derives from a file name:
    [f"{parts[0]}-{parts[1]}-{parts[2]}"] when the name has three parts. *)
Definition date_of_filename (filename : str) : str :=
  match split_on 45%N [] filename with
  | p0 :: p1 :: p2 :: _ => p0 ++ lit "-" ++ p1 ++ lit "-" ++ p2
  | _ => lit "unknown"
  end.

Section WithUnicode.

(** The Unicode database: the value of a decimal digit (the characters
    [\d] matches and [int] reads), and the word characters ([\w]). *)
Variable decimal : char → option Z.
Variable is_word : char → bool.

Definition atom_matches (a : atom) (c : char) : bool :=
  match a with
  | Digit => bool_decide (is_Some (decimal c))
  | Word => is_word c
  | Hyphen => (c =? 45)%N
  end.

(** The pattern matches at the start of the text: the text matched. *)
Fixpoint match_here (pattern : list atom) (s : str) : option str :=
  match pattern, s with
  | [], _ => Some []
  | a :: pattern', c :: s' =>
      if atom_matches a c then cons c <$> match_here pattern' s' else None
  | _ :: _, [] => None
  end.

(** [re.search(pattern, s)]: the leftmost match. *)
Fixpoint search (pattern : list atom) (s : str) : option str :=
  match match_here pattern s with
  | Some m => Some m
  | None =>
      match s with
      | [] => None
      | _ :: s' => search pattern s'
      end
  end.

(** [(\d{4})-(\w{3})-\d{2}], [(\w{3})-(\d{4})] and [(\d{4})-(\w{3})]. *)
Definition year_month_day : list atom :=
  [Digit; Digit; Digit; Digit; Hyphen; Word; Word; Word; Hyphen; Digit; Digit].
Definition month_year : list atom :=
  [Word; Word; Word; Hyphen; Digit; Digit; Digit; Digit].
Definition year_month : list atom :=
  [Digit; Digit; Digit; Digit; Hyphen; Word; Word; Word].

(** [int(s)] on a text of decimal digits. *)
Definition int (s : str) : option Z :=
  match s with
  | [] => None
  | _ =>
      fold_left (fun acc c =>
                   match acc, decimal c with
                   | Some n, Some d => Some (10 * n + d)
                   | _, _ => None
                   end) s (Some 0)
  end.

(** [_extract_quarter_from_filename] *)
Definition _extract_quarter_from_filename (filename : str) : str :=
  match search year_month_day filename with
  | Some m =>
      let year := take 4 m in
      let month := take 3 (drop 5 m) in
      default (lit "Q1") (month_to_quarter month) ++ lit " " ++ year
  | None =>
      match search month_year filename with
      | Some m =>
          let month := take 3 m in
          let year := drop 4 m in
          default (lit "Q1") (month_to_quarter month) ++ lit " " ++ year
      | None => lit "Unknown"
      end
  end.

(** The alternatives of [%m], [1[0-2]|0[1-9]|[1-9]], that match at the
    start of the text, in their order: the month and the rest. *)
Definition month_alternatives (s : str) : list (Z * str) :=
  match s with
  | a :: b :: rest =>
      (if (a =? 49)%N && between 48 50 b then [(10 + digit b, rest)] else [])
      ++ (if (a =? 48)%N && between 49 57 b then [(digit b, rest)] else [])
  | _ => []
  end
  ++ match s with
     | a :: rest => if between 49 57 a then [(digit a, rest)] else []
     | [] => []
     end.

(** The alternatives of [%d], [3[0-1]|[1-2]\d|0[1-9]|[1-9]| [1-9]]. *)
Definition day_alternatives (s : str) : list (Z * str) :=
  match s with
  | a :: b :: rest =>
      (if (a =? 51)%N && between 48 49 b then [(30 + digit b, rest)] else [])
      ++ (if between 49 50 a
          then match decimal b with
               | Some d => [(10 * digit a + d, rest)]
               | None => []
               end
          else [])
      ++ (if (a =? 48)%N && between 49 57 b then [(digit b, rest)] else [])
  | _ => []
  end
  ++ match s with
     | a :: rest => if between 49 57 a then [(digit a, rest)] else []
     | [] => []
     end
  ++ match s with
     | a :: b :: rest =>
         if (a =? 32)%N && between 49 57 b then [(digit b, rest)] else []
     | _ => []
     end.

(** The first way the rest of the format, [-%d], matches after a month. *)
Definition day_after (month_rest : Z * str) : option (Z * Z * str) :=
  match snd month_rest with
  | c :: s =>
      if (c =? 45)%N then
        match day_alternatives s with
        | (day, rest) :: _ => Some (fst month_rest, day, rest)
        | [] => None
        end
      else None
  | [] => None
  end.

(** [datetime.strptime(date_str, "%Y-%m-%d")]: the year, month and day, or
    [None] for a [ValueError]: the format does not match, text remains
    after the match, or there is no such day. *)
Definition strptime (date_str : str) : option (Z * Z * Z) :=
  match date_str with
  | y1 :: y2 :: y3 :: y4 :: c :: s =>
      match decimal y1, decimal y2, decimal y3, decimal y4 with
      | Some d1, Some d2, Some d3, Some d4 =>
          if (c =? 45)%N then
            match omap day_after (month_alternatives s) with
            | (month, day, rest) :: _ =>
                let year := 1000 * d1 + 100 * d2 + 10 * d3 + d4 in
                match rest with
                | [] =>
                    if (1 <=? year) && (day <=? days_in_month year month)
                    then Some (year, month, day)
                    else None
                | _ => None
                end
            | [] => None
            end
          else None
      | _, _, _, _ => None
      end
  | _ => None
  end.

(** One pattern of the fallback of [_extract_quarter]: [None] stands for
    [continue]. *)
Definition quarter_by (pattern : list atom) (month_first : bool)
    (date_str : str) : option str :=
  match search pattern date_str with
  | Some m =>
      let month_str := if month_first then take 3 m else take 3 (drop 5 m) in
      let year_str := if month_first then drop 4 m else take 4 m in
      let month := default 1 (month_map month_str) in
      match int year_str with
      | Some year => Some (quarter_label month year)
      | None => None
      end
  | None => None
  end.

(** [_extract_quarter] *)
Definition _extract_quarter (date_str : str) : option str :=
  if negb (truthy date_str) then None
  else
    match strptime date_str with
    | Some (year, month, _) => Some (quarter_label month year)
    | None =>
        match quarter_by month_year true date_str with
        | Some quarter => Some quarter
        | None => quarter_by year_month false date_str
        end
    end.

End WithUnicode.

(** *** Vocabulary of the properties *)

(** The ASCII part of the Unicode database: the decimal digits below 128
    are ['0'] to ['9'] with their values, and the word characters below
    128 are the digits, the letters and the underscore. *)
Definition ascii_word (c : char) : bool :=
  between 48 57 c || between 65 90 c || between 97 122 c || (c =? 95)%N.

Definition ascii_decimal (c : char) : option Z :=
  if between 48 57 c then Some (digit c) else None.

Definition agrees_on_ascii (decimal : char → option Z) (is_word : char → bool)
  : Prop :=
  ∀ c, (c < 128)%N → decimal c = ascii_decimal c ∧ is_word c = ascii_word c.

(** [date.isoformat()]: the year in four digits, the month and the day in
    two. *)
Definition two_digits (n : Z) : str :=
  [Z.to_N (48 + n / 10); Z.to_N (48 + n mod 10)].

Definition isoformat (year month day : Z) : str :=
  [Z.to_N (48 + year / 1000); Z.to_N (48 + year / 100 mod 10);
   Z.to_N (48 + year / 10 mod 10); Z.to_N (48 + year mod 10)]
  ++ lit "-" ++ two_digits month ++ lit "-" ++ two_digits day.

End Quarter.

(* ===================================================================== *)
(** ** Background ingestion: [api/embeddings.py],
       [_generate_embeddings_background]                                  *)
(* ===================================================================== *)

Module Ingestion.
Import Py EmbeddingService VectorStore ChromaService Api Files.

(** A directory entry: its name and what reading it as UTF-8 text gives. *)
Abbreviation entry := (string * result string)%type.

(** The transcripts directory as the task finds it: whether it exists,
    and the entries of each company directory that exists, in the order
    in which the directory lists them. *)
Record transcripts := {
  dir_exists : bool;
  company_dirs : gmap string (list (string * result string))
}.

(** [company_dir.glob("*.txt")] *)
Definition glob_txt (entries : list entry) : list entry :=
  filter (fun e => ends_with ".txt" (fst e) = true) entries.

(** [transcript_file.stem] of a name that ends in [.txt]: the name without
    the suffix, and the whole name when nothing precedes the suffix. *)
Definition stem (name : string) : string :=
  let base := String.substring 0 (String.length name - 4) name in
  if truthy_str base then base else name.

(** [round(x, 1)] *)
Definition round1 (q : Q) : Q := Qmake (round_half_even (q * 10)) 10.

(** [int(x)], [math.floor(x)], [x // y] and [x % y] on floats. *)
Definition int_of_float (x : Q) : Z := Z.quot (Qnum x) (Z.pos (Qden x)).
Definition floor (x : Q) : Z := Qnum x / Z.pos (Qden x).
Definition floordiv (x y : Q) : Q := inject_Z (floor (x / y)).
Definition float_mod (x y : Q) : Q := x - y * floordiv x y.

(** The text shown as remaining time. *)
Definition time_str (estimated_remaining : Q) : string :=
  if Qle_bool 60 estimated_remaining then
    if Qle_bool 3600 estimated_remaining then
      let hours := int_of_float (floordiv estimated_remaining 3600) in
      let minutes :=
        int_of_float (floordiv (float_mod estimated_remaining 3600) 60) in
      pretty hours +:+ "h " +:+ pretty minutes +:+ "m"
    else
      pretty (int_of_float (floordiv estimated_remaining 60)) +:+ "m "
      +:+ pretty (int_of_float (float_mod estimated_remaining 60)) +:+ "s"
  else pretty (int_of_float estimated_remaining) +:+ "s".

(** What the task acts on: the shared dictionary, the vector store, the
    number of documents processed so far and the log records. *)
Record state := {
  shared : embedding_status;
  db : database;
  processed_docs : Z;
  records : log
}.

Definition set_status (f : embedding_status → embedding_status) (st : state)
  : state :=
  {| shared := f (shared st); db := db st;
     processed_docs := processed_docs st; records := records st |}.

Definition logged (r : level * string) (st : state) : state :=
  {| shared := shared st; db := db st;
     processed_docs := processed_docs st; records := records st ++ [r] |}.

Section WithServices.

(** The embedding model and service, the Unicode database (see
    [Quarter]), and the clock: [time 0] is [start_time], and [time k] what
    [time.time()] returns once [k] documents are processed. *)
Variable model_loads : bool.
Variable model_encode : string → string → embedding.
Variable svc : service.
Variable w : world.
Variable decimal : Chunker.char → option Z.
Variable is_word : Chunker.char → bool.
Variable time : Z → Q.

(** [settings.transcripts_directory] *)
Variable transcripts_directory : string.

(** What the task prepares from a file it has read: the document id, the
    chunks and the metadata. *)
Definition document_of_file (company name content : string)
  : string * list string * gmap string meta_value :=
  let filename := stem name in
  let date_str :=
    GeminiService.unlit (Quarter.date_of_filename (Chunker.lit filename)) in
  let chunks :=
    map GeminiService.unlit
      (Chunker._split_into_chunks (Chunker.lit content) 512) in
  let document_id := lower company +:+ "_" +:+ filename in
  let metadata : gmap string meta_value :=
    {[ "date" := MStr date_str;
       "company" := MStr company;
       "filename" := MStr name;
       "quarter" :=
         MStr (GeminiService.unlit
                 (Quarter._extract_quarter_from_filename decimal is_word
                    (Chunker.lit filename))) ]} in
  (document_id, chunks, metadata).

(** The body of [for transcript_file in transcript_files], with its
    [try]. *)
Definition process_file (total_docs : Z) (company : string) (st : state)
    (file : entry) : state :=
  let name := fst file in
  let path := transcripts_directory +:+ "/" +:+ company +:+ "/" +:+ name in
  match snd file with
  | Raise e =>
      logged (ERROR, "Failed to process " +:+ path +:+ ": " +:+ str_of_exn e) st
  | Ok content =>
      let '(document_id, chunks, metadata) :=
        document_of_file company name content in
      let '(success, db', store_records) :=
        store_document_chunks model_loads model_encode (db st) svc w company
          document_id chunks metadata in
      let records' :=
        records st ++ store_records
        ++ (if success then []
            else [(ERROR, "Failed to process " +:+ name)]) in
      let processed_docs' := processed_docs st + 1 in
      if total_docs =? 0 then
        {| shared := shared st; db := db'; processed_docs := processed_docs';
           records :=
             records' ++ [(ERROR, "Failed to process " +:+ path
                                    +:+ ": division by zero")] |}
      else
        let progress :=
          (inject_Z processed_docs' / inject_Z total_docs * 100)%Q in
        let elapsed_time := (time processed_docs' - time 0%Z)%Q in
        let avg_time_per_doc := (elapsed_time / inject_Z processed_docs')%Q in
        let remaining_docs := total_docs - processed_docs' in
        let estimated_remaining :=
          (avg_time_per_doc * inject_Z remaining_docs)%Q in
        {| shared :=
             {| status := status (shared st);
                progress := round1 progress;
                total_documents := total_documents (shared st);
                processed_documents := processed_docs';
                current_company := current_company (shared st);
                estimated_time_remaining :=
                  if 0 <? processed_docs'
                  then Some (time_str estimated_remaining)
                  else estimated_time_remaining (shared st);
                error := error (shared st) |};
           db := db'; processed_docs := processed_docs';
           records := records' |}
  end.

(** The body of [for company in companies]. *)
Definition process_company (fs : transcripts) (total_docs : Z) (st : state)
    (company : string) : state :=
  let st :=
    set_status (fun s =>
      {| status := status s; progress := progress s;
         total_documents := total_documents s;
         processed_documents := processed_documents s;
         current_company := Some company;
         estimated_time_remaining := estimated_time_remaining s;
         error := error s |}) st in
  match company_dirs fs !! company with
  | None =>
      logged (WARNING, "Company directory not found: " +:+ transcripts_directory
                         +:+ "/" +:+ company) st
  | Some entries =>
      fold_left (process_file total_docs company) (glob_txt entries) st
  end.

(** The documents counted before the work starts. *)
Definition count_documents (fs : transcripts) (companies : list string) : Z :=
  fold_left
    (fun total_docs company =>
       match company_dirs fs !! company with
       | Some entries => total_docs + Z.of_nat (length (glob_txt entries))
       | None => total_docs
       end)
    companies 0.

(** The companies the task goes through: those of the request, or every
    known company when the request names none. *)
Definition companies_to_process (request : Models.EmbeddingRequest)
  : list string :=
  match Models.companies request with
  | Some (c :: cs) => map Models.value (c :: cs)
  | _ => map fst company_names
  end.

(** [_generate_embeddings_background]: the shared dictionary, the store
    and the log records when the task ends. *)
Definition _generate_embeddings_background (request : Models.EmbeddingRequest)
    (fs : transcripts) (shared0 : embedding_status) (db0 : database)
  : embedding_status * database * log :=
  let processing :=
    {| status := "processing"; progress := progress shared0;
       total_documents := total_documents shared0;
       processed_documents := processed_documents shared0;
       current_company := current_company shared0;
       estimated_time_remaining := estimated_time_remaining shared0;
       error := error shared0 |} in
  if negb (dir_exists fs) then
    let message := "Transcripts directory not found: " +:+ transcripts_directory in
    ({| status := "error"; progress := progress processing;
        total_documents := total_documents processing;
        processed_documents := processed_documents processing;
        current_company := current_company processing;
        estimated_time_remaining := estimated_time_remaining processing;
        error := Some message |},
     db0,
     [(ERROR, "Background embedding generation failed: " +:+ message)])
  else
    let companies := companies_to_process request in
    let total_docs := count_documents fs companies in
    let st :=
      {| shared :=
           {| status := "processing"; progress := progress shared0;
              total_documents := total_docs;
              processed_documents := processed_documents shared0;
              current_company := current_company shared0;
              estimated_time_remaining := estimated_time_remaining shared0;
              error := error shared0 |};
         db := db0; processed_docs := 0; records := [] |} in
    let st := fold_left (process_company fs total_docs) companies st in
    ({| status := "completed"; progress := 100;
        total_documents := total_documents (shared st);
        processed_documents := processed_documents (shared st);
        current_company := None;
        estimated_time_remaining := None;
        error := error (shared st) |},
     db st, records st).

End WithServices.

(** *** Vocabulary of the properties *)

(** The files of a company the task goes through, and the files of a list
    of companies, each with its company, in the order of the run. *)
Definition files_of (fs : transcripts) (company : string) : list entry :=
  glob_txt (default [] (company_dirs fs !! company)).

Definition jobs (fs : transcripts) (companies : list string)
  : list (string * entry) :=
  flat_map (fun company => map (pair company) (files_of fs company)) companies.

(** The file could be read. *)
Definition readable (job : string * entry) : bool := is_ok (snd (snd job)).

Section StoredFiles.

Variable model_loads : bool.
Variable model_encode : string → string → embedding.
Variable svc : service.
Variable w : world.
Variable decimal : Chunker.char → option Z.
Variable is_word : Chunker.char → bool.

(** What the task does to the store with one file. *)
Definition store_job (job : string * entry) (d : database) : database :=
  match snd (snd job) with
  | Raise _ => d
  | Ok content =>
      let '(document_id, chunks, metadata) :=
        document_of_file decimal is_word (fst job) (fst (snd job)) content in
      snd (fst (store_document_chunks model_loads model_encode d svc w
                  (fst job) document_id chunks metadata))
  end.

(** The collection holds records with all of these ids. *)
Definition holds (d : database) (name : string) (ids : list string) : Prop :=
  ∃ coll, d !! name = Some coll ∧ Forall (fun id => id ∈ map row_id coll) ids.

(** Nothing is left to store for the file. *)
Definition settled (d : database) (job : string * entry) : Prop :=
  match snd (snd job) with
  | Raise _ => True
  | Ok content =>
      let '(document_id, chunks, metadata) :=
        document_of_file decimal is_word (fst job) (fst (snd job)) content in
      chunks = [] ∨ model_loads = false
      ∨ holds d (get_collection_name (fst job))
          (map row_id
             (chunk_rows (fst job) document_id chunks
                (map (model_encode (model_name svc)) chunks) metadata))
  end.

(** The record is the one the task prepares for a chunk of the file. *)
Definition chunk_of_file (company file_name content : string) (r : row)
  : Prop :=
  let filename := Chunker.lit (stem file_name) in
  ∃ (i : nat) (chunk : string),
    map GeminiService.unlit
      (Chunker._split_into_chunks (Chunker.lit content) 512) !! i = Some chunk
    ∧ row_id r
      = lower company +:+ "_" +:+ stem file_name +:+ "_chunk_" +:+ pretty i
    ∧ row_document r = chunk
    ∧ row_embedding r = model_encode (model_name svc) chunk
    ∧ row_metadata r !! "company" = Some (MStr company)
    ∧ row_metadata r !! "filename" = Some (MStr file_name)
    ∧ row_metadata r !! "date"
      = Some (MStr (GeminiService.unlit (Quarter.date_of_filename filename)))
    ∧ row_metadata r !! "quarter"
      = Some (MStr (GeminiService.unlit
                      (Quarter._extract_quarter_from_filename decimal is_word
                         filename)))
    ∧ row_metadata r !! "chunk_index" = Some (MInt (Z.of_nat i)).

End StoredFiles.

End Ingestion.

(* ===================================================================== *)
(** ** Vocabulary of the further properties *)
(* ===================================================================== *)

Module Vocabulary.
Import Py VectorStore ChromaService.

(** The chunk's score is at least the threshold, as the code tests it. *)
Definition passes (similarity_threshold : Q) (c : chunk) : Prop :=
  Qle_bool similarity_threshold (similarity_score c) = true.

#[global] Instance passes_dec thr c : Decision (passes thr c).
Proof. unfold passes. apply _. Defined.

(** A bound of a date range that is given and not the empty string. *)
Definition given (bound : option string) : option string :=
  match bound with
  | Some s => if truthy_str s then Some s else None
  | None => None
  end.

(** The records of a collection whose metadata carry the document id. *)
Definition records_of (document_id : string) (coll : collection) : list row :=
  filter (fun r => row_metadata r !! "document_id" = Some (MStr document_id))
    coll.

(** The entry of [get_document_by_id] for one record: its text and its
    [chunk_index], 0 when it has none. *)
Definition indexed (r : row) : string * meta_value :=
  (row_document r, default (MInt 0) (row_metadata r !! "chunk_index")).

End Vocabulary.

(* ===================================================================== *)
(** ** Concrete data for the examples                                    *)
(* ===================================================================== *)

Module Examples.
Import Py VectorStore ChromaService Models RAGPipeline Api.

(** A store with one record of Apple, a model mapping every text to the
    unit vector (1, 0), and the store's distance the squared Euclidean
    one. *)
Definition example_row : row :=
  {| row_id := "aapl_2020-Jan-28-AAPL_chunk_0";
     row_document := "Revenue grew";
     row_metadata := {[ "company" := MStr "AAPL" ]};
     row_embedding := [3 # 5; 4 # 5] |}.

Definition example_db : database := {[ "transcripts_aapl" := [example_row] ]}.

Definition example_service : service :=
  {| model_name := "all-MiniLM-L6-v2"; cache_dir := "./data/embeddings" |}.

Definition example_world : world := {| files := ∅; encode_calls := [] |}.

Definition example_encode (model text : string) : embedding := [1; 0]%Q.

Definition example_found : list chunk :=
  fst (search_similar_chunks squared_l2 true example_encode
         example_db example_service example_world "revenue"
         (Some ["AAPL"%string]) 5 (1 # 10) None).

(** The pipeline's services over that store; the language model answers
    with a fixed sentence. *)
Definition example_search (query : string)
    (company_filter : option (list string)) (max_results : Z)
    (similarity_threshold : Q) (date_filter : option (gmap string string))
  : result (list chunk) :=
  Ok (fst (search_similar_chunks squared_l2 true example_encode example_db
             example_service example_world query company_filter max_results
             similarity_threshold date_filter)).

Definition example_generate (question : string) (sources : list chunk)
    (temperature : Q) : result (option string) :=
  Ok (Some "Revenue grew."%string).

Definition example_request : QueryRequest :=
  {| question := "How did revenue develop?";
     company_filter := Some [AAPL];
     date_range := None;
     max_results := 5;
     similarity_threshold := Some (1 # 10);
     temperature := None |}.

(** A request that asks for a threshold and a temperature of zero. *)
Definition zero_request : QueryRequest :=
  {| question := "How did revenue develop?";
     company_filter := None;
     date_range := None;
     max_results := 5;
     similarity_threshold := Some 0%Q;
     temperature := Some 0%Q |}.

(** A request whose question is one space, a search that fails, a model
    that cannot be loaded, and a server in the middle of a generation. *)
Definition blank_request : QueryRequest :=
  {| question := " ";
     company_filter := None;
     date_range := None;
     max_results := 5;
     similarity_threshold := None;
     temperature := None |}.

Definition failing_search (query : string)
    (company_filter : option (list string)) (max_results : Z)
    (similarity_threshold : Q) (date_filter : option (gmap string string))
  : result (list chunk) :=
  Raise (Exception "connection refused").

(** The pipeline over the failing search, as the query handler's
    dependency. *)
Definition failing_pipeline (request : QueryRequest) : result QueryResponse :=
  Ok (fst (fst (process_query default_settings failing_search example_generate
                  (fun _ => 0) (fun _ => None) "0.01s" request))).

Definition unloaded_search (query : string)
    (company_filter : option (list string)) (max_results : Z)
    (similarity_threshold : Q) (date_filter : option (gmap string string))
  : result (list chunk) :=
  Ok (fst (search_similar_chunks squared_l2 false example_encode example_db
             example_service example_world query company_filter max_results
             similarity_threshold date_filter)).

Definition example_search_request : SearchRequest :=
  {| search_query := "revenue";
     search_company_filter := None;
     search_max_results := 10;
     search_similarity_threshold := None |}.

Definition example_embedding_request : EmbeddingRequest :=
  {| force_recreate := false; companies := None; batch_size := 32 |}.

Definition processing_server : server :=
  {| shared_status :=
       {| status := "processing"; progress := 50; total_documents := 4;
          processed_documents := 2; current_company := Some "AAPL"%string;
          estimated_time_remaining := Some "10s"%string; error := None |};
     background_tasks := [] |}.


(** A cache that holds the vector of one text; the key function stands
    for MD5, the model maps a text to its length. *)
Definition example_key (text : string) : string := text.

Definition length_encode (model text : string) : embedding :=
  [inject_Z (Z.of_nat (String.length text))].

Definition cached_world : world :=
  {| files :=
       {[ ("./data/embeddings", "alpha.pkl")%string :=
            {| entry_text := "alpha";
               entry_embedding := length_encode "all-MiniLM-L6-v2" "alpha";
               entry_model := "all-MiniLM-L6-v2" |} ]};
     encode_calls := [] |}.

(** A document of two chunks. *)
Definition example_chunks : list string :=
  ["Revenue grew"; "Margins were stable"]%string.

Definition example_metadata : gmap string meta_value :=
  {[ "date" := MStr "2020-Jan-28" ]}.

(** The store after the document is stored, and after another text is
    stored under the same document id. *)
Definition stored_db : database :=
  snd (fst (store_document_chunks true example_encode ∅ example_service
              example_world "AAPL" "aapl_2020-Jan-28-AAPL" example_chunks
              example_metadata)).

Definition stored_again : bool * database * log :=
  store_document_chunks true example_encode stored_db example_service
    example_world "AAPL" "aapl_2020-Jan-28-AAPL" ["Revenue fell"%string]
    example_metadata.

End Examples.

(* ===================================================================== *)
(** ** Further concrete data *)
(* ===================================================================== *)

Module FurtherExamples.
Import Py VectorStore ChromaService Models RAGPipeline Api Examples.
Import GeminiService Ingestion.

(** A language model that answers every prompt with one sentence between
    line feeds, and a prompt that is the question. *)
Definition example_content (prompt : string) (config : GenerationConfig)
  : result string :=
  Ok (nl +:+ "Revenue grew." +:+ nl).

Definition example_prompt (question : string) (sources : list chunk)
    (temperature : Q) : string := question.

(** A transcripts directory with one company directory, which holds one
    transcript and one file that is none; a clock that counts the
    documents. *)
Definition example_transcripts : transcripts :=
  {| dir_exists := true;
     company_dirs :=
       {[ "AAPL" :=
            [ ("2020-Jan-28-AAPL.txt", Ok "Revenue grew. Margins were stable.");
              ("notes.md", Ok "Nothing") ] ]}%string |}.

Definition example_clock (processed : Z) : Q := inject_Z processed.

(** A request to recreate the embeddings of Apple. *)
Definition recreate_request : EmbeddingRequest :=
  {| force_recreate := true; companies := Some [AAPL]; batch_size := 1 |}.

End FurtherExamples.


(* ===================================================================== *)
(** * Properties                                                         *)
(* ===================================================================== *)

Section SortFacts.
Import Py.
Context {A : Type} (before : A → A → bool).

Lemma insert_by_perm x l : insert_by before x l ≡ₚ x :: l.
Proof.
  induction l as [|y l IH]; simpl; [done|].
  destruct (before y x); [|done].
  rewrite IH. apply perm_swap.
Qed.

Lemma sort_by_perm l : sort_by before l ≡ₚ l.
Proof.
  induction l as [|x l IH]; simpl; [done|].
  rewrite insert_by_perm. by constructor.
Qed.

Lemma sort_by_elem x l : x ∈ sort_by before l ↔ x ∈ l.
Proof. by rewrite sort_by_perm. Qed.

Lemma sort_by_length l : length (sort_by before l) = length l.
Proof. by rewrite sort_by_perm. Qed.

Hypothesis before_asym : ∀ a b, before a b = true → before b a = false.

Lemma insert_by_sorted x l :
  Sorted (in_order before) l → Sorted (in_order before) (insert_by before x l).
Proof.
  induction 1 as [|y l Hl IH Hhd]; simpl; [by repeat constructor|].
  destruct (before y x) eqn:E.
  - constructor; [done|].
    destruct Hhd as [|z l Hz]; simpl.
    + constructor. by apply before_asym.
    + destruct (before z x); constructor; [done|]. by apply before_asym.
  - constructor; [by constructor|]. by constructor.
Qed.

Lemma sort_by_sorted l : Sorted (in_order before) (sort_by before l).
Proof.
  induction l as [|x l IH]; simpl; [constructor|]. by apply insert_by_sorted.
Qed.

Lemma sort_by_fixed l : Sorted (in_order before) l → sort_by before l = l.
Proof.
  induction 1 as [|x l Hl IH Hhd]; simpl; [done|].
  fold (sort_by before l). rewrite IH.
  destruct Hhd as [|y l Hy]; simpl; [done|]. by rewrite Hy.
Qed.

End SortFacts.



Lemma slice_to_take {A} (l : list A) k :
  ∃ n, Py.slice_to l k = take n l.
Proof. unfold Py.slice_to. destruct (0 <=? k); eauto. Qed.

Lemma Sorted_weaken {A} (R R' : A → A → Prop) l :
  (∀ a b, R a b → R' a b) → Sorted R l → Sorted R' l.
Proof.
  intros HR. induction 1 as [|x l Hl IH Hhd]; constructor; [done|].
  destruct Hhd; constructor. by apply HR.
Qed.


Section ChunkerFacts.
Import Chunker.




























(** The size check of the loop compares the lengths of the chunk and of
    the sentence and leaves out the space that joins them: the text
    "ab. cd" under the limit 4 is returned as the one chunk "ab cd". *)
Lemma split_into_chunks_joining_space :
  _split_into_chunks (lit "ab. cd") 4 = [lit "ab cd"].
Proof. by vm_compute. Qed.

End ChunkerFacts.


Lemma string_app_length s t :
  String.length (s +:+ t) = (String.length s + String.length t)%nat.
Proof. induction s as [|a s IH]; simpl; [done|by rewrite IH]. Qed.

Lemma string_app_inj_r x s t : s +:+ x = t +:+ x → s = t.
Proof.
  revert t. induction s as [|a s IH]; intros [|b t] E; simpl in *.
  - done.
  - apply (f_equal String.length) in E.
    rewrite ?string_app_length in E. simpl in E.
    rewrite ?string_app_length in E. lia.
  - apply (f_equal String.length) in E.
    rewrite ?string_app_length in E. simpl in E.
    rewrite ?string_app_length in E. lia.
  - injection E as -> E. f_equal. by apply IH.
Qed.

Section CacheFacts.
Import Py EmbeddingService.

Variable md5_hexdigest : string → string.

Abbreviation save := (save_embedding_to_cache md5_hexdigest).
Abbreviation load := (load_embedding_from_cache md5_hexdigest).
Abbreviation cache_path svc text :=
  (_get_cache_path svc (_get_cache_key md5_hexdigest text)).
Abbreviation run_saves := (EmbeddingService.run_saves md5_hexdigest).

Lemma load_save svc text e w : load svc text (save svc text e w) = Some e.
Proof.
  unfold load_embedding_from_cache, save_embedding_to_cache. simpl.
  rewrite lookup_insert_eq. simpl. by rewrite decide_True.
Qed.

Lemma load_other_model svc svc' text e w :
  cache_dir svc' = cache_dir svc → model_name svc' ≠ model_name svc →
  load svc' text (save svc text e w) = None.
Proof.
  intros Hdir Hname.
  unfold load_embedding_from_cache, save_embedding_to_cache,
    _get_cache_path. simpl.
  rewrite Hdir, lookup_insert_eq. simpl. rewrite decide_False; [done|].
  congruence.
Qed.

Lemma load_no_file svc text w :
  files w !! cache_path svc text = None → load svc text w = None.
Proof. unfold load_embedding_from_cache. by intros ->. Qed.

Lemma run_saves_files svc text saves : ∀ w,
  Forall (fun s => cache_path (s.1.1) (s.1.2) ≠ cache_path svc text) saves →
  files (run_saves w saves) !! cache_path svc text
  = files w !! cache_path svc text.
Proof.
  induction saves as [|[[s t] e] saves IH]; intros w Hs; [done|].
  apply Forall_cons in Hs as [Hne Hs]. simpl in *.
  rewrite IH; [|done]. simpl. by rewrite lookup_insert_ne.
Qed.

(** C7. After [save_embedding_to_cache(text, e)] the same service loads
    [e] for [text]. A service with another model name on the same cache
    directory loads [None]. On a cache that was empty, after any saves of
    texts whose MD5 key differs from that of [text], loading [text] gives
    [None]. The cache file path is the same for any two texts of equal MD5
    under the same cache directory. *)
Theorem cache_round_trip (svc : service) (text : string) (e : embedding)
    (w : world) :
  load svc text (save svc text e w) = Some e
  ∧ (∀ svc', cache_dir svc' = cache_dir svc →
       model_name svc' ≠ model_name svc →
       load svc' text (save svc text e w) = None)
  ∧ (∀ saves calls,
       Forall (fun s => _get_cache_key md5_hexdigest (s.1.2)
                        ≠ _get_cache_key md5_hexdigest text) saves →
       load svc text
         (run_saves {| files := ∅; encode_calls := calls |} saves) = None)
  ∧ (∀ svc' text',
       cache_dir svc' = cache_dir svc →
       md5_hexdigest text' = md5_hexdigest text →
       cache_path svc' text' = cache_path svc text).
Proof.
  split; [apply load_save|].
  split; [intros; by apply load_other_model|].
  split.
  - intros saves calls Hs. apply load_no_file.
    rewrite run_saves_files; [done|].
    eapply Forall_impl; [exact Hs|]. intros [[s t] x] Hne. simpl in *.
    unfold _get_cache_path. intros [= _ E]. apply Hne.
    by apply string_app_inj_r in E.
  - intros svc' text' Hd Hk. unfold _get_cache_path, _get_cache_key.
    by rewrite Hd, Hk.
Qed.

End CacheFacts.


Section EncodeFacts.
Import Py EmbeddingService.

Variable md5_hexdigest : string → string.
Variable model_loads : bool.
Variable model_encode : string → string → embedding.

Abbreviation save := (save_embedding_to_cache md5_hexdigest).
Abbreviation load := (load_embedding_from_cache md5_hexdigest).
Abbreviation encode := (encode_texts model_loads model_encode).
Abbreviation missed := (EmbeddingService.missed md5_hexdigest).
Abbreviation missed_from := (EmbeddingService.missed_from md5_hexdigest).

Lemma scan_spec svc w texts : ∀ k st,
  fold_left (scan_body md5_hexdigest svc w) (zip (seq k (length texts)) texts) st
  = {| embeddings := embeddings st ++ map (fun t => load svc t w) texts;
       texts_to_encode := texts_to_encode st ++ missed svc w texts;
       indices_to_encode := indices_to_encode st ++ missed_from svc w k texts |}.
Proof.
  induction texts as [|t texts IH]; intros k st.
  - simpl. rewrite !app_nil_r. by destruct st.
  - cbn [length seq zip zip_with fold_left]. rewrite IH.
    unfold missed. rewrite filter_cons. cbn [map missed_from scan_body].
    destruct (load svc t w) eqn:E; simpl.
    + by rewrite <- app_assoc.
    + by rewrite <- !app_assoc.
Qed.

Lemma missed_from_length svc w texts : ∀ k,
  length (missed_from svc w k texts) = length (missed svc w texts).
Proof.
  induction texts as [|t texts IH]; intros k; [done|].
  unfold missed. rewrite filter_cons. simpl.
  destruct (load svc t w) eqn:E; simpl.
  - apply IH.
  - f_equal. apply IH.
Qed.

Lemma fill_length indices : ∀ vectors embs,
  length (fill indices vectors embs) = length embs.
Proof.
  induction indices as [|i indices IH]; intros [|v vectors] embs; try done.
  unfold fill. simpl. fold (fill indices vectors (<[i:=Some v]> embs)).
  by rewrite IH, length_insert.
Qed.

Lemma fill_loop svc indices items : ∀ k rest embs w,
  drop k indices = rest → length rest = length items →
  Forall (fun i => (i < length embs)%nat) rest →
  ∃ w', fold_left (fill_body md5_hexdigest svc indices)
          (zip (seq k (length items)) items) (Ok embs, w)
        = (Ok (fill rest (map snd items) embs), w')
     ∧ encode_calls w' = encode_calls w.
Proof.
  induction items as [|[t e] items IH]; intros k rest embs w Hdrop Hlen Hlt.
  - destruct rest; [|done]. by exists w.
  - destruct rest as [|i rest]; [done|].
    apply Forall_cons in Hlt as [Hi Hlt].
    assert (indices !! k = Some i) as Hk.
    { rewrite <- (Nat.add_0_r k), <- lookup_drop, Hdrop. done. }
    cbn [length seq zip zip_with fold_left fill_body]. rewrite Hk.
    rewrite decide_True; [|done].
    destruct (IH (S k) rest (<[i:=Some e]> embs) (save svc t e w))
      as [w' [Hw' Hc]].
    + rewrite (drop_S _ _ _ Hk) in Hdrop. by injection Hdrop.
    + simpl in Hlen. lia.
    + by rewrite length_insert.
    + exists w'. split; [|by rewrite Hc]. rewrite Hw'. done.
Qed.

Lemma fill_missed svc w (enc : string → embedding) texts : ∀ pre,
  fill (missed_from svc w (length pre) texts) (map enc (missed svc w texts))
       (pre ++ map (fun t => load svc t w) texts)
  = pre ++ map (fun t => Some (default (enc t) (load svc t w))) texts.
Proof.
  induction texts as [|t texts IH]; intros pre; [done|].
  unfold missed. rewrite filter_cons. cbn [map missed_from].
  destruct (load svc t w) as [e|] eqn:E.
  - simpl.
    specialize (IH (pre ++ [Some e])).
    rewrite length_app, Nat.add_1_r, <- !app_assoc in IH. exact IH.
  - simpl. unfold fill. simpl.
    rewrite insert_app_r_alt, Nat.sub_diag by lia. simpl.
    specialize (IH (pre ++ [Some (enc t)])).
    rewrite length_app, Nat.add_1_r, <- !app_assoc in IH. exact IH.
Qed.

Lemma missed_from_bound svc w texts : ∀ k,
  Forall (fun i => (i < k + length texts)%nat) (missed_from svc w k texts).
Proof.
  induction texts as [|t texts IH]; intros k; simpl; [done|].
  specialize (IH (S k)).
  assert (Forall (fun i => (i < k + S (length texts))%nat)
            (missed_from svc w (S k) texts)) as H.
  { eapply Forall_impl; [exact IH|]. intros i Hi. simpl in Hi. lia. }
  destruct (load svc t w); [done|]. constructor; [lia|done].
Qed.

(** C8. If every cache hit on one of the texts is the vector the current
    model computes for that text, and [encode_texts(texts)] returns
    [embs], then [encode_with_cache(texts, use_cache=True)] returns the
    same vectors at the same positions, and the model's encoder is called
    once, on the texts that missed the cache in their order, or not at all
    when none missed. *)
Theorem encode_with_cache_refines (svc : service) (texts : list string)
    (w w1 : world) (embs : list embedding) :
  (∀ t e, t ∈ texts → load svc t w = Some e →
          e = model_encode (model_name svc) t) →
  encode svc texts w = (Ok embs, w1) →
  ∃ w2,
    encode_with_cache md5_hexdigest model_loads model_encode svc texts true w
    = (Ok (map Some embs), w2)
    ∧ encode_calls w2
      = encode_calls w
        ++ match missed svc w texts with [] => [] | ts => [ts] end.
Proof.
  intros Hcache Henc.
  unfold encode_with_cache, enumerate. cbn [negb].
  rewrite !scan_spec. cbn [embeddings texts_to_encode indices_to_encode app].
  assert (embs = map (model_encode (model_name svc)) texts) as ->.
  { unfold encode_texts in Henc. destruct texts; [by inversion Henc|].
    destruct model_loads; by inversion Henc. }
  assert (map (fun t => Some (default (model_encode (model_name svc) t)
                                      (load svc t w))) texts
          = map Some (map (model_encode (model_name svc)) texts)) as Hfinal.
  { rewrite map_map. apply map_ext_in. intros t Ht.
    apply list_elem_of_In in Ht.
    destruct (load svc t w) as [e|] eqn:E; [|done]. simpl.
    f_equal. by apply Hcache. }
  destruct (missed svc w texts) as [|m ms] eqn:Hm.
  - exists w. rewrite app_nil_r. split; [|done]. f_equal.
    pose proof (fill_missed svc w (model_encode (model_name svc)) texts [])
      as Hfill.
    rewrite Hm in Hfill. simpl in Hfill. unfold fill in Hfill.
    destruct (missed_from svc w 0 texts); simpl in Hfill;
      by rewrite Hfill, Hfinal.
  - assert (model_loads = true) as Hloads.
    { unfold encode_texts in Henc. destruct texts; [done|].
      destruct model_loads; [done|by inversion Henc]. }
    unfold encode_texts. rewrite Hloads.
    set (w' := {| files := files w;
                  encode_calls := encode_calls w ++ [m :: ms] |}).
    set (new := map (model_encode (model_name svc)) (m :: ms)).
    destruct (fill_loop svc (missed_from svc w 0 texts) (zip (m :: ms) new)
                0%nat (missed_from svc w 0 texts)
                (map (fun t => load svc t w) texts) w')
      as [w2 [Hrun Hcalls]].
    + done.
    + rewrite length_zip_with, missed_from_length, Hm. unfold new.
      rewrite length_map. lia.
    + rewrite length_map. apply (missed_from_bound svc w texts 0).
    + exists w2. split; [|by rewrite Hcalls].
      rewrite Hrun. f_equal. f_equal.
      rewrite snd_zip; [|unfold new; by rewrite length_map].
      unfold new. rewrite <- Hm, <- Hfinal.
      apply (fill_missed svc w _ texts []).
Qed.

End EncodeFacts.




Section SearchFacts.
Import Py VectorStore ChromaService.

Variable distance : list Q → list Q → Q.
Variable model_loads : bool.
Variable model_encode : string → string → embedding.

Lemma build_where_company company df :
  build_where company df !! "company" = Some (Equals (MStr company)).
Proof.
  unfold build_where. destruct df as [df|]; [|by simplify_map_eq].
  case_decide; [by simplify_map_eq|].
  destruct (get_truthy df "start"), (get_truthy df "end");
    by simplify_map_eq.
Qed.

Lemma build_where_start company df s :
  get_truthy df "start" = Some s →
  ∃ r, build_where company (Some df) !! "date" = Some (Range r)
       ∧ gte r = Some s.
Proof.
  intros Hs. unfold build_where. case_decide as Hdf.
  - subst df. unfold get_truthy in Hs. by rewrite lookup_empty in Hs.
  - rewrite Hs. destruct (get_truthy df "end"); simplify_map_eq; eauto.
Qed.

Lemma build_where_end company df e :
  get_truthy df "end" = Some e →
  ∃ r, build_where company (Some df) !! "date" = Some (Range r)
       ∧ lte r = Some e.
Proof.
  intros He. unfold build_where. case_decide as Hdf.
  - subst df. unfold get_truthy in He. by rewrite lookup_empty in He.
  - rewrite He. destruct (get_truthy df "start"); simplify_map_eq; eauto.
Qed.

Lemma in_range_bounds r d :
  in_range r d = true →
  (∀ a, gte r = Some a → String.leb a d = true)
  ∧ (∀ b, lte r = Some b → String.leb d b = true).
Proof.
  unfold in_range. intros H. apply andb_true_iff in H as [H1 H2].
  split; intros x Hx; rewrite Hx in *; done.
Qed.

Lemma matches_build_where company df r :
  matches (build_where company df) r →
  row_metadata r !! "company" = Some (MStr company)
  ∧ date_in_filter df (row_metadata r).
Proof.
  intros Hm. split.
  - specialize (Hm _ _ (build_where_company company df)). simpl in Hm.
    destruct (row_metadata r !! "company") as [v|]; [|done].
    apply bool_decide_eq_true in Hm. by subst.
  - destruct df as [df|]; [|done]. split.
    + intros s Hs. destruct (build_where_start company df s Hs) as [rg [Hw Hg]].
      specialize (Hm _ _ Hw). simpl in Hm.
      destruct (row_metadata r !! "date") as [[d|n]|]; try done.
      exists d. split; [done|]. by apply (in_range_bounds rg d Hm).
    + intros e He. destruct (build_where_end company df e He) as [rg [Hw Hl]].
      specialize (Hm _ _ Hw). simpl in Hm.
      destruct (row_metadata r !! "date") as [[d|n]|]; try done.
      exists d. split; [done|]. by apply (in_range_bounds rg d Hm).
Qed.

Lemma query_hits coll q n w hits h :
  query distance coll q n w = Ok hits → h ∈ hits →
  ∃ r, r ∈ coll ∧ matches w r
       ∧ h = {| hit_row := r; hit_distance := distance q (row_embedding r) |}.
Proof.
  unfold query. destruct (n <=? 0); [done|]. intros [= <-] Hh.
  apply elem_of_take in Hh as [i [Hh _]].
  apply list_elem_of_lookup_2 in Hh.
  apply sort_by_elem, list_elem_of_fmap in Hh as [r [-> Hr]].
  apply list_elem_of_filter in Hr as [Hm Hr]. by exists r.
Qed.

Lemma search_company_origin db qe max thr df company c :
  c ∈ fst (search_company distance db qe max thr df company) →
  retrieved_from distance db qe df company c
  ∧ (thr <= similarity_score c)%Q.
Proof.
  unfold search_company. destruct (count _ =? 0); [by intros ?%elem_of_nil|].
  destruct (query _ _ _ _ _) as [hits|e] eqn:Hq; [|by intros ?%elem_of_nil].
  simpl. unfold process_results. intros Hc.
  apply list_elem_of_fmap in Hc as [h [-> Hh]].
  apply list_elem_of_filter in Hh as [Hthr Hh].
  destruct (query_hits _ _ _ _ _ _ Hq Hh) as [r [Hr [Hm ->]]].
  apply matches_build_where in Hm as [Hco Hdate].
  split; [by exists r|]. simpl. by apply Qle_bool_iff.
Qed.

Lemma search_company_refused db qe max thr df company :
  max <= 0 → fst (search_company distance db qe max thr df company) = [].
Proof.
  intros Hmax. unfold search_company. destruct (count _ =? 0); [done|].
  unfold query. destruct (Z.min (max * 2) 50 <=? 0) eqn:E; [done|]. lia.
Qed.

Lemma search_all_spec db qe max thr df companies :
  fst (search_all distance db qe max thr df companies)
  = flat_map (fun co => fst (search_company distance db qe max thr df co))
      companies.
Proof.
  unfold search_all.
  set (f := fun acc company => _).
  assert (∀ acc, fst (fold_left f companies acc)
                 = fst acc ++ flat_map
                     (fun co => fst (search_company distance db qe max thr df co))
                     companies) as H.
  { induction companies as [|co cos IH]; intros acc; simpl.
    - by rewrite app_nil_r.
    - rewrite IH. unfold f. simpl. by rewrite <- app_assoc. }
  apply (H ([], [])).
Qed.

Lemma higher_score_asym a b :
  higher_score a b = true → higher_score b a = false.
Proof.
  unfold higher_score. rewrite negb_true_iff, negb_false_iff.
  intros H. apply Qle_bool_iff.
  destruct (Qlt_le_dec (similarity_score b) (similarity_score a)) as [Hlt|Hle].
  - by apply Qlt_le_weak.
  - apply Qle_bool_iff in Hle. congruence.
Qed.

Lemma in_order_higher_score a b :
  in_order higher_score a b ↔ (similarity_score b <= similarity_score a)%Q.
Proof.
  unfold in_order, higher_score. rewrite negb_false_iff. apply Qle_bool_iff.
Qed.

#[local] Instance by_score_trans : Transitive by_score.
Proof. intros a b c Hab Hbc. unfold by_score in *. by eapply Qle_trans. Qed.

Lemma sort_by_score_sorted l :
  StronglySorted by_score (sort_by higher_score l).
Proof.
  apply Sorted_StronglySorted; [apply _|].
  eapply Sorted_weaken; [|apply sort_by_sorted, higher_score_asym].
  intros a b. apply in_order_higher_score.
Qed.


Lemma found_origin db svc w query cf max thr df c :
  c ∈ fst (search_similar_chunks distance model_loads model_encode db svc w
             query cf max thr df) →
  ∃ qe co,
    fst (encode_single_text model_loads model_encode svc query w) = Ok qe
    ∧ co ∈ companies_to_search cf
    ∧ retrieved_from distance db qe df co c
    ∧ (thr <= similarity_score c)%Q.
Proof.
  unfold search_similar_chunks.
  destruct (fst (encode_single_text _ _ _ _ _)) as [qe|e];
    [|by intros ?%elem_of_nil].
  destruct (search_all _ _ _ _ _ _ _) as [all records] eqn:Hall. simpl.
  intros Hc. destruct (slice_to_take (sort_by higher_score all) max) as [n Hn].
  rewrite Hn in Hc. apply elem_of_take in Hc as [i [Hc _]].
  apply list_elem_of_lookup_2, sort_by_elem in Hc.
  assert (all = fst (search_all distance db qe max thr df
                       (companies_to_search cf))) as -> by by rewrite Hall.
  rewrite search_all_spec in Hc.
  apply list_elem_of_In, in_flat_map in Hc as [co [Hco Hc]].
  apply list_elem_of_In in Hco, Hc.
  apply search_company_origin in Hc as [Hfrom Hthr]. by exists qe, co.
Qed.


End SearchFacts.


Section ScoreFacts.
Import Py VectorStore ChromaService.

Variable distance : list Q → list Q → Q.
Variable model_loads : bool.
Variable model_encode : string → string → embedding.

Lemma Q2R_one_minus d : Q2R (1 - d) = (1 - Q2R d)%R.
Proof. rewrite Q2R_minus. unfold Q2R at 1. simpl. lra. Qed.

(** C2, as the code has it. The score of every chunk returned is 1 minus
    the distance the vector store computes between the query embedding and
    the embedding stored with the chunk. It is the cosine similarity of
    the two exactly when that distance is 1 minus their cosine
    similarity. *)
Theorem similarity_score_from_distance (db : database) (svc : service)
    (w : world) (query : string) (company_filter : option (list string))
    (max_results : Z) (similarity_threshold : Q)
    (date_filter : option (gmap string string)) :
  Forall (fun c =>
    ∃ qe co r,
      fst (encode_single_text model_loads model_encode svc query w) = Ok qe
      ∧ co ∈ companies_to_search company_filter
      ∧ r ∈ get_or_create_collection db (get_collection_name co)
      ∧ content c = row_document r
      ∧ chunk_metadata c = row_metadata r
      ∧ similarity_score c = (1 - distance qe (row_embedding r))%Q
      ∧ (Q2R (similarity_score c)
           = compute_similarity (map Q2R qe) (map Q2R (row_embedding r))
         ↔ Q2R (distance qe (row_embedding r))
           = (1 - compute_similarity (map Q2R qe)
                    (map Q2R (row_embedding r)))%R))
    (fst (search_similar_chunks distance model_loads model_encode db svc w
            query company_filter max_results similarity_threshold
            date_filter)).
Proof.
  apply Forall_forall. intros c Hc.
  apply found_origin in Hc as [qe [co [Hqe [Hco [[r [Hr [_ [_ ->]]]] _]]]]].
  exists qe, co, r. simpl. repeat (split; [done|]).
  rewrite Q2R_one_minus. split; intros H; lra.
Qed.

End ScoreFacts.

Section ScoreExample.
Import Py VectorStore ChromaService Examples.

Lemma example_cosine :
  compute_similarity (map Q2R [1; 0]%Q) (map Q2R [3 # 5; 4 # 5]) = (3 / 5)%R.
Proof.
  unfold compute_similarity, norm, dot. simpl.
  replace (Q2R 1 * Q2R 1 + (Q2R 0 * Q2R 0 + 0))%R with 1%R
    by (unfold Q2R; simpl; lra).
  replace (Q2R (3 # 5) * Q2R (3 # 5) + (Q2R (4 # 5) * Q2R (4 # 5) + 0))%R
    with 1%R by (unfold Q2R; simpl; lra).
  rewrite sqrt_1.
  destruct (Req_dec_T 1 0) as [H|_]; [lra|].
  unfold Q2R. simpl. lra.
Qed.

(** C2 fails as stated: with the store's squared Euclidean distance, the
    query embedded as (1, 0) and the chunk stored with (3/5, 4/5), the
    chunk is returned with score 1/5, and the cosine similarity of the two
    vectors is 3/5. *)
Lemma similarity_score_not_cosine :
  fst (encode_single_text true example_encode example_service "revenue"
         example_world) = Ok [1; 0]%Q
  ∧ example_found
    = [make_result "AAPL"
         {| hit_row := example_row;
            hit_distance := squared_l2 [1; 0]%Q (row_embedding example_row) |}]
  ∧ compute_similarity (map Q2R [1; 0]%Q)
      (map Q2R (row_embedding example_row)) = (3 / 5)%R
  ∧ Forall (fun c => Q2R (similarity_score c) = (1 / 5)%R) example_found
  ∧ ¬ Forall (fun c =>
        Q2R (similarity_score c)
        = compute_similarity (map Q2R [1; 0]%Q)
            (map Q2R (row_embedding example_row)))
      example_found.
Proof.
  assert (example_found
          = [make_result "AAPL"
               {| hit_row := example_row;
                  hit_distance :=
                    squared_l2 [1; 0]%Q (row_embedding example_row) |}])
    as Hfound by by vm_compute.
  assert (Forall (fun c => Q2R (similarity_score c) = (1 / 5)%R) example_found)
    as Hscore.
  { rewrite Hfound. constructor; [|constructor]. simpl.
    rewrite Q2R_one_minus. unfold squared_l2. simpl.
    rewrite !Q2R_plus, !Q2R_mult, !Q2R_minus. unfold Q2R. simpl. lra. }
  split; [by vm_compute|]. split; [exact Hfound|].
  split; [exact example_cosine|]. split; [exact Hscore|].
  change (row_embedding example_row) with [3 # 5; 4 # 5].
  rewrite example_cosine. rewrite Hfound in *.
  intros H. apply Forall_inv in H. apply Forall_inv in Hscore.
  rewrite Hscore in H. lra.
Qed.

End ScoreExample.




Section DocumentFacts.
Import Py VectorStore ChromaService.

Variable model_loads : bool.
Variable model_encode : string → string → embedding.

Lemma filter_all {A} (P : A → Prop) `{∀ x, Decision (P x)} l :
  Forall P l → filter P l = l.
Proof.
  induction 1 as [|x l Hx Hl IH]; [done|].
  by rewrite filter_cons_True, IH.
Qed.

Lemma filter_none {A} (P : A → Prop) `{∀ x, Decision (P x)} l :
  Forall (fun x => ¬ P x) l → filter P l = [].
Proof.
  induction 1 as [|x l Hx Hl IH]; [done|].
  by rewrite filter_cons_False.
Qed.

Lemma matches_document_id document_id r :
  matches {[ "document_id" := Equals (MStr document_id) ]} r
  ↔ row_metadata r !! "document_id" = Some (MStr document_id).
Proof.
  unfold matches. rewrite map_Forall_singleton. simpl.
  destruct (row_metadata r !! "document_id") as [v|]; [|done].
  rewrite bool_decide_eq_true. split; congruence.
Qed.

Lemma add_fresh rows : ∀ coll,
  NoDup (map row_id rows) →
  Forall (fun r => row_id r ∉ map row_id coll) rows →
  fold_left add_one rows coll = coll ++ rows.
Proof.
  induction rows as [|r rows IH]; intros coll Hnd Hfresh; simpl.
  - by rewrite app_nil_r.
  - apply NoDup_cons in Hnd as [Hr Hnd].
    apply Forall_cons in Hfresh as [Hrc Hfresh].
    unfold add_one at 2. rewrite bool_decide_eq_false_2; [|done].
    rewrite IH; [by rewrite <- app_assoc|done|].
    apply Forall_forall. intros r' Hr'.
    rewrite map_app, elem_of_app. intros [Hin|Hin].
    + rewrite Forall_forall in Hfresh. by apply (Hfresh r').
    + simpl in Hin. apply list_elem_of_singleton in Hin.
      apply Hr. rewrite <- Hin. by apply list_elem_of_fmap_2.
Qed.

Lemma add_ok coll rows coll' :
  add coll rows = Ok coll' →
  rows ≠ [] ∧ coll' = fold_left add_one rows coll.
Proof. destruct rows; [done|]. by intros [= <-]. Qed.

Lemma chunk_rows_lookup company document_id chunks embeddings metadata i r :
  chunk_rows company document_id chunks embeddings metadata !! i = Some r →
  ∃ c e, chunks !! i = Some c ∧ embeddings !! i = Some e
    ∧ row_id r = document_id +:+ "_chunk_" +:+ pretty i
    ∧ row_document r = c
    ∧ row_metadata r !! "document_id" = Some (MStr document_id)
    ∧ row_metadata r !! "chunk_index" = Some (MInt (Z.of_nat i)).
Proof.
  unfold chunk_rows. rewrite list_lookup_imap.
  destruct (zip chunks embeddings !! i) as [[c e]|] eqn:Hz; [|done].
  intros [= <-]. apply lookup_zip_with_Some in Hz as [c' [e' [[= <- <-] [Hc He]]]].
  exists c, e. simpl. repeat split; try done; by simplify_map_eq.
Qed.

Lemma chunk_rows_ids company document_id chunks embeddings metadata :
  NoDup (map row_id
           (chunk_rows company document_id chunks embeddings metadata)).
Proof.
  apply NoDup_alt. intros i j x Hi Hj.
  rewrite list_lookup_fmap in Hi, Hj.
  destruct (chunk_rows _ _ _ _ _ !! i) as [ri|] eqn:Ei; [|done].
  destruct (chunk_rows _ _ _ _ _ !! j) as [rj|] eqn:Ej; [|done].
  apply chunk_rows_lookup in Ei as (?&?&_&_&Hidi&_).
  apply chunk_rows_lookup in Ej as (?&?&_&_&Hidj&_).
  simpl in Hi, Hj. injection Hi as <-. injection Hj as Hj.
  rewrite Hidi, Hidj in Hj.
  apply (inj (String.app document_id)) in Hj.
  apply (inj (String.app "_chunk_")) in Hj.
  by apply (inj pretty) in Hj.
Qed.

Lemma key_before_asym a b : key_before a b = true → key_before b a = false.
Proof.
  destruct a as [x|x], b as [y|y]; simpl; try done.
  - unfold String.ltb. rewrite (String.compare_antisym y x).
    by destruct (String.compare x y).
  - intros H. apply Z.ltb_lt in H. apply Z.ltb_ge. lia.
Qed.


Lemma indexed_sorted (chunks : list string) : ∀ k : nat,
  Sorted ascending
    (imap (fun i c => (c, MInt (Z.of_nat (k + i)))) chunks).
Proof.
  induction chunks as [|c chunks IH]; intros k; [constructor|].
  rewrite imap_cons. constructor.
  - erewrite imap_ext; [apply (IH (S k))|].
    intros i x _. simpl. do 3 f_equal. lia.
  - destruct chunks as [|c' chunks]; constructor.
    unfold ascending. simpl. apply Z.ltb_ge. lia.
Qed.

Lemma get_document_sorted db document_id company doc records :
  get_document_by_id db document_id company = (Some doc, records) →
  Sorted ascending (doc_chunks doc).
Proof.
  unfold get_document_by_id.
  destruct (get _ _) as [|first rest]; [done|].
  destruct (comparable _); [|done]. intros [= <- _].
  refine (sort_by_sorted (fun a b : string * meta_value => key_before a.2 b.2)
            _ (map (fun r => (row_document r,
                              default (MInt 0)
                                (row_metadata r !! "chunk_index")))
                   (first :: rest))).
  intros a b. apply key_before_asym.
Qed.

Lemma get_document_none db document_id company :
  Forall (fun r => row_metadata r !! "document_id" ≠ Some (MStr document_id))
    (get_or_create_collection db (get_collection_name company)) →
  get_document_by_id db document_id company = (None, []).
Proof.
  intros H. unfold get_document_by_id, get.
  rewrite filter_none; [done|].
  eapply Forall_impl; [exact H|]. intros r Hr. by rewrite matches_document_id.
Qed.

(** C10, as the code has it. When [store_document_chunks] stores a
    document that the company's collection did not hold (it returns
    [True], which it does for a non-empty chunk list only), chunk [i] is in
    the collection under
    the id [document_id + "_chunk_" + i] with [chunk_index] [i], and
    [get_document_by_id] with the same document id and company returns
    the document with chunk [i]'s content at position [i] under
    [chunk_index] [i]: all the chunks, in ascending index order. For a
    document id that no record of the collection carries, it returns
    [None]. *)
Theorem store_then_get_document (db : database) (svc : service) (w : world)
    (company document_id : string) (chunks : list string)
    (metadata : metadata) :
  (∀ db' records,
     absent document_id
       (get_or_create_collection db (get_collection_name company)) →
     store_document_chunks model_loads model_encode db svc w company
       document_id chunks metadata = (true, db', records) →
     chunks ≠ []
     ∧ (∀ i c, chunks !! i = Some c →
          ∃ r, r ∈ get_or_create_collection db' (get_collection_name company)
               ∧ row_id r = document_id +:+ "_chunk_" +:+ pretty i
               ∧ row_document r = c
               ∧ row_metadata r !! "chunk_index" = Some (MInt (Z.of_nat i)))
     ∧ ∃ doc,
         get_document_by_id db' document_id company = (Some doc, [])
         ∧ doc_document_id doc = document_id
         ∧ doc_company doc = company
         ∧ doc_chunks doc = imap (fun i c => (c, MInt (Z.of_nat i))) chunks
         ∧ Sorted ascending (doc_chunks doc))
  ∧ (Forall (fun r =>
               row_metadata r !! "document_id" ≠ Some (MStr document_id))
       (get_or_create_collection db (get_collection_name company)) →
     get_document_by_id db document_id company = (None, [])).
Proof.
  split; [|apply get_document_none].
  intros db' records Habs Hstore.
  unfold store_document_chunks in Hstore.
  destruct (fst (encode_texts _ _ _ _ _)) as [embeddings|e] eqn:Henc;
    [|done].
  set (coll := get_or_create_collection db (get_collection_name company))
    in *.
  set (rows := chunk_rows company document_id chunks embeddings metadata)
    in *.
  assert (length embeddings = length chunks) as Hlen.
  { unfold encode_texts in Henc. destruct chunks; [by inversion Henc|].
    destruct model_loads; [|done]. simpl in Henc. injection Henc as <-.
    simpl. f_equal. apply length_map. }
  assert (length rows = length chunks) as Hrows.
  { unfold rows, chunk_rows. rewrite length_imap, length_zip_with. lia. }
  destruct (add coll rows) as [coll'|e] eqn:Hadd; [|done].
  injection Hstore as <- _.
  apply add_ok in Hadd as [Hne ->].
  assert (chunks ≠ []) as Hchunks.
  { intros ->. apply Hne. by apply nil_length_inv. }
  split; [done|].
  assert (fold_left add_one rows coll = coll ++ rows) as ->.
  { apply add_fresh; [apply chunk_rows_ids|].
    apply Forall_forall. intros r Hr Hin.
    apply list_elem_of_lookup in Hr as [i Hi].
    apply chunk_rows_lookup in Hi as (?&?&_&_&Hid&_).
    apply list_elem_of_fmap in Hin as [r' [Hid' Hr']].
    unfold absent in Habs. rewrite Forall_forall in Habs.
    destruct (Habs r' Hr') as [_ Hno]. apply (Hno i). congruence. }
  split.
  { intros i c Hc.
    destruct (lookup_lt_is_Some_2 rows i) as [r Hr].
    { rewrite Hrows. by eapply lookup_lt_Some. }
    exists r. unfold get_or_create_collection. rewrite lookup_insert_eq. simpl.
    split; [apply elem_of_app; right; by eapply list_elem_of_lookup_2|].
    apply chunk_rows_lookup in Hr as (c'&e&Hc'&_&Hid&Hdoc&_&Hidx).
    rewrite Hc in Hc'. injection Hc' as <-. done. }
  assert (get (coll ++ rows) {[ "document_id" := Equals (MStr document_id) ]}
          = rows) as Hget.
  { unfold get. rewrite filter_app, filter_none, filter_all; [done| |].
    - apply Forall_forall. intros r Hr. apply matches_document_id.
      apply list_elem_of_lookup in Hr as [i Hi].
      by apply chunk_rows_lookup in Hi as (?&?&_&_&_&_&Hd&_).
    - eapply Forall_impl; [exact Habs|]. intros r [Hr _].
      by rewrite matches_document_id. }
  assert (map (fun r => (row_document r,
                         default (MInt 0) (row_metadata r !! "chunk_index")))
              rows
          = imap (fun i c => (c, MInt (Z.of_nat i))) chunks) as Hchunk_list.
  { apply list_eq. intros i.
    rewrite list_lookup_fmap, list_lookup_imap.
    destruct (rows !! i) as [r|] eqn:Hi.
    - apply chunk_rows_lookup in Hi as (c&e&Hc&_&_&Hdoc&_&Hidx).
      rewrite Hc. simpl. by rewrite Hdoc, Hidx.
    - apply lookup_ge_None in Hi. rewrite Hrows in Hi.
      apply lookup_ge_None in Hi. by rewrite Hi. }
  unfold get_document_by_id, get_or_create_collection.
  rewrite lookup_insert_eq. simpl. fold coll. rewrite Hget.
  destruct rows as [|first rest] eqn:Er; [done|]. rewrite <- Er in *.
  rewrite Hchunk_list.
  assert (comparable (map snd (imap (fun i c => (c, MInt (Z.of_nat i))) chunks))
          = true) as ->.
  { unfold comparable. apply orb_true_iff. left. apply forallb_forall.
    intros k Hk. apply in_map_iff in Hk as [[c v] [<- Hk]].
    apply list_elem_of_In, elem_of_lookup_imap in Hk as [i [x [[= _ ->] _]]].
    done. }
  assert (Sorted ascending (imap (fun i c => (c, MInt (Z.of_nat i))) chunks))
    as Hsorted by apply (indexed_sorted chunks 0).
  eexists. split; [reflexivity|]. simpl.
  rewrite (sort_by_fixed (fun a b => key_before a.2 b.2)); [done|].
  exact Hsorted.
Qed.

End DocumentFacts.




Section RoundFacts.
Import Py Models.



End RoundFacts.

Section PipelineFacts.
Import Py VectorStore Models ChromaService RAGPipeline.

Variable settings : Settings.
Variable search_similar_chunks :
  string → option (list string) → Z → Q → option (gmap string string) →
  result (list chunk).
Variable generate_response :
  string → list chunk → Q → result (option string).
Variable _estimate_total_chunks_searched : option (list string) → Z.
Variable _extract_quarter : string → option string.
Variable elapsed : string.

Abbreviation run :=
  (process_query settings search_similar_chunks generate_response
     _estimate_total_chunks_searched _extract_quarter elapsed).
Abbreviation to_source := (source_document _extract_quarter).



Lemma format_sources_fold chunks : ∀ acc,
  fst (fold_left (format_body _extract_quarter) chunks acc)
  = fst acc
    ++ omap (fun c => match to_source c with
                      | Ok s => Some s
                      | Raise _ => None
                      end) chunks.
Proof.
  induction chunks as [|c chunks IH]; intros acc; simpl.
  - by rewrite app_nil_r.
  - rewrite IH. unfold format_body.
    destruct (to_source c); simpl; [|done]. by rewrite <- app_assoc.
Qed.




(** C9. The first call of [process_query] is the retrieval, with a
    threshold that is the request's when the request gives one other than
    zero, and the configured [SIMILARITY_THRESHOLD] when it gives none or
    zero. Every later call is a generation, with a temperature determined
    in the same way from the request and [TEMPERATURE]; one follows
    whenever retrieval returns. Both settings default to 0.7. *)
Theorem process_query_defaults (request : QueryRequest) :
  ∃ question company_filter max_results threshold date_filter rest,
    snd (fst (run request))
    = SearchSimilarChunks question company_filter max_results threshold
        date_filter :: rest
    ∧ (∀ v, similarity_threshold request = Some v → ¬ (v == 0)%Q →
            threshold = v)
    ∧ (∀ v, similarity_threshold request = Some v → (v == 0)%Q →
            threshold = SIMILARITY_THRESHOLD settings)
    ∧ (similarity_threshold request = None →
       threshold = SIMILARITY_THRESHOLD settings)
    ∧ Forall (fun c =>
         match c with
         | SearchSimilarChunks _ _ _ _ _ => False
         | GenerateResponse _ _ t =>
             (∀ v, Models.temperature request = Some v → ¬ (v == 0)%Q → t = v)
             ∧ (∀ v, Models.temperature request = Some v → (v == 0)%Q →
                     t = TEMPERATURE settings)
             ∧ (Models.temperature request = None → t = TEMPERATURE settings)
         end) rest
    ∧ (∀ chunks,
         search_similar_chunks question company_filter max_results threshold
           date_filter = Ok chunks →
         ∃ t, rest = [GenerateResponse question chunks t])
    ∧ SIMILARITY_THRESHOLD default_settings = 7 # 10
    ∧ TEMPERATURE default_settings = 7 # 10.
Proof.
  assert (∀ x d,
            (∀ v, x = Some v → ¬ (v == 0)%Q → float_or x d = v)
            ∧ (∀ v, x = Some v → (v == 0)%Q → float_or x d = d)
            ∧ (x = None → float_or x d = d)) as Hor.
  { intros x d. unfold float_or. repeat split.
    - intros v -> Hv. destruct (Qeq_bool v 0) eqn:E; [|done].
      by apply Qeq_bool_iff in E.
    - intros v -> Hv. apply Qeq_bool_iff in Hv. by rewrite Hv.
    - by intros ->. }
  unfold process_query.
  set (threshold := float_or (similarity_threshold request) _).
  set (temperature := float_or (Models.temperature request) _).
  eexists (question request), _, (max_results request), threshold, _.
  destruct (search_similar_chunks _ _ _ _ _) as [chunks|e] eqn:Hs.
  - destruct (generate_response _ _ _) as [generated|e] eqn:Hg.
    + destruct (_format_sources _ _) as [srcs records]. simpl.
      eexists. split; [reflexivity|].
      repeat (split; [apply Hor|]).
      split; [repeat constructor; apply Hor|].
      split; [|done]. intros chunks' Hc. rewrite Hs in Hc.
      injection Hc as <-. by eexists.
    + simpl. eexists. split; [reflexivity|].
      repeat (split; [apply Hor|]).
      split; [repeat constructor; apply Hor|].
      split; [|done]. intros chunks' Hc. rewrite Hs in Hc.
      injection Hc as <-. by eexists.
  - simpl. eexists. split; [reflexivity|].
    repeat (split; [apply Hor|]).
    split; [constructor|]. split; [|done]. intros chunks' Hc.
    by rewrite Hs in Hc.
Qed.

(** An exception raised by either service ends in an ordinary response
    that carries the message and no source. *)
Lemma process_query_catches (request : QueryRequest) (e : exn) :
  let threshold :=
    float_or (similarity_threshold request) (SIMILARITY_THRESHOLD settings) in
  let temperature :=
    float_or (Models.temperature request) (TEMPERATURE settings) in
  let company_filter := company_values (company_filter request) in
  let date_filter := build_date_filter <$> date_range request in
  search_similar_chunks (question request) company_filter
    (max_results request) threshold date_filter = Raise e
  ∨ (∃ chunks,
       search_similar_chunks (question request) company_filter
         (max_results request) threshold date_filter = Ok chunks
       ∧ generate_response (question request) chunks temperature = Raise e) →
  reports_failure e (run request).
Proof.
  intros threshold temperature company_filter date_filter H.
  unfold process_query.
  fold threshold temperature company_filter date_filter.
  destruct H as [He|[chunks [Hs Hg]]].
  - by rewrite He.
  - by rewrite Hs, Hg.
Qed.

End PipelineFacts.

Section RetrievedChunks.
Import Py VectorStore Models ChromaService RAGPipeline.

Lemma squared_l2_nonneg a b : (0 <= squared_l2 a b)%Q.
Proof.
  unfold squared_l2. revert b.
  induction a as [|x a IH]; intros [|y b]; simpl; try done.
  specialize (IH b).
  assert (0 <= (x - y) * (x - y))%Q as Hsq.
  { destruct (x - y)%Q as [n d]. unfold Qle, Qmult. simpl. nia. }
  replace 0%Q with (0 + 0)%Q by done. by apply Qplus_le_compat.
Qed.

(** A valid request is searched with a threshold that is not negative,
    when the configured one is not. *)
Lemma retrieval_threshold_nonneg (settings : Settings) (r : QueryRequest) :
  valid_query_request r → (0 <= SIMILARITY_THRESHOLD settings)%Q →
  (0 <= float_or (similarity_threshold r) (SIMILARITY_THRESHOLD settings))%Q.
Proof.
  intros (_ & _ & Hthr & _) Hdefault. unfold float_or.
  destruct (similarity_threshold r) as [v|]; [|done].
  destruct (Qeq_bool v 0); [done|]. by destruct Hthr.
Qed.

(** The chunks the Chroma service retrieves are well formed when the
    store's distance is never negative, the threshold is not negative and
    the records carry metadata of the types the ingestion writes. *)
Lemma retrieved_chunks_well_formed distance model_loads model_encode
    (db : database) (svc : service) (w : world) (query : string)
    (company_filter : option (list string)) (max_results : Z)
    (similarity_threshold : Q) (date_filter : option (gmap string string)) :
  (∀ a b, (0 <= distance a b)%Q) →
  (0 <= similarity_threshold)%Q →
  (∀ name r, r ∈ get_or_create_collection db name →
             typed_metadata (row_metadata r)) →
  Forall well_formed
    (fst (search_similar_chunks distance model_loads model_encode db svc w
            query company_filter max_results similarity_threshold
            date_filter)).
Proof.
  intros Hdist Hthr Htyped. apply Forall_forall. intros c Hc.
  apply found_origin in Hc as (qe & co & _ & _ & (r & Hr & _ & _ & ->) & Hscore).
  destruct (Htyped _ _ Hr) as (Hdate & Hid & Hidx).
  unfold well_formed. simpl in *. repeat split.
  - destruct (row_metadata r !! "date") as [v|]; simpl; [|by eexists].
    by apply Hdate.
  - destruct (row_metadata r !! "document_id") as [v|]; simpl; [|by eexists].
    by apply Hid.
  - destruct (row_metadata r !! "chunk_index") as [v|]; simpl; [|by eexists].
    by apply Hidx.
  - by eapply Qle_trans.
  - specialize (Hdist qe (row_embedding r)).
    unfold Qle, Qminus, Qplus, Qopp in *. simpl in *. nia.
Qed.

End RetrievedChunks.




Section ApiFacts.
Import Py VectorStore Models ChromaService RAGPipeline Api.



Lemma reraise_ends {A} logged detail (e : exn) :
  ends_as (reraise (A := A) logged detail e) (Raise e) logged detail.
Proof. by destruct e. Qed.

(** C3, as the code has it. In the query and search handlers an exception
    that is not an [HTTPException] is caught, logged once at error level
    and answered with HTTP 500; an [HTTPException] leaves the handler as it
    was raised and is not logged. The handlers raise such exceptions
    themselves: 503 when the embedding service is unavailable, 400 for a
    blank question or query, and 409 from [POST /embeddings/create]
    exactly when the shared status is "processing", which otherwise
    answers 200. The RAG
    pipeline catches an exception of either of its services itself, logs
    it, and returns an ordinary response (status 200) whose answer carries
    the message and whose sources are empty. *)
Theorem handlers_report_errors :
  (∀ is_available process_query request,
     let outcome := process_rag_query is_available process_query request in
     (is_available = false → outcome = (Raise unavailable, []))
     ∧ (is_available = true → blank (question request) = true →
        outcome = (Raise (HTTPException 400 "Question cannot be empty"), []))
     ∧ (is_available = true → blank (question request) = false →
        ends_as outcome (process_query request)
          "Failed to process RAG query: "
          "Internal server error while processing query: "))
  ∧ (∀ is_available search elapsed request,
     let outcome :=
       vector_similarity_search is_available search elapsed request in
     let searched :=
       search (search_query request)
         (company_values (search_company_filter request))
         (search_max_results request)
         (float_or (search_similarity_threshold request) (1 # 2)) None in
     (is_available = false → outcome = (Raise unavailable, []))
     ∧ (is_available = true → blank (search_query request) = true →
        outcome = (Raise (HTTPException 400 "Query cannot be empty"), []))
     ∧ (is_available = true → blank (search_query request) = false →
        (∀ e, searched = Raise e →
              ends_as outcome (Raise e)
                "Failed to perform vector search: "
                "Internal server error during search: ")
        ∧ (∀ chunks e, searched = Ok chunks →
              format_results chunks = Raise e →
              ends_as outcome (Raise e)
                "Failed to perform vector search: "
                "Internal server error during search: ")
        ∧ (∀ chunks found, searched = Ok chunks →
              format_results chunks = Ok found →
              status_code (fst outcome) = 200 ∧ snd outcome = [])))
  ∧ (∀ request s,
     let outcome := create_embeddings request s in
     (status (shared_status s) = "processing" →
      outcome
      = (Raise (HTTPException 409 "Embedding generation is already in progress"),
         s, []))
     ∧ (status (shared_status s) ≠ "processing" →
        status_code (fst (fst outcome)) = 200 ∧ snd outcome = []))
  ∧ (∀ settings search generate estimate extract elapsed request e,
     search (question request) (company_values (company_filter request))
       (max_results request)
       (float_or (similarity_threshold request) (SIMILARITY_THRESHOLD settings))
       (build_date_filter <$> date_range request) = Raise e
     ∨ (∃ chunks,
          search (question request) (company_values (company_filter request))
            (max_results request)
            (float_or (similarity_threshold request)
               (SIMILARITY_THRESHOLD settings))
            (build_date_filter <$> date_range request) = Ok chunks
          ∧ generate (question request) chunks
              (float_or (temperature request) (TEMPERATURE settings))
            = Raise e) →
     reports_failure e
       (process_query settings search generate estimate extract elapsed
          request))
  ∧ status_code (Raise (A := QueryResponse) unavailable) = 503.
Proof.
  split; [|split; [|split; [|split]]].
  - intros is_available pq request outcome. unfold outcome, process_rag_query.
    split; [by intros ->|]. split; [by intros -> ->|].
    intros -> ->. simpl. destruct (pq request) as [r|e]; [done|].
    apply reraise_ends.
  - intros is_available search elapsed request outcome searched.
    unfold outcome, vector_similarity_search. fold searched.
    split; [by intros ->|]. split; [by intros -> ->|].
    intros -> ->. simpl. split; [|split].
    + intros e ->. apply reraise_ends.
    + intros chunks e -> ->. apply reraise_ends.
    + intros chunks found -> ->. done.
  - intros request s outcome. unfold outcome, create_embeddings.
    destruct (String.eqb_spec (status (shared_status s)) "processing") as [E|E];
      by split.
  - intros settings search generate estimate extract elapsed request e.
    apply process_query_catches.
  - done.
Qed.

End ApiFacts.

Section ApiExamples.
Import Py VectorStore Models ChromaService RAGPipeline Api Examples.

(** C3 fails as stated. A blank question is answered with 400 and nothing
    is logged; an unavailable embedding service with 503; a request to
    create embeddings during a generation with 409. When the pipeline's
    search raises, the client receives status 200 with the error message as
    the answer; when the model cannot be loaded, the search handler
    answers 200 with no result. *)
Lemma errors_not_always_500 :
  process_rag_query true failing_pipeline blank_request
  = (Raise (HTTPException 400 "Question cannot be empty"), [])
  ∧ status_code (fst (process_rag_query false failing_pipeline example_request))
    = 503
  ∧ status_code
      (fst (fst (create_embeddings example_embedding_request processing_server)))
    = 409
  ∧ (∃ response,
       process_rag_query true failing_pipeline example_request
       = (Ok response, [])
       ∧ answer response
         = "An error occurred while processing your query: connection refused"
       ∧ sources response = [])
  ∧ (∃ response,
       vector_similarity_search true unloaded_search "0.01s"
         example_search_request
       = (Ok response, [])
       ∧ results response = []).
Proof.
  split; [by vm_compute|]. split; [by vm_compute|]. split; [by vm_compute|].
  split; eexists; (split; [by vm_compute|done]).
Qed.


End ApiExamples.

(* ===================================================================== *)
(** ** The properties on the concrete data                               *)
(* ===================================================================== *)

Section OnExamples.
Import Py VectorStore Models ChromaService RAGPipeline Api Examples.

(** The cache of [cached_world] answers "alpha" and misses "beta": the
    encoder is called on "beta" alone, and the result is that of encoding
    both. *)
Lemma encode_with_cache_example :
  (∀ t e, t ∈ ["alpha"; "beta"]%string →
          load_embedding_from_cache example_key example_service t cached_world
          = Some e →
          e = length_encode (model_name example_service) t)
  ∧ ∃ w2,
      encode_with_cache example_key true length_encode example_service
        ["alpha"; "beta"]%string true cached_world
      = (Ok [Some [5 # 1]; Some [4 # 1]], w2)
      ∧ encode_calls w2 = [["beta"%string]].
Proof.
  assert (∀ t e, t ∈ ["alpha"; "beta"]%string →
            load_embedding_from_cache example_key example_service t cached_world
            = Some e →
            e = length_encode (model_name example_service) t) as Hcache.
  { intros t e Ht Hload.
    apply elem_of_cons in Ht as [->|Ht].
    - vm_compute in Hload. injection Hload as <-. reflexivity.
    - apply list_elem_of_singleton in Ht as ->. vm_compute in Hload.
      discriminate Hload. }
  split; [exact Hcache|].
  exact (encode_with_cache_refines example_key true length_encode
           example_service ["alpha"; "beta"]%string cached_world
           {| files := files cached_world;
              encode_calls := [["alpha"; "beta"]%string] |}
           [[5 # 1]; [4 # 1]] Hcache eq_refl).
Defined.

(** Saving "beta" into an empty cache leaves "alpha" unanswered. *)
Lemma cache_round_trip_example :
  load_embedding_from_cache example_key example_service "alpha"
    (run_saves example_key {| files := ∅; encode_calls := [] |}
       [(example_service, "beta"%string, [4 # 1])])
  = None.
Proof.
  destruct (cache_round_trip example_key example_service "alpha" [5 # 1]
              example_world) as (_ & _ & Hnever & _).
  apply (Hnever [(example_service, "beta"%string, [4 # 1])] []).
  repeat constructor. vm_compute. discriminate.
Defined.

(** Storing the two chunks of [example_chunks] in an empty database and
    reading the document back. *)
Lemma store_then_get_example :
  let stored :=
    store_document_chunks true example_encode ∅ example_service example_world
      "AAPL" "aapl_2020-Jan-28-AAPL" example_chunks example_metadata in
  fst (fst stored) = true
  ∧ ∃ doc,
      get_document_by_id (snd (fst stored)) "aapl_2020-Jan-28-AAPL" "AAPL"
      = (Some doc, [])
      ∧ doc_chunks doc
        = [("Revenue grew"%string, MInt 0);
           ("Margins were stable"%string, MInt 1)].
Proof.
  intros stored. split; [reflexivity|].
  destruct (store_then_get_document true example_encode ∅ example_service
              example_world "AAPL" "aapl_2020-Jan-28-AAPL" example_chunks
              example_metadata) as [Hstore _].
  destruct (Hstore (snd (fst stored)) (snd stored))
    as (_ & _ & doc & Hget & _ & _ & Hchunks & _).
  - constructor.
  - reflexivity.
  - exists doc. split; [exact Hget|exact Hchunks].
Defined.

(** C10 fails as stated: a document stored a second time. The call
    returns [True] as the first did, and [get_document_by_id] returns the
    two chunks stored first, not the chunk stored last. *)
Lemma store_again_then_get :
  fst (fst stored_again) = true
  ∧ ∃ doc,
      get_document_by_id (snd (fst stored_again)) "aapl_2020-Jan-28-AAPL" "AAPL"
      = (Some doc, [])
      ∧ doc_chunks doc
        = [("Revenue grew"%string, MInt 0);
           ("Margins were stable"%string, MInt 1)].
Proof.
  split; [by vm_compute|].
  eexists. split; [by vm_compute|]. reflexivity.
Qed.


(** A requested threshold and temperature of zero are replaced by the
    configured 0.7. *)
Lemma process_query_defaults_example :
  ∃ question company_filter max_results date_filter sources,
    snd (fst (process_query default_settings example_search example_generate
                (fun _ => 1) (fun _ => None) "0.01s" zero_request))
    = [SearchSimilarChunks question company_filter max_results (7 # 10)
         date_filter;
       GenerateResponse question sources (7 # 10)].
Proof.
  destruct (process_query_defaults default_settings example_search
              example_generate (fun _ => 1) (fun _ => None) "0.01s"
              zero_request)
    as (q & cf & m & thr & df & rest & Hcalls & _ & Hzero & _ & Hrest & Hgen & _).
  destruct (Hgen _ eq_refl) as [t Ht]. subst rest.
  apply Forall_inv in Hrest as (_ & Htemp & _).
  rewrite (Hzero 0%Q eq_refl ltac:(reflexivity)) in Hcalls.
  rewrite (Htemp 0%Q eq_refl ltac:(reflexivity)) in Hcalls.
  eexists q, cf, m, df, _. exact Hcalls.
Defined.

End OnExamples.

(* ===================================================================== *)
(** ** Further properties *)
(* ===================================================================== *)

Section ClearFacts.
Import Py EmbeddingService Files CacheMaintenance.

Lemma substring_all t : String.substring 0 (String.length t) t = t.
Proof. induction t as [|b t IH]; simpl; [done|]. by rewrite IH. Qed.

Lemma substring_app_r s t :
  String.substring (String.length s) (String.length t) (s +:+ t) = t.
Proof.
  induction s as [|a s IH]; simpl; [apply substring_all|exact IH].
Qed.

Lemma ends_with_app s suffix : ends_with suffix (s +:+ suffix) = true.
Proof.
  unfold ends_with. rewrite string_app_length.
  apply andb_true_iff. split; [apply Nat.leb_le; lia|].
  replace (String.length s + String.length suffix - String.length suffix)%nat
    with (String.length s) by lia.
  rewrite substring_app_r. apply String.eqb_refl.
Qed.

Variable md5_hexdigest : string → string.
Variable model_loads : bool.
Variable model_encode : string → string → embedding.
Variable st_size : cache_entry → Z.

Abbreviation load := (load_embedding_from_cache md5_hexdigest).
Abbreviation missed := (EmbeddingService.missed md5_hexdigest).

Lemma cache_file_path svc text :
  cache_file svc (_get_cache_path svc (_get_cache_key md5_hexdigest text)) = true.
Proof.
  unfold cache_file, _get_cache_path. simpl.
  rewrite bool_decide_eq_true_2 by done. apply ends_with_app.
Qed.

Lemma load_cleared svc text w :
  load svc text (snd (clear_cache svc w)) = None.
Proof.
  unfold load_embedding_from_cache, clear_cache. simpl.
  rewrite map_lookup_filter_None_2; [done|]. right. intros e _. simpl.
  by rewrite cache_file_path.
Qed.

Lemma missed_all svc w texts :
  (∀ t, t ∈ texts → load svc t w = None) → missed svc w texts = texts.
Proof.
  intros H. unfold EmbeddingService.missed.
  induction texts as [|t texts IH]; [done|].
  rewrite filter_cons_True by (apply H; left).
  f_equal. apply IH. intros t' Ht'. apply H. by right.
Qed.

Abbreviation save := (save_embedding_to_cache md5_hexdigest).
Abbreviation missed_from := (EmbeddingService.missed_from md5_hexdigest).
Abbreviation saves_of svc enc texts :=
  (map (fun t : string => (svc, t, enc t)) texts).

Lemma fill_loop_world svc indices items : ∀ k rest embs w,
  drop k indices = rest → length rest = length items →
  Forall (fun i => (i < length embs)%nat) rest →
  fold_left (fill_body md5_hexdigest svc indices)
    (zip (seq k (length items)) items) (Ok embs, w)
  = (Ok (fill rest (map snd items) embs),
     run_saves md5_hexdigest w (map (fun it => (svc, it.1, it.2)) items)).
Proof.
  induction items as [|[t e] items IH]; intros k rest embs w Hdrop Hlen Hlt.
  - by destruct rest.
  - destruct rest as [|i rest]; [done|].
    apply Forall_cons in Hlt as [Hi Hlt].
    assert (indices !! k = Some i) as Hk.
    { rewrite <- (Nat.add_0_r k), <- lookup_drop, Hdrop. done. }
    cbn [length seq zip zip_with fold_left fill_body]. rewrite Hk.
    rewrite decide_True; [|done].
    rewrite (IH (S k) rest).
    + done.
    + rewrite (drop_S _ _ _ Hk) in Hdrop. by injection Hdrop.
    + simpl in Hlen. lia.
    + by rewrite length_insert.
Qed.

(** What [encode_with_cache(texts, use_cache=True)] does, in one
    equation. *)
Lemma encode_with_cache_cases svc texts w :
  encode_with_cache md5_hexdigest model_loads model_encode svc texts true w
  = match missed svc w texts with
    | [] => (Ok (map (fun t => load svc t w) texts), w)
    | ms =>
        if model_loads then
          (Ok (map (fun t => Some (default (model_encode (model_name svc) t)
                                     (load svc t w))) texts),
           run_saves md5_hexdigest
             {| files := files w; encode_calls := encode_calls w ++ [ms] |}
             (saves_of svc (model_encode (model_name svc)) ms))
        else (Raise (Exception "Failed to load embedding model"), w)
    end.
Proof.
  unfold encode_with_cache, enumerate. cbn [negb].
  rewrite !scan_spec. cbn [embeddings texts_to_encode indices_to_encode app].
  destruct (missed svc w texts) as [|m ms] eqn:Hm; [done|].
  unfold encode_texts. destruct model_loads; [|done].
  set (enc := model_encode (model_name svc)).
  set (w' := {| files := files w; encode_calls := encode_calls w ++ [m :: ms] |}).
  rewrite (fill_loop_world svc (missed_from svc w 0 texts)
             (zip (m :: ms) (map enc (m :: ms)))
             0%nat (missed_from svc w 0 texts)
             (map (fun t => load svc t w) texts) w').
  - f_equal.
    + f_equal. rewrite snd_zip by (by rewrite length_map).
      rewrite <- Hm. apply (fill_missed md5_hexdigest svc w enc texts []).
    + f_equal. clear. induction (m :: ms) as [|t ts IH]; [done|].
      simpl. by rewrite IH.
  - done.
  - rewrite length_zip_with, missed_from_length, Hm, length_map. lia.
  - rewrite length_map. apply (missed_from_bound md5_hexdigest svc w texts 0).
Qed.

Lemma run_saves_calls saves : ∀ w,
  encode_calls (run_saves md5_hexdigest w saves) = encode_calls w.
Proof. induction saves as [|s saves IH]; intros w; [done|]. simpl. by rewrite IH. Qed.

(** X1. After [clear_cache] no text is answered from the cache of that
    service, the number returned is the number of files removed, the
    files that are not cache files of the service are kept, and
    [get_cache_info] reports an empty cache. A following
    [encode_with_cache] hands every text to the model. *)
Theorem clear_cache_empties (svc : service) (w : world) :
  let n := fst (clear_cache svc w) in
  let w' := snd (clear_cache svc w) in
  (∀ text, load svc text w' = None)
  ∧ n = Z.of_nat (size (files w)) - Z.of_nat (size (files w'))
  ∧ n = cached_embeddings (get_cache_info st_size svc w)
  ∧ (∀ p, cache_file svc p = false → files w' !! p = files w !! p)
  ∧ cached_embeddings (get_cache_info st_size svc w') = 0
  ∧ (cache_size_mb (get_cache_info st_size svc w') == 0)%Q
  ∧ encode_calls w' = encode_calls w
  ∧ (∀ texts, texts ≠ [] → model_loads = true →
       ∃ w2,
         encode_with_cache md5_hexdigest model_loads model_encode svc texts
           true w'
         = (Ok (map (fun t => Some (model_encode (model_name svc) t)) texts),
            w2)
         ∧ encode_calls w2 = encode_calls w ++ [texts]).
Proof.
  intros n w'.
  assert (cache_files svc w' = ∅) as Hnone.
  { unfold cache_files, w', clear_cache. simpl.
    apply map_empty. intros p. apply map_lookup_filter_None. right.
    intros e He. apply map_lookup_filter_Some in He as [_ He]. simpl in *.
    congruence. }
  split; [intros text; apply load_cleared|].
  split.
  { unfold n, w', clear_cache, cache_files. simpl.
    set (P := fun kv : path * cache_entry => cache_file svc kv.1 = true).
    assert (size (files w)
            = (size (filter P (files w))
               + size (filter (fun kv => ¬ P kv) (files w)))%nat) as Hsz.
    { rewrite <- (map_filter_union_complement P (files w)) at 1.
      apply map_size_disj_union, map_disjoint_filter_complement. }
    assert (filter (fun kv => ¬ P kv) (files w)
            = filter (fun kv : path * cache_entry => cache_file svc kv.1 = false)
                (files w)) as E.
    { apply map_filter_ext. intros p e _. unfold P. simpl.
      destruct (cache_file svc p); naive_solver. }
    rewrite E in Hsz. lia. }
  split.
  { unfold n, clear_cache, get_cache_info. simpl.
    by rewrite length_map_to_list. }
  split.
  { intros p Hp. unfold w', clear_cache. simpl.
    destruct (files w !! p) as [e|] eqn:E.
    - by apply map_lookup_filter_Some.
    - apply map_lookup_filter_None. by left. }
  split.
  { unfold get_cache_info. simpl. rewrite Hnone. by rewrite map_to_list_empty. }
  split.
  { unfold get_cache_info. simpl. rewrite Hnone, map_to_list_empty. done. }
  split; [done|].
  intros texts Hne Hloads.
  rewrite encode_with_cache_cases, Hloads.
  rewrite missed_all by (intros t _; apply load_cleared).
  destruct texts as [|t0 ts]; [done|].
  eexists. split.
  - do 2 f_equal. apply map_ext. intros t. unfold w'. by rewrite load_cleared.
  - by rewrite run_saves_calls.
Qed.

Lemma missed_none svc w texts :
  (∀ t, t ∈ texts → load svc t w ≠ None) → missed svc w texts = [].
Proof.
  intros H. unfold EmbeddingService.missed.
  induction texts as [|t texts IH]; [done|].
  rewrite filter_cons_False by (apply H; left).
  apply IH. intros t' Ht'. apply H. by right.
Qed.

Lemma missed_elem svc w texts t :
  t ∈ missed svc w texts ↔ t ∈ texts ∧ load svc t w = None.
Proof. unfold EmbeddingService.missed. rewrite list_elem_of_filter. tauto. Qed.

(** X2. When the cache answers every text, [encode_with_cache] returns the
    cached vectors and neither loads nor calls the model, so that it
    succeeds even when the model cannot be loaded. When some text misses
    and the model cannot be loaded, it raises and the cache is as
    before. *)
Theorem encode_with_cache_without_model (svc : service) (texts : list string)
    (w : world) :
  let run :=
    encode_with_cache md5_hexdigest model_loads model_encode svc texts true w in
  ((∀ t, t ∈ texts → load svc t w ≠ None) →
   run = (Ok (map (fun t => load svc t w) texts), w))
  ∧ (model_loads = false →
     ∀ t, t ∈ texts → load svc t w = None →
       is_ok (fst run) = false ∧ snd run = w).
Proof.
  intros run. unfold run. rewrite encode_with_cache_cases. split.
  - intros Hall. by rewrite missed_none.
  - intros -> t Ht Hmiss.
    destruct (missed svc w texts) as [|m ms] eqn:Hm; [|done].
    assert (t ∈ missed svc w texts) as Hin by by apply missed_elem.
    rewrite Hm in Hin. by apply elem_of_nil in Hin.
Qed.

Lemma cache_path_inj svc t t' :
  _get_cache_path svc (_get_cache_key md5_hexdigest t')
  = _get_cache_path svc (_get_cache_key md5_hexdigest t) →
  md5_hexdigest t' = md5_hexdigest t.
Proof.
  unfold _get_cache_path, _get_cache_key. intros [= E].
  by apply string_app_inj_r in E.
Qed.

Lemma load_run_saves_other svc enc ts t w :
  (∀ t', t' ∈ ts → md5_hexdigest t' ≠ md5_hexdigest t) →
  load svc t (run_saves md5_hexdigest w (saves_of svc enc ts)) = load svc t w.
Proof.
  intros Hother. unfold load_embedding_from_cache.
  rewrite (run_saves_files md5_hexdigest svc t); [done|].
  apply Forall_forall. intros [[s t'] e] Hin.
  apply list_elem_of_fmap in Hin as [t'' [[= -> -> ->] Hin]]. simpl.
  intros E. apply cache_path_inj in E. by apply (Hother t'').
Qed.

Lemma load_run_saves_saved svc enc ts t : ∀ w,
  t ∈ ts →
  (∀ t', t' ∈ ts → md5_hexdigest t' = md5_hexdigest t → t' = t) →
  load svc t (run_saves md5_hexdigest w (saves_of svc enc ts)) = Some (enc t).
Proof.
  induction ts as [|t0 ts IH]; intros w Hin Hinj; [by apply elem_of_nil in Hin|].
  simpl. destruct (decide (t ∈ ts)) as [Hts|Hts].
  - apply IH; [done|]. intros t' Ht'. apply Hinj. by right.
  - apply elem_of_cons in Hin as [->|Hin]; [|done].
    fold (run_saves md5_hexdigest (save svc t0 (enc t0) w) (saves_of svc enc ts)).
    rewrite load_run_saves_other.
    + apply load_save.
    + intros t' Ht' E. apply Hts. rewrite <- (Hinj t'); [done|by right|done].
Qed.

(** X3. A second [encode_with_cache] over the same texts returns the same
    vectors and leaves the cache files and the model untouched, provided
    no two of the texts share an MD5 key. *)
Theorem encode_with_cache_again (svc : service) (texts : list string)
    (w w1 : world) (vectors : list (option embedding)) :
  (∀ t t', t ∈ texts → t' ∈ texts →
           md5_hexdigest t' = md5_hexdigest t → t' = t) →
  encode_with_cache md5_hexdigest model_loads model_encode svc texts true w
  = (Ok vectors, w1) →
  encode_with_cache md5_hexdigest model_loads model_encode svc texts true w1
  = (Ok vectors, w1).
Proof.
  intros Hinj. rewrite !encode_with_cache_cases.
  destruct (missed svc w texts) as [|m ms] eqn:Hm.
  - intros [= <- <-]. by rewrite Hm.
  - destruct model_loads; [|done]. intros [= <- <-].
    set (enc := model_encode (model_name svc)).
    set (w' := {| files := files w; encode_calls := encode_calls w ++ [m :: ms] |}).
    assert (∀ t, t ∈ texts →
              load svc t (run_saves md5_hexdigest w' (saves_of svc enc (m :: ms)))
              = Some (default (enc t) (load svc t w))) as Hload.
    { intros t Ht. destruct (load svc t w) as [e|] eqn:E.
      - rewrite load_run_saves_other; [done|].
        intros t' Ht' Hk. rewrite <- Hm in Ht'.
        apply missed_elem in Ht' as [_ Ht'].
        unfold load_embedding_from_cache, _get_cache_key in Ht', E.
        rewrite Hk in Ht'. congruence.
      - apply load_run_saves_saved.
        + rewrite <- Hm. by apply missed_elem.
        + intros t' Ht' Hk. rewrite <- Hm in Ht'.
          apply missed_elem in Ht' as [Ht' _]. by apply Hinj. }
    rewrite (missed_none svc _ texts).
    + do 2 f_equal. apply map_ext_in. intros t Ht.
      apply Hload. by apply list_elem_of_In.
    + intros t Ht. by rewrite Hload.
Qed.

End ClearFacts.

Section CosineFacts.
Import Py EmbeddingService VectorStore ChromaService.
#[local] Open Scope R_scope.

Lemma Q2R_squared_l2 a : ∀ b,
  length a = length b →
  Q2R (squared_l2 a b)
  = dot (map Q2R a) (map Q2R a) - 2 * dot (map Q2R a) (map Q2R b)
    + dot (map Q2R b) (map Q2R b).
Proof.
  unfold squared_l2, dot.
  induction a as [|x a IH]; intros [|y b] Hlen; try done.
  - simpl. unfold Q2R. simpl. lra.
  - simpl in Hlen. injection Hlen as Hlen. simpl.
    rewrite Q2R_plus, Q2R_mult, Q2R_minus, (IH b Hlen). lra.
Qed.

Lemma norm_one a : dot a a = 1 → norm a = 1.
Proof. intros H. unfold norm. rewrite H. apply sqrt_1. Qed.

Variable model_loads : bool.
Variable model_encode : string → string → embedding.

(** X5. With the squared Euclidean distance of the store's collections, the
    score of a returned chunk whose stored embedding and query embedding
    are unit vectors of the same length is twice their cosine similarity
    minus one. *)
Theorem similarity_score_of_unit_vectors (db : database) (svc : service)
    (w : world) (query : string) (company_filter : option (list string))
    (max_results : Z) (similarity_threshold : Q)
    (date_filter : option (gmap string string)) :
  Forall (fun c =>
    ∃ qe co r,
      fst (encode_single_text model_loads model_encode svc query w) = Ok qe
      ∧ co ∈ companies_to_search company_filter
      ∧ r ∈ get_or_create_collection db (get_collection_name co)
      ∧ content c = row_document r
      ∧ chunk_metadata c = row_metadata r
      ∧ (length qe = length (row_embedding r) →
         dot (map Q2R qe) (map Q2R qe) = 1 →
         dot (map Q2R (row_embedding r)) (map Q2R (row_embedding r)) = 1 →
         Q2R (similarity_score c)
         = 2 * compute_similarity (map Q2R qe) (map Q2R (row_embedding r)) - 1))
    (fst (search_similar_chunks squared_l2 model_loads model_encode db svc w
            query company_filter max_results similarity_threshold
            date_filter)).
Proof.
  apply Forall_forall. intros c Hc.
  apply found_origin in Hc as [qe [co [Hqe [Hco [[r [Hr [_ [_ ->]]]] _]]]]].
  exists qe, co, r. simpl. repeat (split; [done|]).
  intros Hlen Hq Hr1.
  rewrite Q2R_one_minus, (Q2R_squared_l2 _ _ Hlen), Hq, Hr1.
  unfold compute_similarity.
  rewrite (norm_one _ Hq), (norm_one _ Hr1).
  destruct (Req_dec_T 1 0) as [?|_]; [lra|].
  rewrite decide_True by (by rewrite !length_map).
  lra.
Qed.

End CosineFacts.

Section ThresholdFacts.
Import Py EmbeddingService VectorStore ChromaService Vocabulary.

Variable distance : list Q → list Q → Q.
Variable model_loads : bool.
Variable model_encode : string → string → embedding.

Lemma passes_le thr thr' c : (thr <= thr')%Q → passes thr' c → passes thr c.
Proof.
  unfold passes. rewrite !Qle_bool_iff. intros H1 H2. by eapply Qle_trans.
Qed.

Lemma passes_upward thr a b : by_score a b → passes thr b → passes thr a.
Proof.
  unfold passes, by_score. rewrite !Qle_bool_iff. intros H1 H2.
  by eapply Qle_trans.
Qed.

Lemma process_results_passes company thr hits :
  Forall (passes thr) (process_results company thr hits).
Proof.
  unfold process_results. apply Forall_forall. intros c Hc.
  apply list_elem_of_fmap in Hc as [h [-> Hh]].
  by apply list_elem_of_filter in Hh as [Hh _].
Qed.

Lemma process_results_filter company thr thr' hits :
  (thr <= thr')%Q →
  process_results company thr' hits
  = filter (passes thr') (process_results company thr hits).
Proof.
  intros Hle. unfold process_results.
  induction hits as [|h hits IH]; [done|].
  rewrite !filter_cons.
  destruct (decide (Qle_bool thr' (1 - hit_distance h) = true)) as [H'|H'].
  - rewrite decide_True.
    + simpl. rewrite filter_cons_True by exact H'. by rewrite IH.
    + apply Qle_bool_iff. apply Qle_bool_iff in H'. by eapply Qle_trans.
  - destruct (decide (Qle_bool thr (1 - hit_distance h) = true)) as [H|H].
    + simpl. rewrite filter_cons_False by exact H'. exact IH.
    + exact IH.
Qed.

Lemma search_company_filter db qe max thr thr' df company :
  (thr <= thr')%Q →
  search_company distance db qe max thr' df company
  = (filter (passes thr') (fst (search_company distance db qe max thr df company)),
     snd (search_company distance db qe max thr df company)).
Proof.
  intros Hle. unfold search_company.
  destruct (count _ =? 0); [done|].
  destruct (query _ _ _ _ _) as [hits|e]; [|done]. simpl.
  by rewrite (process_results_filter company thr thr').
Qed.

Lemma search_all_filter db qe max thr thr' df companies :
  (thr <= thr')%Q →
  search_all distance db qe max thr' df companies
  = (filter (passes thr') (fst (search_all distance db qe max thr df companies)),
     snd (search_all distance db qe max thr df companies)).
Proof.
  intros Hle. unfold search_all.
  set (f := fun t (acc : list chunk * log) company =>
              let r := search_company distance db qe max t df company in
              (acc.1 ++ r.1, acc.2 ++ r.2)).
  change (fold_left (f thr') companies ([], [])
          = (filter (passes thr') (fold_left (f thr) companies ([], [])).1,
             (fold_left (f thr) companies ([], [])).2)).
  assert (∀ acc acc',
            acc' = (filter (passes thr') acc.1, acc.2) →
            fold_left (f thr') companies acc'
            = (filter (passes thr') (fold_left (f thr) companies acc).1,
               (fold_left (f thr) companies acc).2)) as H.
  { induction companies as [|co cos IH]; intros acc acc' ->; [done|].
    simpl. apply IH. unfold f. simpl.
    rewrite (search_company_filter db qe max thr thr' df co Hle). simpl.
    by rewrite filter_app. }
  by apply H.
Qed.

Lemma insert_by_score_filter (P : chunk → Prop) `{∀ c, Decision (P c)} x l :
  StronglySorted by_score l →
  filter P (insert_by higher_score x l)
  = if decide (P x) then insert_by higher_score x (filter P l) else filter P l.
Proof.
  induction 1 as [|y l Hl IH Hy]; simpl.
  - rewrite filter_cons, filter_nil. by destruct (decide (P x)).
  - destruct (higher_score y x) eqn:E.
    + rewrite !filter_cons, IH.
      destruct (decide (P y)), (decide (P x)); simpl; try done.
      by rewrite E.
    + rewrite filter_cons.
      destruct (decide (P x)); [|done].
      destruct (filter P (y :: l)) as [|z zs] eqn:Ef; [done|].
      simpl.
      assert (z ∈ y :: l) as Hz.
      { assert (z ∈ filter P (y :: l)) as Hin by (rewrite Ef; left).
        by apply list_elem_of_filter in Hin as [_ Hin]. }
      assert (higher_score z x = false) as ->; [|done].
      unfold higher_score in *. apply negb_false_iff in E.
      apply negb_false_iff. apply Qle_bool_iff. apply Qle_bool_iff in E.
      apply elem_of_cons in Hz as [->|Hz]; [done|].
      rewrite Forall_forall in Hy. specialize (Hy z Hz). unfold by_score in Hy.
      by eapply Qle_trans.
Qed.

Lemma sort_by_score_filter (P : chunk → Prop) `{∀ c, Decision (P c)} l :
  sort_by higher_score (filter P l) = filter P (sort_by higher_score l).
Proof.
  induction l as [|x l IH]; [done|].
  change (sort_by higher_score (x :: l))
    with (insert_by higher_score x (sort_by higher_score l)).
  rewrite filter_cons, insert_by_score_filter by apply sort_by_score_sorted.
  destruct (decide (P x)); [|done].
  change (sort_by higher_score (x :: filter P l))
    with (insert_by higher_score x (sort_by higher_score (filter P l))).
  by rewrite IH.
Qed.

Lemma take_filter_sorted thr l : ∀ n,
  StronglySorted by_score l →
  filter (passes thr) (take n l) = take n (filter (passes thr) l).
Proof.
  induction l as [|x l IH]; intros n Hl; [by destruct n|].
  destruct n as [|n]; [done|].
  apply StronglySorted_inv in Hl as [Hl Hx]. simpl.
  rewrite !filter_cons. destruct (decide (passes thr x)) as [Hp|Hp].
  - simpl. by rewrite IH.
  - assert (filter (passes thr) l = []) as Hnone.
    { apply filter_none. eapply Forall_impl; [exact Hx|].
      intros z Hz Hpz. apply Hp. by apply (passes_upward thr x z). }
    rewrite Hnone, take_nil. apply filter_none.
    apply Forall_forall. intros z Hz Hpz.
    apply elem_of_take in Hz as [i [Hz _]]. apply list_elem_of_lookup_2 in Hz.
    rewrite Forall_forall in Hx. apply Hp.
    by apply (passes_upward thr x z); [apply Hx|].
Qed.

(** X6. Raising the threshold only filters the answer: the chunks returned for
    a threshold are those returned for any lower threshold whose score
    reaches it, in the same order; the log records are the same. *)
Theorem search_threshold_filters (db : database) (svc : service) (w : world)
    (query : string) (company_filter : option (list string))
    (max_results : Z) (lower higher : Q)
    (date_filter : option (gmap string string)) :
  (lower <= higher)%Q →
  search_similar_chunks distance model_loads model_encode db svc w query
    company_filter max_results higher date_filter
  = (filter (passes higher)
       (fst (search_similar_chunks distance model_loads model_encode db svc w
               query company_filter max_results lower date_filter)),
     snd (search_similar_chunks distance model_loads model_encode db svc w
            query company_filter max_results lower date_filter)).
Proof.
  intros Hle. unfold search_similar_chunks.
  destruct (fst (encode_single_text _ _ _ _ _)) as [qe|e]; [|done].
  rewrite (search_all_filter db qe max_results lower higher date_filter _ Hle).
  pose proof (search_all_spec distance db qe max_results lower date_filter
                (companies_to_search company_filter)) as Hall.
  destruct (search_all distance db qe max_results lower date_filter _)
    as [all records]. simpl in *. f_equal.
  rewrite sort_by_score_filter.
  unfold slice_to. destruct (0 <=? max_results) eqn:Hmax.
  - symmetry. apply take_filter_sorted, sort_by_score_sorted.
  - assert (all = []) as ->.
    { rewrite Hall. clear Hall.
      induction (companies_to_search company_filter) as [|co cos IH]; [done|].
      simpl. rewrite (search_company_refused distance db qe max_results) by lia.
      exact IH. }
    done.
Qed.

End ThresholdFacts.

Section DateRangeFacts.
Import Py EmbeddingService VectorStore ChromaService Models RAGPipeline Vocabulary.

Lemma get_truthy_date_filter dr :
  get_truthy (build_date_filter dr) "start" = given (start dr)
  ∧ get_truthy (build_date_filter dr) "end" = given (end_ dr).
Proof.
  unfold get_truthy, build_date_filter, given.
  destruct (start dr) as [s|], (end_ dr) as [e|];
    try destruct (truthy_str s) eqn:Es; try destruct (truthy_str e) eqn:Ee;
    simplify_map_eq; rewrite ?Es, ?Ee; done.
Qed.

Lemma date_filter_empty dr :
  build_date_filter dr = ∅ ↔ given (start dr) = None ∧ given (end_ dr) = None.
Proof.
  unfold build_date_filter, given.
  destruct (start dr) as [s|], (end_ dr) as [e|];
    try destruct (truthy_str s) eqn:Es; try destruct (truthy_str e) eqn:Ee;
    split; try done; try (intros [? ?]; done);
    intros H; by apply insert_non_empty in H.
Qed.

(** X7. The [where] clause that reaches the store for one company when the
    request carries a date range: the company condition alone when neither
    bound is given (as for a request without a date range), and otherwise
    one more condition on ["date"], with [$gte] the start and [$lte] the
    end, each where given. An empty string as bound counts as not
    given. *)
Theorem date_range_where (company : string) (dr : DateRange) :
  let clause := build_where company (Some (build_date_filter dr)) in
  let company_only : where_clause :=
    {[ "company" := Equals (MStr company) ]} in
  build_where company None = company_only
  ∧ clause
    = match given (start dr), given (end_ dr) with
      | None, None => company_only
      | s, e => <["date" := Range {| gte := s; lte := e |}]> company_only
      end.
Proof.
  intros clause company_only.
  destruct (get_truthy_date_filter dr) as [Hs He].
  split; [done|].
  unfold clause, build_where. rewrite Hs, He.
  case_decide as Hempty.
  - apply date_filter_empty in Hempty as [-> ->]. done.
  - destruct (given (start dr)) as [s|] eqn:Es,
             (given (end_ dr)) as [e|] eqn:Ee.
    + rewrite lookup_insert_eq. simpl. by rewrite insert_insert_eq.
    + done.
    + by rewrite lookup_singleton_ne.
    + exfalso. apply Hempty. apply date_filter_empty. by rewrite Es, Ee.
Qed.

End DateRangeFacts.

Section StoreFacts.
Import Py EmbeddingService VectorStore ChromaService.

Variable model_loads : bool.
Variable model_encode : string → string → embedding.

Abbreviation store := (store_document_chunks model_loads model_encode).

Lemma add_one_extends coll r :
  ∃ added, add_one coll r = coll ++ added ∧ added `sublist_of` [r].
Proof.
  unfold add_one. case_bool_decide.
  - exists []. rewrite app_nil_r. split; [done|]. apply sublist_nil_l.
  - by exists [r].
Qed.

Lemma add_extends rows : ∀ coll,
  ∃ added, fold_left add_one rows coll = coll ++ added
           ∧ added `sublist_of` rows.
Proof.
  induction rows as [|r rows IH]; intros coll.
  - exists []. by rewrite app_nil_r.
  - simpl. destruct (add_one_extends coll r) as [a1 [-> Ha1]].
    destruct (IH (coll ++ a1)) as [a2 [-> Ha2]].
    exists (a1 ++ a2). rewrite <- app_assoc. split; [done|].
    by apply (sublist_app a1 [r] a2 rows).
Qed.

Lemma chunk_rows_length company document_id chunks embeddings metadata :
  length embeddings = length chunks →
  length (chunk_rows company document_id chunks embeddings metadata)
  = length chunks.
Proof.
  intros H. unfold chunk_rows. rewrite length_imap, length_zip_with. lia.
Qed.

(** What [store_document_chunks] does in each case. *)
Lemma store_cases db svc w company document_id chunks metadata :
  let name := get_collection_name company in
  let coll := get_or_create_collection db name in
  let rows :=
    chunk_rows company document_id chunks
      (map (model_encode (model_name svc)) chunks) metadata in
  (chunks ≠ [] ∧ model_loads = true
   ∧ store db svc w company document_id chunks metadata
     = (true, <[name := fold_left add_one rows coll]> db, []))
  ∨ ((chunks = [] ∨ model_loads = false)
     ∧ ∃ e, store db svc w company document_id chunks metadata
            = (false, db,
               [(ERROR, "Failed to store document chunks: " +:+ str_of_exn e)])).
Proof.
  intros name coll rows. unfold store_document_chunks.
  destruct chunks as [|c chunks].
  - right. split; [by left|].
    by exists (Exception "Expected IDs to be a non-empty list").
  - unfold encode_texts. destruct model_loads.
    + left. split; [done|]. split; [done|]. done.
    + right. split; [by right|].
      by exists (Exception "Failed to load embedding model").
Qed.

(** X8. [store_document_chunks] fails exactly when there is no chunk or the
    embedding model cannot be loaded. A failed call returns [False], logs
    one error and leaves every collection as it was. A successful call
    logs nothing, leaves the other collections as they were and only
    appends to the company's collection: the records it held stay, in
    their order, followed by records prepared for this document. *)
Theorem store_document_chunks_appends (db : database) (svc : service)
    (w : world) (company document_id : string) (chunks : list string)
    (metadata : metadata) :
  let stored := store db svc w company document_id chunks metadata in
  let ok := fst (fst stored) in
  let db' := snd (fst stored) in
  let name := get_collection_name company in
  (ok = false ↔ chunks = [] ∨ model_loads = false)
  ∧ (ok = false →
     db' = db
     ∧ ∃ message, snd stored = [(ERROR, message)])
  ∧ (ok = true →
     snd stored = []
     ∧ (∀ other, other ≠ name → db' !! other = db !! other)
     ∧ ∃ added,
         get_or_create_collection db' name
         = get_or_create_collection db name ++ added
         ∧ added `sublist_of`
             chunk_rows company document_id chunks
               (map (model_encode (model_name svc)) chunks) metadata).
Proof.
  intros stored ok db' name. unfold ok, db', stored.
  destruct (store_cases db svc w company document_id chunks metadata)
    as [(Hne & Hloads & ->)|(Hwhy & e & ->)]; simpl.
  - split; [split; [done|intros [?|?]; congruence]|].
    split; [done|]. intros _. split; [done|].
    split; [intros other Hother; by rewrite lookup_insert_ne|].
    fold name. unfold get_or_create_collection at 1.
    rewrite lookup_insert_eq. simpl. apply add_extends.
  - split; [done|]. split; [|done]. intros _. split; [done|]. by eexists.
Qed.

Lemma add_one_ids coll r :
  row_id r ∈ map row_id (add_one coll r)
  ∧ ∀ id, id ∈ map row_id coll → id ∈ map row_id (add_one coll r).
Proof.
  unfold add_one. case_bool_decide as Hin; [done|].
  rewrite map_app. split.
  - apply elem_of_app. right. by left.
  - intros id Hid. apply elem_of_app. by left.
Qed.

Lemma add_ids rows : ∀ coll id,
  id ∈ map row_id coll ∨ id ∈ map row_id rows →
  id ∈ map row_id (fold_left add_one rows coll).
Proof.
  induction rows as [|r rows IH]; intros coll id Hid; simpl.
  - destruct Hid as [?|Hid]; [done|]. by apply elem_of_nil in Hid.
  - apply IH. destruct (add_one_ids coll r) as [Hr Hkeep].
    destruct Hid as [Hid|Hid]; [left; by apply Hkeep|].
    simpl in Hid. apply elem_of_cons in Hid as [->|Hid]; [by left|by right].
Qed.

Lemma add_known rows : ∀ coll,
  Forall (fun r => row_id r ∈ map row_id coll) rows →
  fold_left add_one rows coll = coll.
Proof.
  induction rows as [|r rows IH]; intros coll Hall; [done|].
  apply Forall_cons in Hall as [Hr Hall]. simpl.
  unfold add_one at 2. rewrite bool_decide_eq_true_2 by done. by apply IH.
Qed.

Lemma chunk_rows_id_of company document_id chunks embeddings metadata r :
  r ∈ chunk_rows company document_id chunks embeddings metadata →
  ∃ i : nat, (i < length chunks)%nat
             ∧ row_id r = document_id +:+ "_chunk_" +:+ pretty i.
Proof.
  intros Hr. apply list_elem_of_lookup in Hr as [i Hi].
  apply chunk_rows_lookup in Hi as (c & e & Hc & _ & Hid & _).
  exists i. split; [by eapply lookup_lt_Some|done].
Qed.

(** X9. Once a document is stored, storing under the same document id and
    company again, with the same or other texts and metadata but no more
    chunks than before, reports success and changes nothing: the records
    already held are neither replaced nor updated. *)
Theorem store_document_chunks_again (db db1 : database) (svc : service)
    (w w' : world) (company document_id : string)
    (chunks chunks' : list string) (metadata metadata' : metadata)
    (records : log) :
  store db svc w company document_id chunks metadata = (true, db1, records) →
  chunks' ≠ [] → (length chunks' <= length chunks)%nat →
  store db1 svc w' company document_id chunks' metadata' = (true, db1, []).
Proof.
  intros Hfirst Hne Hlen.
  destruct (store_cases db svc w company document_id chunks metadata)
    as [(_ & Hloads & Hrun)|(_ & e & Hrun)];
    rewrite Hrun in Hfirst; [|done].
  injection Hfirst as <- _.
  set (name := get_collection_name company) in *.
  set (coll := get_or_create_collection db name) in *.
  set (rows := chunk_rows company document_id chunks
                 (map (model_encode (model_name svc)) chunks) metadata) in *.
  set (coll1 := fold_left add_one rows coll).
  destruct (store_cases (<[name := coll1]> db) svc w' company document_id
              chunks' metadata')
    as [(_ & _ & ->)|([?|?] & _)]; [|done|congruence].
  fold name. unfold get_or_create_collection.
  rewrite lookup_insert_eq. simpl.
  rewrite add_known; [by rewrite insert_insert_eq|].
  apply Forall_forall. intros r' Hr'.
  apply chunk_rows_id_of in Hr' as [i [Hi ->]].
  apply add_ids. right.
  destruct (lookup_lt_is_Some_2 rows i) as [r Hr].
  { unfold rows. rewrite chunk_rows_length by (by rewrite length_map). lia. }
  apply list_elem_of_fmap. exists r. split.
  - by apply chunk_rows_lookup in Hr as (_ & _ & _ & _ & -> & _).
  - by eapply list_elem_of_lookup_2.
Qed.

End StoreFacts.

Section GetDocumentFacts.
Import Py EmbeddingService VectorStore ChromaService Vocabulary.

Lemma get_by_document_id coll document_id :
  get coll {[ "document_id" := Equals (MStr document_id) ]}
  = records_of document_id coll.
Proof.
  unfold get, records_of. apply list_filter_iff.
  intros r. apply matches_document_id.
Qed.

(** X10. [get_document_by_id] on any collection, by the records whose
    metadata carry the document id. When there is none, it returns [None]
    and logs nothing. When their chunk indexes are not all integers or all
    strings, it returns [None] and logs one error. In every other case it
    returns a document and logs nothing: its chunks are the texts and
    chunk indexes of all those records, each once, in ascending order of
    the index, and its metadata are those of the first such record without
    the key ["chunk_index"]. *)
Theorem get_document_by_id_collects (db : database)
    (document_id company : string) :
  let rows :=
    records_of document_id
      (get_or_create_collection db (get_collection_name company)) in
  let got := get_document_by_id db document_id company in
  (rows = [] → got = (None, []))
  ∧ (rows ≠ [] → comparable (map snd (map indexed rows)) = false →
     ∃ message, got = (None, [(ERROR, message)]))
  ∧ (rows ≠ [] → comparable (map snd (map indexed rows)) = true →
     ∃ doc first,
       got = (Some doc, [])
       ∧ doc_document_id doc = document_id
       ∧ doc_company doc = company
       ∧ doc_chunks doc ≡ₚ map indexed rows
       ∧ Sorted ascending (doc_chunks doc)
       ∧ doc_metadata doc !! "chunk_index" = None
       ∧ head rows = Some first
       ∧ doc_metadata doc = delete "chunk_index" (row_metadata first)).
Proof.
  intros rows got. unfold got, get_document_by_id.
  rewrite get_by_document_id. fold rows.
  destruct rows as [|first rest] eqn:Er.
  { split; [done|]. split; by intros ?. }
  change (map (fun r => (row_document r,
                         default (MInt 0) (row_metadata r !! "chunk_index")))
              (first :: rest))
    with (map indexed (first :: rest)).
  split; [done|].
  destruct (comparable (map snd (map indexed (first :: rest)))) eqn:Hc.
  - split; [done|]. intros _ _. eexists _, first.
    cbn [doc_chunks doc_document_id doc_company doc_metadata].
    split; [done|]. split; [done|]. split; [done|].
    split; [apply sort_by_perm|].
    split.
    { refine (sort_by_sorted
                (fun a b : string * meta_value => key_before a.2 b.2) _ _).
      intros a b. apply key_before_asym. }
    split; [apply lookup_delete_eq|]. done.
  - split; [|done]. intros _ _. by eexists.
Qed.

End GetDocumentFacts.

Section KeyOrderFacts.
Import Py EmbeddingService VectorStore ChromaService CompanyStatistics.

Lemma ascii_compare_trans a b c :
  Ascii.compare a b = Lt → Ascii.compare b c = Lt → Ascii.compare a c = Lt.
Proof.
  unfold Ascii.compare. rewrite !N.compare_lt_iff. lia.
Qed.

Lemma string_compare_refl s : String.compare s s = Eq.
Proof.
  induction s as [|a s IH]; simpl; [done|].
  unfold Ascii.compare. by rewrite N.compare_refl.
Qed.

Lemma string_compare_lt_trans a : ∀ b c,
  String.compare a b = Lt → String.compare b c = Lt → String.compare a c = Lt.
Proof.
  induction a as [|x a IH]; intros [|y b] [|z c]; simpl; try done.
  destruct (Ascii.compare x y) eqn:Exy; try done;
    destruct (Ascii.compare y z) eqn:Eyz; try done; intros Hab Hbc.
  - apply Ascii.compare_eq_iff in Exy, Eyz. subst.
    rewrite (proj2 (N.compare_eq_iff _ _) eq_refl : Ascii.compare z z = Eq).
    by apply (IH b c).
  - apply Ascii.compare_eq_iff in Exy. subst. by rewrite Eyz.
  - apply Ascii.compare_eq_iff in Eyz. subst. by rewrite Exy.
  - by rewrite (ascii_compare_trans x y z).
Qed.

Lemma string_ltb_trans a b c :
  String.ltb a b = true → String.ltb b c = true → String.ltb a c = true.
Proof.
  unfold String.ltb. intros Hab Hbc.
  destruct (String.compare a b) eqn:E1; try done.
  destruct (String.compare b c) eqn:E2; try done.
  by rewrite (string_compare_lt_trans a b c).
Qed.

Lemma string_not_ltb a b :
  String.ltb b a = false ↔ String.compare a b = Lt ∨ a = b.
Proof.
  unfold String.ltb. rewrite (String.compare_antisym b a).
  destruct (String.compare a b) eqn:E; simpl.
  - apply String.compare_eq_iff in E. split; [by right|done].
  - split; [by left|done].
  - split; [done|]. intros [?| ->]; [done|].
    by rewrite string_compare_refl in E.
Qed.

Lemma key_le_trans a b c :
  same_type a b → same_type b c → key_le a b → key_le b c → key_le a c.
Proof.
  unfold key_le. destruct a as [x|x], b as [y|y], c as [z|z]; simpl; try done.
  - intros _ _. rewrite !string_not_ltb.
    intros [H1| ->] [H2| ->]; auto.
    left. by eapply string_compare_lt_trans.
  - intros _ _. rewrite !Z.ltb_ge. lia.
Qed.

Lemma comparable_same_type keys a b :
  comparable keys = true → a ∈ keys → b ∈ keys → same_type a b.
Proof.
  unfold comparable. intros H Ha Hb.
  apply list_elem_of_In in Ha, Hb.
  apply orb_true_iff in H as [H|H]; rewrite forallb_forall in H;
    pose proof (H a Ha); pose proof (H b Hb); by destruct a, b.
Qed.

(** A sorted list of keys of one type: its head does not sort after any
    key, and no key sorts after its last one. *)
Lemma sorted_keys_ends keys first latest :
  comparable keys = true →
  Sorted (in_order key_before) keys →
  head keys = Some first → last keys = Some latest →
  ∀ k, k ∈ keys → key_le first k ∧ key_le k latest.
Proof.
  intros Hcomp Hsorted Hfirst Hlast.
  set (R := fun a b => same_type a b ∧ key_le a b).
  assert (Transitive R) as HR.
  { intros a b c [Hab1 Hab2] [Hbc1 Hbc2]. split.
    - by destruct a, b, c.
    - by eapply key_le_trans. }
  assert (∀ a, a ∈ keys → R a a) as Hrefl.
  { intros a Ha. split; [by destruct a|].
    unfold key_le. destruct a as [s|n]; simpl.
    - unfold String.ltb. by rewrite string_compare_refl.
    - apply Z.ltb_irrefl. }
  assert (StronglySorted R keys) as Hstrong.
  { apply Sorted_StronglySorted; [done|].
    assert (∀ a b, a ∈ keys → b ∈ keys → same_type a b) as Hsame
      by (intros; by eapply comparable_same_type).
    clear -Hsorted Hsame.
    induction Hsorted as [|x l Hl IH Hhd]; constructor.
    - apply IH. intros a b Ha Hb. apply Hsame; by right.
    - destruct Hhd as [|y l Hy]; constructor. split; [|exact Hy].
      apply Hsame; [by left|right; by left]. }
  intros k Hk.
  destruct keys as [|k0 keys]; [done|]. injection Hfirst as ->.
  apply StronglySorted_inv in Hstrong as [Hstrong Hall].
  rewrite Forall_forall in Hall. split.
  - apply elem_of_cons in Hk as [->|Hk]; [by apply Hrefl; left|by apply Hall].
  - clear Hrefl Hcomp Hsorted. revert first k Hk Hall Hlast.
    induction Hstrong as [|x l Hl IH Hx]; intros first k Hk Hall Hlast.
    + simpl in Hlast. injection Hlast as <-.
      apply list_elem_of_singleton in Hk as ->.
      unfold key_le. destruct first as [s|n]; simpl.
      * unfold String.ltb. by rewrite string_compare_refl.
      * apply Z.ltb_irrefl.
    + rewrite last_cons_cons in Hlast.
      apply elem_of_cons in Hk as [->|Hk].
      * assert (latest ∈ x :: l) as Hin by (by apply last_Some_elem_of).
        by apply Hall.
      * rewrite Forall_forall in Hx. apply (IH x k Hk); [|done].
        intros z Hz. by apply Hx.
Qed.

End KeyOrderFacts.

Section StatsFacts.
Import Py EmbeddingService VectorStore ChromaService CompanyStatistics.

Variable sort_error : list meta_value → exn.

Abbreviation stats_of := (get_company_stats sort_error).

Lemma truthy_values_elem key metadatas v :
  v ∈ truthy_values key metadatas
  ↔ truthy_meta v = true ∧ ∃ m, m ∈ metadatas ∧ m !! key = Some v.
Proof.
  unfold truthy_values. rewrite list_elem_of_filter, list_elem_of_omap.
  naive_solver.
Qed.

Lemma truthy_values_length key metadatas :
  (length (truthy_values key metadatas) <= length metadatas)%nat.
Proof.
  unfold truthy_values.
  etrans; [apply length_filter|].
  induction metadatas as [|m ms IH]; csimpl; [done|].
  destruct (m !! key); csimpl; lia.
Qed.

Lemma remove_dups_length {A} `{EqDecision A} (l : list A) :
  (length (remove_dups l) <= length l)%nat.
Proof.
  induction l as [|x l IH]; simpl; [done|].
  case_decide; simpl; lia.
Qed.

(** What [get_company_stats] returns, in one equation. *)
Lemma get_company_stats_cases db company :
  let coll := get_or_create_collection db (get_collection_name company) in
  let metadatas := map row_metadata coll in
  let dates := truthy_values "date" metadatas in
  stats_of db company
  = if decide (coll = []) then (no_stats company, [])
    else if comparable dates then
      ({| stats_company := company;
          stats_name := company_name company;
          stats_transcript_count :=
            Z.of_nat (length (remove_dups
                                (truthy_values "document_id" metadatas)));
          stats_chunk_count := Z.of_nat (length coll);
          stats_date_range :=
            match head (sort_by key_before dates),
                  last (sort_by key_before dates) with
            | Some first, Some latest => Some (first, latest)
            | _, _ => None
            end;
          stats_latest_transcript := last (sort_by key_before dates) |}, [])
    else
      (no_stats company,
       [(ERROR, "Failed to get company stats for " +:+ company +:+ ": "
                  +:+ str_of_exn (sort_error dates))]).
Proof.
  intros coll metadatas dates. unfold get_company_stats. fold coll.
  destruct coll as [|r coll'] eqn:Ec; [done|].
  rewrite decide_False by done.
  replace (count (r :: coll') =? 0) with false
    by (symmetry; apply Z.eqb_neq; unfold count; simpl; lia).
  fold metadatas. unfold metadatas at 1. cbn [map].
  change (row_metadata r :: map row_metadata coll') with metadatas.
  fold dates. unfold sort_keys. destruct (comparable dates); [|done].
  do 2 f_equal.
  - unfold metadatas. by rewrite length_map.
  - by destruct (sort_by key_before dates).
Qed.

(** X11. [get_company_stats] never counts more transcripts than chunks, nor
    more chunks than the collection holds. For an empty collection it
    returns zeros and no dates. When it logs nothing, the chunk count is
    the size of the collection and the transcript count is the number of
    different values, other than the empty string and zero, that the
    records carry as document id. *)
Theorem get_company_stats_counts (db : database) (company : string) :
  let stats := fst (stats_of db company) in
  let coll := get_or_create_collection db (get_collection_name company) in
  stats_company stats = company
  ∧ 0 <= stats_transcript_count stats <= stats_chunk_count stats
  ∧ stats_chunk_count stats <= count coll
  ∧ (coll = [] → stats_of db company = (no_stats company, []))
  ∧ (snd (stats_of db company) = [] →
     stats_chunk_count stats = count coll
     ∧ ∃ ids,
         NoDup ids
         ∧ stats_transcript_count stats = Z.of_nat (length ids)
         ∧ ∀ v, v ∈ ids
             ↔ truthy_meta v = true
               ∧ ∃ r, r ∈ coll ∧ row_metadata r !! "document_id" = Some v).
Proof.
  intros stats coll. unfold stats.
  rewrite get_company_stats_cases. fold coll.
  set (metadatas := map row_metadata coll).
  pose proof (remove_dups_length (truthy_values "document_id" metadatas)) as H1.
  pose proof (truthy_values_length "document_id" metadatas) as H2.
  assert (length metadatas = length coll) as H3 by apply length_map.
  destruct (decide (coll = [])) as [Hc|Hc].
  { simpl. rewrite Hc. simpl. repeat split; try done.
    exists []. split; [constructor|]. split; [done|].
    intros v. split; [by intros ?%elem_of_nil|].
    intros [_ [r [Hr _]]]. by apply elem_of_nil in Hr. }
  destruct (comparable _); simpl.
  - split; [done|]. split; [lia|]. split; [unfold count; lia|].
    split; [done|]. intros _. split; [done|].
    exists (remove_dups (truthy_values "document_id" metadatas)).
    split; [apply NoDup_remove_dups|]. split; [done|].
    intros v. rewrite elem_of_remove_dups, truthy_values_elem.
    unfold metadatas. split.
    + intros [Hv [m [Hm Hk]]]. split; [done|].
      apply list_elem_of_fmap in Hm as [r [-> Hr]]. by exists r.
    + intros [Hv [r [Hr Hk]]]. split; [done|].
      exists (row_metadata r). split; [by apply list_elem_of_fmap_2|done].
  - split; [done|]. split; [lia|]. split; [unfold count; lia|]. done.
Qed.

(** X12. The date range of [get_company_stats] spans the dates of the
    collection: its start and its end are dates that records carry, the
    latest transcript is its end, and no date of a record, other than the
    empty string and zero, sorts before the start or after the end. There
    is no date range, and no latest transcript, exactly when no record
    carries such a date, or the dates are not all strings or all
    integers. *)
Theorem get_company_stats_dates (db : database) (company : string) :
  let stats := fst (stats_of db company) in
  let coll := get_or_create_collection db (get_collection_name company) in
  let dated (d : meta_value) :=
    truthy_meta d = true ∧ ∃ r, r ∈ coll ∧ row_metadata r !! "date" = Some d in
  match stats_date_range stats with
  | Some (first, latest) =>
      dated first ∧ dated latest
      ∧ stats_latest_transcript stats = Some latest
      ∧ ∀ d, dated d → key_le first d ∧ key_le d latest
  | None =>
      stats_latest_transcript stats = None
      ∧ ((∀ d, ¬ dated d)
         ∨ comparable (truthy_values "date" (map row_metadata coll)) = false)
  end
  ∧ ((∀ d, ¬ dated d)
     ∨ comparable (truthy_values "date" (map row_metadata coll)) = false →
     stats_date_range stats = None ∧ stats_latest_transcript stats = None).
Proof.
  intros stats coll dated. unfold stats.
  rewrite get_company_stats_cases. fold coll.
  set (dates := truthy_values "date" (map row_metadata coll)).
  assert (∀ d, d ∈ dates ↔ dated d) as Hdated.
  { intros d. unfold dates, dated. rewrite truthy_values_elem. split.
    - intros [Hd [m [Hm Hk]]]. split; [done|].
      apply list_elem_of_fmap in Hm as [r [-> Hr]]. by exists r.
    - intros [Hd [r [Hr Hk]]]. split; [done|].
      exists (row_metadata r). split; [by apply list_elem_of_fmap_2|done]. }
  destruct (decide (coll = [])) as [Hc|Hc].
  { simpl. split; [|done]. split; [done|]. left. intros d [_ [r [Hr _]]].
    rewrite Hc in Hr. by apply elem_of_nil in Hr. }
  destruct (comparable dates) eqn:Hcomp; simpl;
    [|by split; [split; [|right]|]].
  set (sorted := sort_by key_before dates).
  assert (∀ d, d ∈ sorted ↔ dated d) as Hsorted_dated.
  { intros d. unfold sorted. by rewrite sort_by_elem. }
  destruct (head sorted) as [first|] eqn:Hfirst.
  - destruct (last sorted) as [latest|] eqn:Hlast.
    + assert (comparable sorted = true) as Hcomp'.
      { unfold comparable in *. apply orb_true_iff.
        apply orb_true_iff in Hcomp as [H|H]; [left|right];
          apply forallb_forall; intros k Hk; rewrite forallb_forall in H;
          apply H; apply list_elem_of_In; apply list_elem_of_In in Hk;
          unfold sorted in Hk; by apply sort_by_elem in Hk. }
      pose proof (sorted_keys_ends sorted first latest Hcomp'
                    (sort_by_sorted key_before key_before_asym dates)
                    Hfirst Hlast) as Hends.
      split.
      * split; [apply Hsorted_dated; by apply head_Some_elem_of|].
        split; [apply Hsorted_dated; by apply last_Some_elem_of|].
        split; [done|]. intros d Hd. by apply Hends, Hsorted_dated.
      * intros [Hnone|?]; [|done]. exfalso. apply (Hnone first).
        apply Hsorted_dated. by apply head_Some_elem_of.
    + apply last_None in Hlast. by rewrite Hlast in Hfirst.
  - destruct sorted as [|x xs] eqn:Es; [|done]. simpl. split; [|done].
    split; [done|].
    left. intros d Hd. apply Hsorted_dated in Hd. by apply elem_of_nil in Hd.
Qed.

End StatsFacts.

Section EstimateFacts.
Import Py EmbeddingService VectorStore ChromaService Models RAGPipeline CompanyStatistics.

Variable sort_error : list meta_value → exn.
Variable distance : list Q → list Q → Q.
Variable model_loads : bool.
Variable model_encode : string → string → embedding.

Lemma search_company_length db qe max thr df company :
  (length (fst (search_company distance db qe max thr df company))
   <= length (get_or_create_collection db (get_collection_name company)))%nat.
Proof.
  unfold search_company. destruct (count _ =? 0); [simpl; lia|].
  unfold VectorStore.query. destruct (_ <=? 0); [simpl; lia|]. simpl.
  unfold process_results. rewrite length_map.
  etrans; [apply length_filter|]. rewrite length_take.
  rewrite sort_by_length, length_map. unfold get.
  etrans; [apply Nat.le_min_r|]. apply length_filter.
Qed.

Lemma estimate_sum db companies : ∀ acc,
  fst (fold_left
         (fun acc company =>
            let stats := get_company_stats sort_error db company in
            (fst acc + stats_chunk_count (fst stats), snd acc ++ snd stats))
         companies acc)
  = fst acc
    + foldr Z.add 0
        (map (fun co => stats_chunk_count
                          (fst (get_company_stats sort_error db co)))
           companies).
Proof.
  induction companies as [|co cos IH]; intros acc; simpl; [lia|].
  rewrite IH. simpl. lia.
Qed.

Lemma typed_dates_comparable (coll : list row) :
  (∀ r, r ∈ coll → typed_metadata (row_metadata r)) →
  comparable (truthy_values "date" (map row_metadata coll)) = true.
Proof.
  intros Htyped. unfold comparable. apply orb_true_iff. right.
  apply forallb_forall. intros k Hk. apply list_elem_of_In in Hk.
  apply truthy_values_elem in Hk as [_ [m [Hm Hk]]].
  apply list_elem_of_fmap in Hm as [r [-> Hr]].
  destruct (Htyped r Hr) as [Hdate _]. by destruct (Hdate k Hk) as [d ->].
Qed.

Lemma typed_chunk_count db company :
  (∀ name r, r ∈ get_or_create_collection db name →
             typed_metadata (row_metadata r)) →
  stats_chunk_count (fst (get_company_stats sort_error db company))
  = Z.of_nat (length (get_or_create_collection db (get_collection_name company))).
Proof.
  intros Htyped. rewrite get_company_stats_cases.
  case_decide as Hc; [by rewrite Hc|].
  rewrite typed_dates_comparable; [done|]. intros r Hr. by eapply Htyped.
Qed.

Lemma found_length db svc w query cf max thr df :
  (∀ name r, r ∈ get_or_create_collection db name →
             typed_metadata (row_metadata r)) →
  Z.of_nat (length (fst (search_similar_chunks distance model_loads
                           model_encode db svc w query cf max thr df)))
  <= fst (_estimate_total_chunks_searched sort_error db cf).
Proof.
  intros Htyped. unfold _estimate_total_chunks_searched.
  rewrite estimate_sum. simpl.
  assert (0 <= foldr Z.add 0
                 (map (fun co => stats_chunk_count
                                   (fst (get_company_stats sort_error db co)))
                    (companies_to_search cf))) as Hnonneg.
  { induction (companies_to_search cf) as [|co cos IH]; simpl; [lia|].
    rewrite typed_chunk_count by done. lia. }
  unfold search_similar_chunks.
  destruct (fst (encode_single_text _ _ _ _ _)) as [qe|e]; [|simpl; lia].
  pose proof (search_all_spec distance db qe max thr df
                (companies_to_search cf)) as Hall.
  destruct (search_all _ _ _ _ _ _ _) as [all records]. simpl in *.
  destruct (slice_to_take (sort_by higher_score all) max) as [n ->].
  rewrite length_take, sort_by_length, Hall.
  etrans; [apply Nat2Z.inj_le, Nat.le_min_r|].
  clear Hall Hnonneg.
  induction (companies_to_search cf) as [|co cos IH]; simpl; [lia|].
  rewrite length_app, typed_chunk_count by done.
  pose proof (search_company_length db qe max thr df co). lia.
Qed.

Lemma format_sources_length extract chunks :
  (length (fst (_format_sources extract chunks)) <= length chunks)%nat.
Proof.
  unfold _format_sources. rewrite format_sources_fold. simpl.
  induction chunks as [|c chunks IH]; csimpl; [done|].
  destruct (source_document extract c); csimpl; lia.
Qed.

(** X13. Over a store whose records carry dates that are strings, the
    [total_chunks_searched] that [process_query] reports is never smaller
    than the number of sources it returns, nor than the number of chunks
    retrieved. *)
Theorem total_chunks_searched_covers_sources (settings : Settings)
    (generate_response : string → list chunk → Q → result (option string))
    (_extract_quarter : string → option string) (elapsed : string)
    (db : database) (svc : service) (w : world) (request : QueryRequest) :
  (∀ name r, r ∈ get_or_create_collection db name →
             typed_metadata (row_metadata r)) →
  let search q cf m t df :=
    Ok (fst (search_similar_chunks distance model_loads model_encode db svc w
               q cf m t df)) in
  let estimate cf := fst (_estimate_total_chunks_searched sort_error db cf) in
  let response :=
    fst (fst (process_query settings search generate_response estimate
                _extract_quarter elapsed request)) in
  Z.of_nat (length (sources response))
  <= total_chunks_searched (metadata response)
  ∧ ∀ q cf m t df,
      Z.of_nat (length (fst (search_similar_chunks distance model_loads
                               model_encode db svc w q cf m t df)))
      <= estimate cf.
Proof.
  intros Htyped search estimate response.
  split; [|intros; by apply found_length].
  unfold response, process_query, search.
  destruct (generate_response _ _ _) as [generated|e]; [|done].
  set (chunks := fst (search_similar_chunks _ _ _ _ _ _ _ _ _ _ _)).
  pose proof (format_sources_length _extract_quarter chunks) as Hlen.
  destruct (_format_sources _extract_quarter chunks) as [srcs records].
  simpl in *. etrans; [apply Nat2Z.inj_le, Hlen|].
  unfold estimate. by apply found_length.
Qed.

End EstimateFacts.

Section CompaniesFacts.
Import Py EmbeddingService VectorStore ChromaService Models RAGPipeline CompanyStatistics Health.

Variable sort_error : list meta_value → exn.

Lemma get_all_companies_stats_map db :
  fst (get_all_companies_stats sort_error db)
  = map (fun company => fst (get_company_stats sort_error db company))
      (map fst company_names).
Proof.
  unfold get_all_companies_stats.
  set (f := fun acc company => _).
  assert (∀ names acc,
            fst (fold_left f names acc)
            = fst acc ++ map (fun company =>
                                fst (get_company_stats sort_error db company))
                           names) as H.
  { intros names. induction names as [|co cos IH]; intros acc; simpl.
    - by rewrite app_nil_r.
    - rewrite IH. unfold f. simpl. by rewrite <- app_assoc. }
  apply (H _ ([], [])).
Qed.

Lemma company_info_ok stats info :
  company_info stats = Ok info →
  info_symbol info = stats_company stats
  ∧ info_transcript_count info = stats_transcript_count stats
  ∧ ∃ first latest, stats_date_range stats = Some (MStr first, MStr latest).
Proof.
  unfold company_info.
  destruct (stats_date_range stats) as [[[first|?] [latest|?]]|]; try done.
  destruct (stats_latest_transcript stats) as [[l|?]|]; try done;
    intros [= <-]; simpl; eauto.
Qed.

Lemma company_infos_ok all_stats : ∀ infos,
  company_infos all_stats = Ok infos →
  map info_symbol infos = map stats_company all_stats
  ∧ map info_transcript_count infos = map stats_transcript_count all_stats
  ∧ Forall (fun stats => stats_date_range stats ≠ None) all_stats.
Proof.
  induction all_stats as [|stats rest IH]; intros infos; simpl.
  - by intros [= <-].
  - destruct (company_info stats) as [info|e] eqn:Hinfo; [|done].
    destruct (company_infos rest) as [infos'|e]; [|done]. intros [= <-].
    destruct (IH infos' eq_refl) as (H1 & H2 & H3).
    apply company_info_ok in Hinfo as (Hs & Ht & first & latest & Hd).
    simpl. rewrite Hs, Ht, H1, H2. repeat split; try done.
    constructor; [by rewrite Hd|done].
Qed.

Lemma stats_company_of db company :
  stats_company (fst (get_company_stats sort_error db company)) = company.
Proof.
  rewrite get_company_stats_cases. case_decide; [done|].
  by destruct (comparable _).
Qed.

Lemma sum_from l : ∀ a, fold_left Z.add l a = a + foldr Z.add 0 l.
Proof. induction l as [|x l IH]; intros a; simpl; [lia|]. rewrite IH. lia. Qed.

(** X14. [GET /companies] lists either the ten known companies, in the order
    of [company_names] and with the transcript counts of their statistics
    added up in [total_transcripts], or no company at all with both totals
    zero. It lists none as soon as the statistics of one known company
    have no date range, which is the case when its collection is empty. *)
Theorem get_companies_all_or_none (db : database) :
  let response := fst (get_companies sort_error db) in
  let listed := companies_listed response in
  ((listed = [] ∧ total_companies response = 0
    ∧ total_transcripts response = 0)
   ∨ (map info_symbol listed = map fst company_names
      ∧ total_companies response = 10
      ∧ total_transcripts response
        = foldr Z.add 0 (map info_transcript_count listed)
      ∧ Forall2 (fun info company =>
                   info_transcript_count info
                   = stats_transcript_count
                       (fst (get_company_stats sort_error db company)))
          listed (map fst company_names)))
  ∧ ∀ company,
      company ∈ map fst company_names →
      stats_date_range (fst (get_company_stats sort_error db company)) = None
      ∨ get_or_create_collection db (get_collection_name company) = [] →
      listed = [] ∧ snd (get_companies sort_error db) ≠ [].
Proof.
  intros response listed. unfold listed, response, get_companies.
  pose proof (get_all_companies_stats_map db) as Hmap.
  destruct (get_all_companies_stats sort_error db) as [all_stats records].
  cbn [fst] in Hmap.
  assert (length (map fst company_names) = 10%nat) as Hten by done.
  remember (map fst company_names) as names eqn:Hn. clear Hn.
  destruct (company_infos all_stats) as [infos|e] eqn:Hinfos; cbn [fst snd].
  - apply company_infos_ok in Hinfos as (Hsym & Hcount & Hranges).
    assert (map stats_company all_stats = names) as Hnames.
    { rewrite Hmap, map_map. rewrite <- (map_id names) at 2.
      apply map_ext. intros co. apply stats_company_of. }
    split.
    + right. cbn [companies_listed total_companies total_transcripts].
      split; [by rewrite Hsym|].
      split.
      { rewrite <- (length_map info_symbol), Hsym, Hnames, Hten. done. }
      split; [by rewrite sum_from, Hcount|].
      assert (map info_transcript_count infos
              = map (fun company =>
                       stats_transcript_count
                         (fst (get_company_stats sort_error db company)))
                  names) as Heq
        by (by rewrite Hcount, Hmap, map_map).
      clear -Heq. revert infos Heq.
      induction names as [|co cos IH]; intros [|i rest] Heq; try done.
      injection Heq as H1 H2. constructor; [done|by apply IH].
    + intros company Hco Hnone. exfalso.
      rewrite Forall_forall in Hranges.
      apply (Hranges (fst (get_company_stats sort_error db company))).
      * rewrite Hmap. apply list_elem_of_fmap. by exists company.
      * destruct Hnone as [Hnone|Hempty]; [done|].
        rewrite get_company_stats_cases. by rewrite decide_True.
  - split; [by left|]. intros company _ _. split; [done|].
    by destruct records.
Qed.

End CompaniesFacts.

Section GeminiFacts.
Import Py VectorStore ChromaService Models RAGPipeline GeminiService.

Variable genai_client : result unit.
Variable generate_content : string → GenerationConfig → result string.
Variable _create_rag_prompt : string → list chunk → Q → string.

Variable settings : Settings.
Variable search_similar_chunks :
  string → option (list string) → Z → Q → option (gmap string string) →
  result (list chunk).
Variable _estimate_total_chunks_searched : option (list string) → Z.
Variable _extract_quarter : string → option string.
Variable elapsed : string.

Lemma no_context_truthy question :
  truthy_str (_generate_no_context_response question) = true.
Proof. done. Qed.

(** X15. The pipeline over the Gemini service. When the API key is missing or
    is the placeholder, or the client cannot be created, the model is
    never called and every request that retrieval serves is answered with
    the apology. With a client, a request for which nothing is retrieved
    is answered with the fixed message that quotes the question, again
    without a call to the model, and with no sources; a request with
    retrieved chunks leads to exactly one call, with the request's
    temperature, 2000 output tokens, top-p 0.9 and top-k 40, and is
    answered with the model's text without surrounding white space, or
    with the apology when the call raises or that text is empty. *)
Theorem pipeline_over_gemini (api_key : string) (request : QueryRequest)
    (chunks : list chunk) :
  let model := fst (_initialize_client genai_client api_key) in
  let ask question sources temperature :=
    generate_response generate_content _create_rag_prompt model question
      sources temperature default_max_tokens in
  let generate question sources temperature :=
    Ok (fst (fst (ask question sources temperature))) in
  let response :=
    fst (fst (process_query settings search_similar_chunks generate
                _estimate_total_chunks_searched _extract_quarter elapsed
                request)) in
  let temperature :=
    float_or (Models.temperature request) (TEMPERATURE settings) in
  let asked := snd (fst (ask (question request) chunks temperature)) in
  search_similar_chunks (question request)
    (company_values (company_filter request)) (max_results request)
    (float_or (similarity_threshold request) (SIMILARITY_THRESHOLD settings))
    (build_date_filter <$> date_range request) = Ok chunks →
  (api_key = "" ∨ api_key = "your_gemini_api_key_here"
   ∨ is_ok genai_client = false → model = false)
  ∧ (model = false → asked = [] ∧ answer response = apology)
  ∧ (model = true → chunks = [] →
     asked = []
     ∧ answer response = _generate_no_context_response (question request)
     ∧ sources response = [])
  ∧ (model = true → chunks ≠ [] →
     let prompt := _create_rag_prompt (question request) chunks temperature in
     let config :=
       {| config_temperature := temperature; max_output_tokens := 2000;
          top_p := 9 # 10; top_k := 40 |} in
     asked = [(prompt, config)]
     ∧ answer response
       = match generate_content prompt config with
         | Ok text =>
             if truthy_str (GeminiService.strip text)
             then GeminiService.strip text else apology
         | Raise _ => apology
         end).
Proof.
  intros model ask generate response temperature asked Hsearch.
  split.
  { unfold model, _initialize_client.
    intros [->|[->|Hclient]]; [reflexivity|reflexivity|].
    destruct (_ || _); [done|].
    destruct genai_client; [by simpl in Hclient|done]. }
  unfold response, process_query. rewrite Hsearch.
  fold temperature. unfold generate, asked, ask, generate_response.
  destruct model; cbn [negb].
  - split; [done|]. split.
    + intros _ ->. cbn [fst snd].
      rewrite no_context_truthy. split; [done|]. split; [done|]. done.
    + intros _ Hne. destruct chunks as [|c cs]; [done|].
      unfold default_max_tokens.
      destruct (generate_content _ _) as [text|e]; cbn [fst snd].
      * destruct (truthy_str text) eqn:Ht; cbn [fst snd];
          destruct (_format_sources _ _); cbn [fst snd answer].
        -- done.
        -- split; [done|]. by destruct text.
      * by destruct (_format_sources _ _).
  - split; [|done]. intros _. cbn [fst snd].
    by destruct (_format_sources _ _).
Qed.

End GeminiFacts.

Section QuarterFacts.
Import Chunker Quarter.

Variable decimal : char → option Z.
Variable is_word : char → bool.
Hypothesis tables : agrees_on_ascii decimal is_word.

Lemma decimal_digit (k : Z) :
  0 <= k <= 9 → decimal (Z.to_N (48 + k)) = Some k.
Proof.
  intros Hk. destruct (tables (Z.to_N (48 + k))) as [-> _]; [lia|].
  unfold ascii_decimal, between, digit.
  replace ((48 <=? Z.to_N (48 + k))%N && (Z.to_N (48 + k) <=? 57)%N) with true.
  - f_equal. lia.
  - symmetry. apply andb_true_iff. split; apply N.leb_le; lia.
Qed.

Lemma quarter_label_number month year :
  1 <= month <= 12 →
  quarter_label month year
  = lit ("Q" +:+ pretty ((month + 2) / 3) +:+ " " +:+ pretty year).
Proof.
  intros Hm.
  assert (month = 1 ∨ month = 2 ∨ month = 3 ∨ month = 4 ∨ month = 5
          ∨ month = 6 ∨ month = 7 ∨ month = 8 ∨ month = 9 ∨ month = 10
          ∨ month = 11 ∨ month = 12) as H by lia.
  repeat (destruct H as [->|H]); try subst month; reflexivity.
Qed.

Lemma decimal_digits :
  decimal 48%N = Some 0 ∧ decimal 49%N = Some 1 ∧ decimal 50%N = Some 2
  ∧ decimal 51%N = Some 3 ∧ decimal 52%N = Some 4 ∧ decimal 53%N = Some 5
  ∧ decimal 54%N = Some 6 ∧ decimal 55%N = Some 7 ∧ decimal 56%N = Some 8
  ∧ decimal 57%N = Some 9.
Proof.
  repeat split.
  - exact (decimal_digit 0 ltac:(lia)).
  - exact (decimal_digit 1 ltac:(lia)).
  - exact (decimal_digit 2 ltac:(lia)).
  - exact (decimal_digit 3 ltac:(lia)).
  - exact (decimal_digit 4 ltac:(lia)).
  - exact (decimal_digit 5 ltac:(lia)).
  - exact (decimal_digit 6 ltac:(lia)).
  - exact (decimal_digit 7 ltac:(lia)).
  - exact (decimal_digit 8 ltac:(lia)).
  - exact (decimal_digit 9 ltac:(lia)).
Qed.

Lemma day_alternatives_two_digits day :
  1 <= day <= 31 →
  ∃ others, day_alternatives decimal (two_digits day) = (day, []) :: others.
Proof.
  intros Hd.
  destruct decimal_digits
    as (H0 & H1 & H2 & H3 & H4 & H5 & H6 & H7 & H8 & H9).
  assert (day = 1 ∨ day = 2 ∨ day = 3 ∨ day = 4 ∨ day = 5 ∨ day = 6
          ∨ day = 7 ∨ day = 8 ∨ day = 9 ∨ day = 10 ∨ day = 11 ∨ day = 12
          ∨ day = 13 ∨ day = 14 ∨ day = 15 ∨ day = 16 ∨ day = 17 ∨ day = 18
          ∨ day = 19 ∨ day = 20 ∨ day = 21 ∨ day = 22 ∨ day = 23 ∨ day = 24
          ∨ day = 25 ∨ day = 26 ∨ day = 27 ∨ day = 28 ∨ day = 29 ∨ day = 30
          ∨ day = 31) as H by lia.
  repeat (destruct H as [->|H]); try subst day;
    match goal with
    | |- context [two_digits ?d] =>
        let v := eval vm_compute in (two_digits d) in
        change (two_digits d) with v
    end;
    unfold day_alternatives; cbn [between N.eqb N.leb N.compare Pos.eqb
      Pos.compare Pos.compare_cont andb];
    rewrite ?H0, ?H1, ?H2, ?H3, ?H4, ?H5, ?H6, ?H7, ?H8, ?H9;
    eexists; reflexivity.
Qed.

Lemma month_then_day month day :
  1 <= month <= 12 → 1 <= day <= 31 →
  ∃ others,
    omap (day_after decimal)
      (month_alternatives (two_digits month ++ 45%N :: two_digits day))
    = (month, day, []) :: others.
Proof.
  intros Hm Hd.
  destruct (day_alternatives_two_digits day Hd) as [others Hday].
  assert (month = 1 ∨ month = 2 ∨ month = 3 ∨ month = 4 ∨ month = 5
          ∨ month = 6 ∨ month = 7 ∨ month = 8 ∨ month = 9 ∨ month = 10
          ∨ month = 11 ∨ month = 12) as H by lia.
  repeat (destruct H as [->|H]); try subst month;
    match goal with
    | |- context [two_digits ?m ++ _] =>
        let v := eval vm_compute in (two_digits m) in
        change (two_digits m) with v
    end;
    unfold month_alternatives; cbn -[two_digits day_alternatives];
    unfold day_after; cbn -[two_digits day_alternatives];
    rewrite Hday; cbn -[two_digits day_alternatives];
    eexists; reflexivity.
Qed.

Lemma year_digits year :
  1 <= year <= 9999 →
  0 <= year / 1000 <= 9 ∧ 0 <= year / 100 mod 10 <= 9
  ∧ 0 <= year / 10 mod 10 <= 9 ∧ 0 <= year mod 10 <= 9
  ∧ 1000 * (year / 1000) + 100 * (year / 100 mod 10)
    + 10 * (year / 10 mod 10) + year mod 10 = year.
Proof.
  intros Hy.
  assert (year / 10 / 10 = year / 100) as E1
    by (rewrite Z.div_div by lia; reflexivity).
  assert (year / 100 / 10 = year / 1000) as E2
    by (rewrite Z.div_div by lia; reflexivity).
  pose proof (Z.div_mod year 10 ltac:(lia)) as D1.
  pose proof (Z.div_mod (year / 10) 10 ltac:(lia)) as D2.
  pose proof (Z.div_mod (year / 100) 10 ltac:(lia)) as D3.
  rewrite E1 in D2. rewrite E2 in D3.
  pose proof (Z.mod_pos_bound year 10 ltac:(lia)).
  pose proof (Z.mod_pos_bound (year / 10) 10 ltac:(lia)).
  pose proof (Z.mod_pos_bound (year / 100) 10 ltac:(lia)).
  assert (0 <= year / 1000 <= 9).
  { split; [apply Z.div_pos; lia|].
    apply Z.lt_succ_r, Z.div_lt_upper_bound; lia. }
  lia.
Qed.

Lemma strptime_isoformat year month day :
  1 <= year <= 9999 → 1 <= month <= 12 →
  1 <= day <= days_in_month year month →
  strptime decimal (isoformat year month day) = Some (year, month, day).
Proof.
  intros Hy Hm Hd.
  assert (day <= 31) as Hd31.
  { unfold days_in_month in Hd.
    destruct (month =? 2); [destruct (is_leap year); lia|].
    case_bool_decide; lia. }
  destruct (month_then_day month day Hm ltac:(lia)) as [others Hmd].
  destruct (year_digits year Hy) as (H1 & H2 & H3 & H4 & Hsum).
  change (isoformat year month day)
    with (Z.to_N (48 + year / 1000) :: Z.to_N (48 + year / 100 mod 10)
          :: Z.to_N (48 + year / 10 mod 10) :: Z.to_N (48 + year mod 10)
          :: 45%N :: (two_digits month ++ 45%N :: two_digits day)).
  unfold strptime. rewrite !decimal_digit by done.
  change (45 =? 45)%N with true. cbv iota. rewrite Hmd. cbv iota beta zeta.
  rewrite Hsum.
  replace ((1 <=? year) && (day <=? days_in_month year month)) with true
    by (symmetry; apply andb_true_iff; split; apply Z.leb_le; lia).
  done.
Qed.

(** X16. For a date in ISO format, [_extract_quarter] returns the quarter of
    the calendar year in which the month lies, followed by the year
    without leading zeros. *)
Theorem extract_quarter_of_iso_date (year month day : Z) :
  1 <= year <= 9999 → 1 <= month <= 12 →
  1 <= day <= days_in_month year month →
  _extract_quarter decimal is_word (isoformat year month day)
  = Some (lit ("Q" +:+ pretty ((month + 2) / 3) +:+ " " +:+ pretty year)).
Proof.
  intros Hy Hm Hd. unfold _extract_quarter.
  rewrite strptime_isoformat by done.
  change (truthy (isoformat year month day)) with true. cbv iota. cbn [negb].
  by rewrite quarter_label_number.
Qed.

Lemma pretty_char_code (k : N) :
  (k < 10)%N →
  N.of_nat (Ascii.nat_of_ascii (pretty_N_char k)) = (48 + k)%N.
Proof.
  intros Hk.
  assert (k = 0 ∨ k = 1 ∨ k = 2 ∨ k = 3 ∨ k = 4 ∨ k = 5 ∨ k = 6 ∨ k = 7
          ∨ k = 8 ∨ k = 9)%N as H by lia.
  repeat (destruct H as [->|H]); try subst k; reflexivity.
Qed.

Lemma pretty_four_digits (year : Z) :
  1000 <= year <= 9999 →
  lit (pretty year)
  = [Z.to_N (48 + year / 1000); Z.to_N (48 + year / 100 mod 10);
     Z.to_N (48 + year / 10 mod 10); Z.to_N (48 + year mod 10)].
Proof.
  intros Hy. destruct year as [|p|p]; [lia| |lia].
  change (pretty (Z.pos p)) with (pretty (N.pos p)).
  unfold pretty, pretty_N. rewrite decide_False by done.
  set (x := N.pos p).
  assert (1000 <= x <= 9999)%N as Hx by (unfold x; lia).
  assert (x / 10 / 10 = x / 100)%N as E1
    by (rewrite N.Div0.div_div; reflexivity).
  assert (x / 100 / 10 = x / 1000)%N as E2
    by (rewrite N.Div0.div_div; reflexivity).
  assert (x / 1000 / 10 = 0)%N as E3.
  { rewrite N.Div0.div_div. apply N.div_small. simpl. lia. }
  assert (0 < x / 10)%N by (apply N.div_str_pos; lia).
  assert (0 < x / 100)%N by (apply N.div_str_pos; lia).
  assert (0 < x / 1000)%N by (apply N.div_str_pos; lia).
  rewrite (pretty_N_go_step x) by lia.
  rewrite (pretty_N_go_step (x / 10)) by lia. rewrite E1.
  rewrite (pretty_N_go_step (x / 100)) by lia. rewrite E2.
  rewrite (pretty_N_go_step (x / 1000)) by lia. rewrite E3.
  rewrite pretty_N_go_0.
  assert ((x / 1000) mod 10 = x / 1000)%N as ->.
  { apply N.mod_small. apply N.Div0.div_lt_upper_bound. lia. }
  unfold lit. cbn [String.list_ascii_of_string map].
  rewrite !pretty_char_code
    by (try (apply N.mod_lt; lia); apply N.Div0.div_lt_upper_bound; lia).
  assert (Z.pos p = Z.of_N x) as -> by done.
  change 1000 with (Z.of_N 1000). change 100 with (Z.of_N 100).
  change 10 with (Z.of_N 10). change 48 with (Z.of_N 48).
  by rewrite <- !N2Z.inj_div, <- !N2Z.inj_mod, <- !N2Z.inj_add, !N2Z.id.
Qed.

Lemma digit_char (k : Z) :
  0 <= k <= 9 →
  atom_matches decimal is_word Digit (Z.to_N (48 + k)) = true
  ∧ atom_matches decimal is_word Word (Z.to_N (48 + k)) = true
  ∧ atom_matches decimal is_word Hyphen (Z.to_N (48 + k)) = false.
Proof.
  intros Hk. unfold atom_matches. rewrite decimal_digit by done.
  split; [done|]. split.
  - destruct (tables (Z.to_N (48 + k))) as [_ ->]; [lia|].
    unfold ascii_word, between.
    replace ((48 <=? Z.to_N (48 + k))%N && (Z.to_N (48 + k) <=? 57)%N)
      with true; [done|].
    symmetry. apply andb_true_iff. split; apply N.leb_le; lia.
  - apply N.eqb_neq. lia.
Qed.

Lemma word_char (c : char) :
  ascii_word c = true →
  atom_matches decimal is_word Word c = true
  ∧ atom_matches decimal is_word Hyphen c = false.
Proof.
  intros Hc.
  assert (c < 128 ∧ c ≠ 45)%N as [Hlt Hne].
  { unfold ascii_word, between in Hc.
    repeat (apply orb_true_iff in Hc as [Hc|Hc]);
      try (apply andb_true_iff in Hc as [H1 H2];
           apply N.leb_le in H1, H2; lia).
    apply N.eqb_eq in Hc. lia. }
  unfold atom_matches. destruct (tables c Hlt) as [_ ->].
  split; [done|]. by apply N.eqb_neq.
Qed.

Lemma hyphen_char :
  atom_matches decimal is_word Digit 45%N = false
  ∧ atom_matches decimal is_word Word 45%N = false
  ∧ atom_matches decimal is_word Hyphen 45%N = true.
Proof.
  unfold atom_matches. destruct (tables 45%N) as [-> ->]; [lia|]. done.
Qed.

Lemma search_here pattern s m :
  match_here decimal is_word pattern s = Some m →
  search decimal is_word pattern s = Some m.
Proof. intros H. destruct s; simpl; by rewrite H. Qed.

Lemma search_skip pattern c s :
  match_here decimal is_word pattern (c :: s) = None →
  search decimal is_word pattern (c :: s) = search decimal is_word pattern s.
Proof. intros H. simpl search. by rewrite H. Qed.

Lemma quarter_label_month_name (month : str) (year : Z) :
  quarter_label (default 1 (month_map month)) year
  = default (lit "Q1") (month_to_quarter month) ++ lit " " ++ lit (pretty year).
Proof.
  unfold month_map, month_to_quarter, months. cbn [List.find fst snd].
  repeat (case_bool_decide; [reflexivity|]). reflexivity.
Qed.

Lemma no_month_number (m1 m2 m3 : char) (s : str) :
  (m2 =? 45)%N = false → (m3 =? 45)%N = false →
  omap (day_after decimal) (month_alternatives (m1 :: m2 :: m3 :: s)) = [].
Proof.
  intros H2 H3. unfold month_alternatives.
  destruct ((m1 =? 49)%N && between 48 50 m2),
    ((m1 =? 48)%N && between 49 57 m2), (between 49 57 m1);
    csimpl; unfold day_after; cbn [snd]; by rewrite ?H2, ?H3.
Qed.

Ltac match_atoms :=
  repeat (cbn [match_here];
          repeat match goal with
                 | H : atom_matches _ _ _ _ = _ |- _ => rewrite H
                 end);
  cbn [fmap option_fmap option_map].

(** X17. The usual name of a transcript starts with the date of the call: a
    year of four digits, a hyphen, three word characters (the month's
    name), a hyphen and two digits, and ends there or goes on with a
    hyphen. For such a name the ingestion stores that date, and the
    quarter it stores is the one [_extract_quarter] later derives from
    the stored date: the quarter of the month's name, or Q1 for three
    characters that name no month, followed by the year. *)
Theorem quarter_of_transcript_name (year day : Z) (month rest : str) :
  1000 <= year <= 9999 → 0 <= day <= 99 →
  length month = 3%nat → Forall (fun c => ascii_word c = true) month →
  rest = [] ∨ (∃ more, rest = 45%N :: more) →
  let date :=
    lit (pretty year) ++ lit "-" ++ month ++ lit "-" ++ two_digits day in
  let filename := date ++ rest in
  date_of_filename filename = date
  ∧ _extract_quarter_from_filename decimal is_word filename
    = default (lit "Q1") (month_to_quarter month) ++ lit " "
      ++ lit (pretty year)
  ∧ _extract_quarter decimal is_word date
    = Some (_extract_quarter_from_filename decimal is_word filename).
Proof.
  intros Hy Hday Hlen Hword Hrest date filename.
  destruct month as [|m1 [|m2 [|m3 [|]]]]; try done. clear Hlen.
  apply Forall_cons in Hword as [Hw1 Hword].
  apply Forall_cons in Hword as [Hw2 Hword].
  apply Forall_cons in Hword as [Hw3 _].
  destruct (word_char m1 Hw1) as [Wm1 Hm1].
  destruct (word_char m2 Hw2) as [Wm2 Hm2].
  destruct (word_char m3 Hw3) as [Wm3 Hm3].
  destruct hyphen_char as (Dh & Wh & Hh).
  destruct (year_digits year ltac:(lia)) as (B1 & B2 & B3 & B4 & Hsum).
  destruct (digit_char _ B1) as (Dy1 & Wy1 & Hy1).
  destruct (digit_char _ B2) as (Dy2 & Wy2 & Hy2).
  destruct (digit_char _ B3) as (Dy3 & Wy3 & Hy3).
  destruct (digit_char _ B4) as (Dy4 & Wy4 & Hy4).
  pose proof (decimal_digit _ B1) as V1. pose proof (decimal_digit _ B2) as V2.
  pose proof (decimal_digit _ B3) as V3. pose proof (decimal_digit _ B4) as V4.
  assert (0 <= day / 10 <= 9) as C1.
  { split; [apply Z.div_pos; lia|].
    apply Z.lt_succ_r, Z.div_lt_upper_bound; lia. }
  assert (0 <= day mod 10 <= 9) as C2
    by (pose proof (Z.mod_pos_bound day 10 ltac:(lia)); lia).
  destruct (digit_char _ C1) as (De1 & We1 & He1).
  destruct (digit_char _ C2) as (De2 & We2 & He2).
  assert (date = [Z.to_N (48 + year / 1000); Z.to_N (48 + year / 100 mod 10);
                  Z.to_N (48 + year / 10 mod 10); Z.to_N (48 + year mod 10);
                  45%N; m1; m2; m3; 45%N;
                  Z.to_N (48 + day / 10); Z.to_N (48 + day mod 10)]) as Hdate.
  { unfold date. by rewrite pretty_four_digits. }
  rewrite (pretty_four_digits year Hy).
  unfold filename. rewrite Hdate. clear date filename Hdate.
  remember (Z.to_N (48 + year / 1000)) as y1 eqn:Ey1.
  remember (Z.to_N (48 + year / 100 mod 10)) as y2 eqn:Ey2.
  remember (Z.to_N (48 + year / 10 mod 10)) as y3 eqn:Ey3.
  remember (Z.to_N (48 + year mod 10)) as y4 eqn:Ey4.
  remember (Z.to_N (48 + day / 10)) as e1 eqn:Ee1.
  remember (Z.to_N (48 + day mod 10)) as e2 eqn:Ee2.
  assert (_extract_quarter_from_filename decimal is_word
            (@app char [y1; y2; y3; y4; 45%N; m1; m2; m3; 45%N; e1; e2] rest)
          = default (lit "Q1") (month_to_quarter [m1; m2; m3]) ++ lit " "
            ++ [y1; y2; y3; y4]) as Hname.
  { unfold _extract_quarter_from_filename.
    rewrite (search_here _ _ [y1; y2; y3; y4; 45%N; m1; m2; m3; 45%N; e1; e2]);
      [done|].
    unfold year_month_day. cbn [app]. by match_atoms. }
  split; [|split; [exact Hname|]].
  - unfold date_of_filename. cbn [app split_on].
    unfold atom_matches in Hy1, Hy2, Hy3, Hy4, Hm1, Hm2, Hm3, He1, He2.
    rewrite Hy1, Hy2, Hy3, Hy4, Hm1, Hm2, Hm3, He1, He2.
    change (45 =? 45)%N with true. cbv iota.
    destruct Hrest as [->|[more ->]]; cbn [split_on];
      [|change (45 =? 45)%N with true; cbv iota]; reflexivity.
  - rewrite Hname. unfold _extract_quarter. cbn [truthy negb].
    assert (strptime decimal [y1; y2; y3; y4; 45%N; m1; m2; m3; 45%N; e1; e2]
            = None) as ->.
    { unfold strptime. rewrite V1, V2, V3, V4.
      change (45 =? 45)%N with true. cbv iota.
      by rewrite no_month_number. }
    destruct (atom_matches decimal is_word Digit m1) eqn:Dm1,
      (atom_matches decimal is_word Digit m2) eqn:Dm2,
      (atom_matches decimal is_word Digit m3) eqn:Dm3.
    all: unfold quarter_by at 1; unfold month_year.
    all: repeat (rewrite search_skip by (by match_atoms)).
    all: cbn [search match_here].
    all: unfold quarter_by, year_month.
    all: rewrite (search_here _ _ [y1; y2; y3; y4; 45%N; m1; m2; m3])
           by (by match_atoms).
    all: cbn [take drop]; unfold int; cbn [fold_left].
    all: rewrite V1, V2, V3, V4.
    all: replace (10 * (10 * (10 * (10 * 0 + year / 1000)
                               + year / 100 mod 10)
                        + year / 10 mod 10) + year mod 10)
           with year by lia.
    all: by rewrite quarter_label_month_name, (pretty_four_digits year Hy),
           <- Ey1, <- Ey2, <- Ey3, <- Ey4.
Qed.

End QuarterFacts.

Section IngestionFacts.
Import Py EmbeddingService VectorStore ChromaService Api Ingestion.

Variable model_loads : bool.
Variable model_encode : string → string → embedding.
Variable svc : service.
Variable w : world.
Variable decimal : Chunker.char → option Z.
Variable is_word : Chunker.char → bool.
Variable transcripts_directory : string.

Abbreviation file_step time :=
  (process_file model_loads model_encode svc w decimal is_word time
     transcripts_directory).
Abbreviation company_step time :=
  (process_company model_loads model_encode svc w decimal is_word time
     transcripts_directory).
Abbreviation run time :=
  (_generate_embeddings_background model_loads model_encode svc w decimal
     is_word time transcripts_directory).
Abbreviation store_job :=
  (Ingestion.store_job model_loads model_encode svc w decimal is_word).
Abbreviation settled :=
  (Ingestion.settled model_loads model_encode svc decimal is_word).
Abbreviation chunk_of_file :=
  (Ingestion.chunk_of_file model_encode svc decimal is_word).

Lemma string_app_assoc (a b c : string) : (a +:+ b) +:+ c = a +:+ b +:+ c.
Proof.
  induction a as [|x a IH]; [done|].
  change (String x ((a +:+ b) +:+ c) = String x (a +:+ b +:+ c)).
  by f_equal.
Qed.

Lemma jobs_cons fs company companies :
  jobs fs (company :: companies)
  = map (pair company) (files_of fs company) ++ jobs fs companies.
Proof. done. Qed.

Lemma count_documents_from fs companies : ∀ n,
  fold_left
    (fun total_docs company =>
       match company_dirs fs !! company with
       | Some entries => total_docs + Z.of_nat (length (glob_txt entries))
       | None => total_docs
       end) companies n
  = n + Z.of_nat (length (jobs fs companies)).
Proof.
  induction companies as [|c cs IH]; intros n; [simpl; lia|].
  rewrite jobs_cons, length_app, length_map. simpl fold_left. rewrite IH.
  unfold files_of. destruct (company_dirs fs !! c); simpl; lia.
Qed.

Lemma count_documents_jobs fs companies :
  count_documents fs companies = Z.of_nat (length (jobs fs companies)).
Proof. unfold count_documents. by rewrite count_documents_from. Qed.

(** What the loop over the files of a company leaves in the dictionary. *)
Lemma fold_files_status time total company files : ∀ st,
  total ≠ 0 ∨ files = [] → 0 <= processed_docs st →
  let st' := fold_left (file_step time total company) files st in
  let n := Z.of_nat (length (filter (fun f => is_ok (snd f) = true) files)) in
  total_documents (shared st') = total_documents (shared st)
  ∧ error (shared st') = error (shared st)
  ∧ processed_docs st' = processed_docs st + n
  ∧ processed_documents (shared st')
    = if n =? 0 then processed_documents (shared st) else processed_docs st'.
Proof.
  induction files as [|f files IH]; intros st Htotal Hst.
  - simpl. repeat split; lia.
  - destruct Htotal as [Htotal|?]; [|done].
    simpl fold_left.
    set (st1 := file_step time total company st f).
    assert (total_documents (shared st1) = total_documents (shared st)
            ∧ error (shared st1) = error (shared st)
            ∧ (is_ok (snd f) = false →
               processed_docs st1 = processed_docs st
               ∧ processed_documents (shared st1)
                 = processed_documents (shared st))
            ∧ (is_ok (snd f) = true →
               processed_docs st1 = processed_docs st + 1
               ∧ processed_documents (shared st1) = processed_docs st + 1))
      as (H1 & H2 & H3 & H4).
    { unfold st1, process_file. destruct (snd f) as [content|e]; [|done].
      destruct (document_of_file _ _ _ _ _) as [[document_id chunks] metadata].
      destruct (store_document_chunks _ _ _ _ _ _ _ _ _)
        as [[success db'] store_records].
      destruct (Z.eqb_spec total 0); [done|]. done. }
    destruct (IH st1 (or_introl Htotal)) as (I1 & I2 & I3 & I4).
    { destruct (is_ok (snd f)) eqn:E; [destruct (H4 eq_refl)|destruct (H3 eq_refl)];
        lia. }
    cbv zeta in *. rewrite filter_cons.
    destruct (is_ok (snd f)) eqn:E.
    + destruct (H4 eq_refl) as [H5 H6].
      rewrite decide_True by done. rewrite length_cons.
      split; [congruence|]. split; [congruence|]. split; [lia|].
      rewrite I4.
      destruct (Z.eqb_spec (Z.of_nat (length
                  (filter (fun f => is_ok (snd f) = true) files))) 0);
        destruct (Z.eqb_spec (Z.of_nat (S (length
                  (filter (fun f => is_ok (snd f) = true) files)))) 0); lia.
    + destruct (H3 eq_refl) as [H5 H6].
      rewrite decide_False by done.
      split; [congruence|]. split; [congruence|]. split; [lia|].
      rewrite I4. by rewrite H6.
Qed.

Lemma readable_jobs fs company :
  length (filter (fun j => readable j = true)
            (map (pair company) (files_of fs company)))
  = length (filter (fun f => is_ok (snd f) = true) (files_of fs company)).
Proof.
  induction (files_of fs company) as [|f files IH]; [done|].
  simpl map. rewrite !filter_cons. unfold readable at 1. simpl.
  destruct (decide (is_ok (snd f) = true)); simpl; by rewrite IH.
Qed.

(** What the loop over the companies leaves in the dictionary. *)
Lemma fold_companies_status time fs total companies : ∀ st,
  total ≠ 0 ∨ jobs fs companies = [] → 0 <= processed_docs st →
  let st' := fold_left (company_step time fs total) companies st in
  let n :=
    Z.of_nat (length (filter (fun j => readable j = true) (jobs fs companies))) in
  total_documents (shared st') = total_documents (shared st)
  ∧ error (shared st') = error (shared st)
  ∧ processed_docs st' = processed_docs st + n
  ∧ processed_documents (shared st')
    = if n =? 0 then processed_documents (shared st) else processed_docs st'.
Proof.
  induction companies as [|c cs IH]; intros st Htotal Hst.
  - simpl. repeat split; lia.
  - simpl fold_left. set (st1 := company_step time fs total st c).
    assert (let n1 := Z.of_nat (length (filter (fun f => is_ok (snd f) = true)
                                          (files_of fs c))) in
            total_documents (shared st1) = total_documents (shared st)
            ∧ error (shared st1) = error (shared st)
            ∧ processed_docs st1 = processed_docs st + n1
            ∧ processed_documents (shared st1)
              = if n1 =? 0 then processed_documents (shared st)
                else processed_docs st1) as (H1 & H2 & H3 & H4).
    { unfold st1, process_company, files_of.
      destruct (company_dirs fs !! c) as [entries|] eqn:E.
      - simpl default.
        match goal with
        | |- context [fold_left _ _ ?s0] =>
            destruct (fold_files_status time total c (glob_txt entries) s0)
              as (F1 & F2 & F3 & F4)
        end.
        { destruct Htotal as [?|Hnone]; [by left|right].
          rewrite jobs_cons in Hnone. apply app_eq_nil in Hnone as [Hnone _].
          unfold files_of in Hnone. rewrite E in Hnone. simpl in Hnone.
          by destruct (glob_txt entries). }
        { done. }
        cbv zeta in *. rewrite F1, F2, F4, F3. by simpl.
      - simpl. repeat split; lia. }
    destruct (IH st1) as (I1 & I2 & I3 & I4).
    { destruct Htotal as [?|Hnone]; [by left|right].
      rewrite jobs_cons in Hnone. by apply app_eq_nil in Hnone as [_ ?]. }
    { cbv zeta in H3. lia. }
    cbv zeta in *. rewrite jobs_cons, filter_app, length_app, readable_jobs.
    set (n1 := length (filter (fun f => is_ok (snd f) = true) (files_of fs c)))
      in *.
    set (n2 := length (filter (fun j => readable j = true) (jobs fs cs))) in *.
    split; [congruence|]. split; [congruence|]. split; [lia|].
    rewrite I4, H4.
    destruct (Z.eqb_spec (Z.of_nat n2) 0), (Z.eqb_spec (Z.of_nat n1) 0),
      (Z.eqb_spec (Z.of_nat (n1 + n2)) 0); lia.
Qed.

(** X18. How the background task ends. Without the transcripts directory it
    stores nothing and leaves the status "error" with the message. In
    every other case it ends with status "completed" and progress 100,
    whatever failed on the way: missing company directories, files that
    cannot be read and documents that could not be stored only leave log
    records. The total is the number of [.txt] files of the companies, and
    the number processed is the number of those that could be read (when
    there is none, the counter is not written). The task never ends with
    status "processing", so the next [POST /embeddings/create] is
    accepted. *)
Theorem background_task_ends (time : Z → Q) (request : Models.EmbeddingRequest)
    (fs : transcripts) (shared0 : embedding_status) (db0 : database) :
  let ended := run time request fs shared0 db0 in
  let shared1 := fst (fst ended) in
  let files := jobs fs (companies_to_process request) in
  let read := Z.of_nat (length (filter (fun j => readable j = true) files)) in
  (dir_exists fs = false →
   status shared1 = "error"
   ∧ error shared1
     = Some ("Transcripts directory not found: " +:+ transcripts_directory)
   ∧ snd (fst ended) = db0
   ∧ progress shared1 = progress shared0
   ∧ total_documents shared1 = total_documents shared0
   ∧ processed_documents shared1 = processed_documents shared0)
  ∧ (dir_exists fs = true →
     status shared1 = "completed"
     ∧ progress shared1 = 100%Q
     ∧ current_company shared1 = None
     ∧ estimated_time_remaining shared1 = None
     ∧ error shared1 = error shared0
     ∧ total_documents shared1 = Z.of_nat (length files)
     ∧ processed_documents shared1
       = (if read =? 0 then processed_documents shared0 else read)
     ∧ read <= total_documents shared1)
  ∧ (∀ request' tasks,
       status_code
         (fst (fst (create_embeddings request'
                      {| shared_status := shared1;
                         background_tasks := tasks |}))) = 200).
Proof.
  intros ended shared1 files read.
  unfold shared1, ended, _generate_embeddings_background.
  destruct (dir_exists fs); cbn [negb].
  - split; [done|]. split; [|done]. intros _.
    rewrite count_documents_jobs. fold files.
    match goal with
    | |- context [fold_left ?f ?l ?st] =>
        destruct (fold_companies_status time fs (Z.of_nat (length files))
                    (companies_to_process request) st)
          as (H1 & H2 & H3 & H4)
    end.
    { fold files. destruct files; [by right|left; simpl; lia]. }
    { simpl. lia. }
    cbv zeta in *. fold files in H3, H4. fold read in H3, H4.
    cbn [fst snd status progress current_company estimated_time_remaining
         error total_documents processed_documents shared processed_docs]
      in *.
    rewrite H1, H2, H4, H3.
    do 6 (split; [done|]). split.
    + destruct (read =? 0); [done|lia].
    + unfold read. pose proof (length_filter (fun j => readable j = true) files).
      lia.
  - split; [|split; done]. intros _. done.
Qed.

Lemma db_file_step time total company st file :
  db (file_step time total company st file) = store_job (company, file) (db st).
Proof.
  unfold process_file, Ingestion.store_job. cbn [fst snd].
  destruct (snd file) as [content|e]; [|done].
  destruct (document_of_file _ _ _ _ _) as [[document_id chunks] metadata].
  destruct (store_document_chunks _ _ _ _ _ _ _ _ _)
    as [[success db'] store_records].
  by destruct (total =? 0).
Qed.

Lemma db_fold_files time total company files : ∀ st,
  db (fold_left (file_step time total company) files st)
  = fold_left (fun d job => store_job job d) (map (pair company) files) (db st).
Proof.
  induction files as [|f files IH]; intros st; [done|].
  simpl. by rewrite IH, db_file_step.
Qed.

Lemma db_fold_companies time fs total companies : ∀ st,
  db (fold_left (company_step time fs total) companies st)
  = fold_left (fun d job => store_job job d) (jobs fs companies) (db st).
Proof.
  induction companies as [|c cs IH]; intros st; [done|].
  rewrite jobs_cons, fold_left_app. simpl fold_left at 1. rewrite IH. f_equal.
  unfold process_company, files_of.
  destruct (company_dirs fs !! c) as [entries|]; [|done].
  by rewrite db_fold_files.
Qed.

(** The store when the task ends. *)
Lemma db_run time request fs shared0 db0 :
  snd (fst (run time request fs shared0 db0))
  = if dir_exists fs
    then fold_left (fun d job => store_job job d)
           (jobs fs (companies_to_process request)) db0
    else db0.
Proof.
  unfold _generate_embeddings_background.
  destruct (dir_exists fs); [|done]. cbn [negb fst snd].
  by rewrite db_fold_companies.
Qed.

Lemma chunk_rows_row_ids company document_id chunks embeddings metadata
    chunks' embeddings' metadata' :
  length embeddings = length chunks → length embeddings' = length chunks' →
  length chunks' = length chunks →
  map row_id (chunk_rows company document_id chunks' embeddings' metadata')
  = map row_id (chunk_rows company document_id chunks embeddings metadata).
Proof.
  intros H1 H2 H3. apply list_eq. intros i. rewrite !list_lookup_fmap.
  destruct (chunk_rows company document_id chunks embeddings metadata !! i)
    as [r|] eqn:E; destruct (chunk_rows company document_id chunks' embeddings'
                               metadata' !! i) as [r'|] eqn:E'; simpl.
  - apply chunk_rows_lookup in E as (_ & _ & _ & _ & -> & _).
    by apply chunk_rows_lookup in E' as (_ & _ & _ & _ & -> & _).
  - apply lookup_lt_Some in E. apply lookup_ge_None in E'.
    rewrite chunk_rows_length in E, E' by done. lia.
  - apply lookup_lt_Some in E'. apply lookup_ge_None in E.
    rewrite chunk_rows_length in E, E' by done. lia.
  - done.
Qed.

Lemma store_holds d company document_id chunks metadata name ids :
  holds d name ids →
  holds (snd (fst (store_document_chunks model_loads model_encode d svc w
                     company document_id chunks metadata))) name ids.
Proof.
  intros (coll & Hcoll & Hids).
  destruct (store_cases model_loads model_encode d svc w company document_id
              chunks metadata) as [(_ & _ & ->)|(_ & e & ->)];
    [|by exists coll].
  cbn [fst snd].
  destruct (decide (name = get_collection_name company)) as [->|Hne].
  - eexists. split; [apply lookup_insert_eq|].
    eapply Forall_impl; [exact Hids|]. intros id Hid. apply add_ids. left.
    unfold get_or_create_collection. by rewrite Hcoll.
  - exists coll. split; [by rewrite lookup_insert_ne|done].
Qed.

Lemma store_job_settled_keeps job' d job :
  settled d job → settled (store_job job' d) job.
Proof.
  unfold Ingestion.settled. destruct (snd (snd job)) as [content|e]; [|done].
  destruct (document_of_file _ _ _ _ _) as [[document_id chunks] metadata].
  intros [?|[?|H]]; [by left|by right; left|]. right. right.
  unfold Ingestion.store_job. destruct (snd (snd job')) as [content'|e']; [|done].
  destruct (document_of_file _ _ _ _ _) as [[document_id' chunks'] metadata'].
  by apply store_holds.
Qed.

Lemma store_job_settles job d : settled (store_job job d) job.
Proof.
  unfold Ingestion.settled, Ingestion.store_job. destruct (snd (snd job)) as [content|e]; [|done].
  destruct (document_of_file _ _ _ _ _) as [[document_id chunks] metadata].
  destruct (store_cases model_loads model_encode d svc w (fst job) document_id
              chunks metadata) as [(_ & _ & ->)|([?|?] & _)];
    [|by left|by right; left].
  right. right. cbn [fst snd]. eexists. split; [apply lookup_insert_eq|].
  apply Forall_forall. intros id Hid. apply add_ids. by right.
Qed.

Lemma store_job_settled job d : settled d job → store_job job d = d.
Proof.
  unfold Ingestion.settled, Ingestion.store_job. destruct (snd (snd job)) as [content|e]; [|done].
  destruct (document_of_file _ _ _ _ _) as [[document_id chunks] metadata].
  intros Hs.
  destruct (store_cases model_loads model_encode d svc w (fst job) document_id
              chunks metadata) as [(Hne & Hloads & ->)|(_ & e & ->)]; [|done].
  destruct Hs as [?|[?|(coll & Hcoll & Hids)]]; [done|congruence|].
  cbn [fst snd]. unfold get_or_create_collection. rewrite Hcoll. simpl.
  rewrite add_known.
  - by apply insert_id.
  - apply Forall_forall. intros r Hr. rewrite Forall_forall in Hids.
    apply Hids. apply list_elem_of_fmap. by exists r.
Qed.

Lemma fold_settled_keeps js : ∀ d job,
  settled d job → settled (fold_left (fun d job => store_job job d) js d) job.
Proof.
  induction js as [|j js IH]; intros d job H; [done|].
  simpl. by apply IH, store_job_settled_keeps.
Qed.

Lemma fold_settles js : ∀ d,
  Forall (settled (fold_left (fun d job => store_job job d) js d)) js.
Proof.
  induction js as [|j js IH]; intros d; [done|].
  simpl. apply Forall_cons. split; [|apply IH].
  apply fold_settled_keeps, store_job_settles.
Qed.

Lemma fold_settled js d :
  Forall (settled d) js → fold_left (fun d job => store_job job d) js d = d.
Proof.
  induction js as [|j js IH]; intros H; [done|].
  apply Forall_cons in H as [Hj Hjs]. simpl.
  rewrite store_job_settled by done. by apply IH.
Qed.

Lemma jobs_elem fs companies job :
  job ∈ jobs fs companies
  ↔ fst job ∈ companies ∧ snd job ∈ files_of fs (fst job).
Proof.
  induction companies as [|c cs IH].
  - simpl. split; [by intros ?%elem_of_nil|by intros [?%elem_of_nil _]].
  - rewrite jobs_cons, elem_of_app, IH, elem_of_cons, list_elem_of_fmap.
    split.
    + intros [(f & -> & Hf)|[? ?]].
      * split; [by left|done].
      * split; [by right|done].
    + intros [[Hc|Hc] Hf]; [left|by right].
      exists (snd job). rewrite <- Hc. split; [by destruct job|done].
Qed.

(** X19. Running the task again adds nothing. After a run, a second run over
    the same directory for companies of the first run leaves the store as
    it is, whatever the other fields of the request are: with
    [force_recreate] set, too, no document is stored anew, and a file
    whose content has changed is not stored again when it gives no more
    chunks than before. *)
Theorem background_task_again (time time' : Z → Q)
    (request request' : Models.EmbeddingRequest) (fs : transcripts)
    (shared0 shared0' : embedding_status) (db0 : database) :
  companies_to_process request' ⊆ companies_to_process request →
  let db1 := snd (fst (run time request fs shared0 db0)) in
  snd (fst (run time' request' fs shared0' db1)) = db1.
Proof.
  intros Hsub db1. unfold db1. rewrite !db_run.
  destruct (dir_exists fs); [|done].
  apply fold_settled. apply Forall_forall. intros job Hjob.
  pose proof (fold_settles (jobs fs (companies_to_process request)) db0) as H.
  rewrite Forall_forall in H. apply H.
  apply jobs_elem in Hjob as [Hc Hf]. apply jobs_elem. split; [|done].
  by apply Hsub.
Qed.

Lemma chunk_rows_of_file company file_name content r :
  r ∈ (let '(document_id, chunks, metadata) :=
         document_of_file decimal is_word company file_name content in
       chunk_rows company document_id chunks
         (map (model_encode (model_name svc)) chunks) metadata) →
  chunk_of_file company file_name content r.
Proof.
  unfold document_of_file, Ingestion.chunk_of_file. cbv zeta.
  set (chunks := map GeminiService.unlit _).
  intros Hr. apply list_elem_of_lookup in Hr as [i Hi].
  unfold chunk_rows in Hi. rewrite list_lookup_imap in Hi.
  destruct (zip chunks _ !! i) as [[c e]|] eqn:Hz; [|done].
  injection Hi as <-.
  apply lookup_zip_with_Some in Hz as (c' & e' & [= <- <-] & Hc & He).
  rewrite list_lookup_fmap, Hc in He. injection He as <-.
  exists i, c. cbn [row_id row_document row_embedding row_metadata].
  split; [done|]. split; [by rewrite !string_app_assoc|].
  split; [done|]. split; [done|].
  repeat split; by simplify_map_eq.
Qed.

(** What one file adds to a collection. *)
Lemma store_job_adds job d name :
  ∃ added,
    get_or_create_collection (store_job job d) name
    = get_or_create_collection d name ++ added
    ∧ ∀ r, r ∈ added →
        ∃ content, snd (snd job) = Ok content
          ∧ name = get_collection_name (fst job)
          ∧ chunk_of_file (fst job) (fst (snd job)) content r.
Proof.
  unfold Ingestion.store_job. destruct (snd (snd job)) as [content|e].
  2: { exists []. rewrite app_nil_r. split; [done|]. by intros r ?%elem_of_nil. }
  pose proof (chunk_rows_of_file (fst job) (fst (snd job)) content) as Hrows.
  destruct (document_of_file _ _ _ _ _) as [[document_id chunks] metadata].
  destruct (store_cases model_loads model_encode d svc w (fst job) document_id
              chunks metadata) as [(_ & _ & ->)|(_ & e & ->)]; cbn [fst snd].
  2: { exists []. rewrite app_nil_r. split; [done|]. by intros r ?%elem_of_nil. }
  destruct (decide (name = get_collection_name (fst job))) as [->|Hne].
  - unfold get_or_create_collection at 1. rewrite lookup_insert_eq. simpl.
    destruct (add_extends
                (chunk_rows (fst job) document_id chunks
                   (map (model_encode (model_name svc)) chunks) metadata)
                (get_or_create_collection d (get_collection_name (fst job))))
      as (added & -> & Hsub).
    exists added. split; [done|]. intros r Hr. exists content.
    split; [done|]. split; [done|]. apply Hrows.
    by eapply elem_of_sublist.
  - exists []. rewrite app_nil_r. split.
    + unfold get_or_create_collection. by rewrite lookup_insert_ne.
    + by intros r ?%elem_of_nil.
Qed.

Lemma fold_jobs_adds js name : ∀ d,
  ∃ added,
    get_or_create_collection (fold_left (fun d job => store_job job d) js d) name
    = get_or_create_collection d name ++ added
    ∧ ∀ r, r ∈ added →
        ∃ job content, job ∈ js ∧ snd (snd job) = Ok content
          ∧ name = get_collection_name (fst job)
          ∧ chunk_of_file (fst job) (fst (snd job)) content r.
Proof.
  induction js as [|j js IH]; intros d.
  - exists []. rewrite app_nil_r. split; [done|]. by intros r ?%elem_of_nil.
  - simpl. destruct (IH (store_job j d)) as (a2 & -> & H2).
    destruct (store_job_adds j d name) as (a1 & -> & H1).
    exists (a1 ++ a2). rewrite <- app_assoc. split; [done|].
    intros r [Hr|Hr]%elem_of_app.
    + destruct (H1 r Hr) as (content & ? & ? & ?).
      exists j, content. split; [by left|done].
    + destruct (H2 r Hr) as (job & content & ? & ?).
      exists job, content. split; [by right|done].
Qed.

(** X20. The task only appends to the store. Every collection keeps the
    records it held, in their order, whatever [force_recreate] says, and
    each record added after them is the one prepared for a chunk of a
    [.txt] file of a company of the run that could be read: it lies in
    that company's collection, its id is made of the company in lower
    case, the file's stem and the chunk's index, and it carries the chunk,
    the chunk's embedding and the file's name, date and quarter. *)
Theorem background_task_appends (time : Z → Q)
    (request : Models.EmbeddingRequest) (fs : transcripts)
    (shared0 : embedding_status) (db0 : database) (name : string) :
  let db1 := snd (fst (run time request fs shared0 db0)) in
  ∃ added,
    get_or_create_collection db1 name
    = get_or_create_collection db0 name ++ added
    ∧ ∀ r, r ∈ added →
        ∃ company file_name content,
          company ∈ companies_to_process request
          ∧ (file_name, Ok content) ∈ files_of fs company
          ∧ name = get_collection_name company
          ∧ chunk_of_file company file_name content r.
Proof.
  intros db1. unfold db1. rewrite db_run. destruct (dir_exists fs).
  - destruct (fold_jobs_adds (jobs fs (companies_to_process request)) name db0)
      as (added & Hadded & Horigin).
    exists added. split; [done|]. intros r Hr.
    destruct (Horigin r Hr) as ([company [file_name file]] & content & Hjob
                                & Hfile & Hname & Hchunk).
    apply jobs_elem in Hjob as [Hc Hf]. simpl in *. subst file.
    by exists company, file_name, content.
  - exists []. rewrite app_nil_r. split; [done|]. by intros r ?%elem_of_nil.
Qed.

End IngestionFacts.

(* ===================================================================== *)
(** ** The further properties on the concrete data *)
(* ===================================================================== *)

Section OnFurtherExamples.
Import Py EmbeddingService VectorStore Models ChromaService RAGPipeline Api.
Import Examples CompanyStatistics GeminiService Quarter Ingestion Vocabulary.
Import FurtherExamples.

(** After "alpha" and "beta" are encoded over [cached_world], encoding
    them again returns the same vectors and changes nothing. *)
Lemma encode_with_cache_again_example :
  let first :=
    encode_with_cache example_key true length_encode example_service
      ["alpha"; "beta"]%string true cached_world in
  fst first = Ok [Some [5 # 1]; Some [4 # 1]]
  ∧ encode_with_cache example_key true length_encode example_service
      ["alpha"; "beta"]%string true (snd first)
    = (Ok [Some [5 # 1]; Some [4 # 1]], snd first).
Proof.
  intros first. split; [reflexivity|].
  apply (encode_with_cache_again example_key true length_encode
           example_service ["alpha"; "beta"]%string cached_world (snd first)
           [Some [5 # 1]; Some [4 # 1]]).
  - intros t t' _ _ H. exact H.
  - reflexivity.
Defined.

(** Over the example store, the answer for the threshold 0.5 is the
    answer for the threshold 0.1 without the chunks below 0.5. *)
Lemma search_threshold_filters_example :
  (1 # 10 <= 1 # 2)%Q
  ∧ search_similar_chunks squared_l2 true example_encode example_db
      example_service example_world "revenue" (Some ["AAPL"%string]) 5
      (1 # 2) None
    = (filter (passes (1 # 2)) example_found,
       snd (search_similar_chunks squared_l2 true example_encode example_db
              example_service example_world "revenue" (Some ["AAPL"%string])
              5 (1 # 10) None)).
Proof.
  assert (1 # 10 <= 1 # 2)%Q as Hle by (unfold Qle; simpl; lia).
  split; [exact Hle|].
  exact (search_threshold_filters squared_l2 true example_encode example_db
           example_service example_world "revenue" (Some ["AAPL"%string]) 5
           (1 # 10) (1 # 2) None Hle).
Defined.

(** Storing one other chunk under the id of the stored example document
    changes nothing. *)
Lemma store_document_chunks_again_example :
  let stored :=
    store_document_chunks true example_encode ∅ example_service example_world
      "AAPL" "aapl_2020-Jan-28-AAPL" example_chunks example_metadata in
  store_document_chunks true example_encode (snd (fst stored)) example_service
    example_world "AAPL" "aapl_2020-Jan-28-AAPL" ["Revenue fell"%string] ∅
  = (true, snd (fst stored), []).
Proof.
  intros stored.
  apply (store_document_chunks_again true example_encode ∅ (snd (fst stored))
           example_service example_world example_world "AAPL"
           "aapl_2020-Jan-28-AAPL" example_chunks ["Revenue fell"%string]
           example_metadata ∅ []).
  - reflexivity.
  - discriminate.
  - simpl. lia.
Defined.

(** Over the example store, whose one record carries no date, the
    pipeline reports at least as many chunks searched as sources. *)
Lemma total_chunks_searched_example :
  let response :=
    fst (fst (process_query default_settings example_search example_generate
                (fun cf =>
                   fst (_estimate_total_chunks_searched
                          (fun _ => Exception "not comparable") example_db cf))
                (fun _ => None) "0.01s" example_request)) in
  Z.of_nat (length (sources response))
  <= total_chunks_searched (metadata response).
Proof.
  intros response.
  apply (total_chunks_searched_covers_sources
           (fun _ => Exception "not comparable") squared_l2 true example_encode
           default_settings example_generate (fun _ => None) "0.01s"
           example_db example_service example_world example_request).
  intros name r Hr. unfold get_or_create_collection, example_db in Hr.
  destruct (decide (name = "transcripts_aapl"%string)) as [->|Hne].
  - rewrite lookup_singleton_eq in Hr. simpl in Hr.
    apply list_elem_of_singleton in Hr as ->.
    repeat split; intros v Hv; vm_compute in Hv; discriminate Hv.
  - rewrite lookup_singleton_ne in Hr by done. simpl in Hr.
    by apply elem_of_nil in Hr.
Defined.

(** With a client, the example request leads to one call of the model
    with the question as prompt, and is answered with the model's sentence
    without the line feeds around it. *)
Lemma pipeline_over_gemini_example :
  let ask question sources temperature :=
    generate_response example_content example_prompt true question sources
      temperature default_max_tokens in
  let response :=
    fst (fst (process_query default_settings example_search
                (fun question sources temperature =>
                   Ok (fst (fst (ask question sources temperature))))
                (fun _ => 1) (fun _ => None) "0.01s" example_request)) in
  snd (fst (ask (question example_request) example_found (7 # 10)))
  = [("How did revenue develop?"%string,
      {| config_temperature := 7 # 10; max_output_tokens := 2000;
         top_p := 9 # 10; top_k := 40 |})]
  ∧ answer response = "Revenue grew."%string.
Proof.
  intros ask response.
  assert (example_search (question example_request)
            (company_values (company_filter example_request))
            (max_results example_request)
            (float_or (similarity_threshold example_request)
               (SIMILARITY_THRESHOLD default_settings))
            (build_date_filter <$> date_range example_request)
          = Ok example_found) as Hsearch by (vm_compute; reflexivity).
  pose proof (pipeline_over_gemini (Ok ()) example_content example_prompt
              default_settings example_search (fun _ => 1) (fun _ => None)
              "0.01s" "key" example_request example_found Hsearch) as H.
  destruct H as (_ & _ & _ & Hcall).
  destruct Hcall as [Hasked Hanswer];
    [vm_compute; reflexivity|intros E; vm_compute in E; discriminate E|].
  split.
  - exact Hasked.
  - etrans; [exact Hanswer|]. vm_compute. reflexivity.
Defined.

(** The thirtieth of April 2020 lies in the second quarter. *)
Lemma extract_quarter_of_iso_date_example :
  _extract_quarter ascii_decimal ascii_word (Chunker.lit "2020-04-30")
  = Some (Chunker.lit "Q2 2020").
Proof.
  apply (extract_quarter_of_iso_date ascii_decimal ascii_word
           (fun c _ => conj eq_refl eq_refl) 2020 4 30).
  - lia.
  - lia.
  - vm_compute. split; discriminate.
Defined.

(** The transcript of Apple's call of 30 April 2020: the date stored with
    it, and the quarter on both ways. *)
Lemma quarter_of_transcript_name_example :
  date_of_filename (Chunker.lit "2020-Apr-30-AAPL") = Chunker.lit "2020-Apr-30"
  ∧ _extract_quarter_from_filename ascii_decimal ascii_word
      (Chunker.lit "2020-Apr-30-AAPL")
    = Chunker.lit "Q2 2020"
  ∧ _extract_quarter ascii_decimal ascii_word (Chunker.lit "2020-Apr-30")
    = Some (Chunker.lit "Q2 2020").
Proof.
  destruct (quarter_of_transcript_name ascii_decimal ascii_word
              (fun c _ => conj eq_refl eq_refl) 2020 30 (Chunker.lit "Apr")
              (Chunker.lit "-AAPL"))
    as (Hdate & Hname & Hquarter).
  - lia.
  - lia.
  - reflexivity.
  - repeat constructor.
  - right. by eexists.
  - split; [exact Hdate|]. split; [exact Hname|].
    exact (eq_trans Hquarter (f_equal Some Hname)).
Defined.

(** After a run over the example directory for every company, a run
    that is asked to recreate the embeddings of Apple changes nothing. *)
Lemma background_task_again_example :
  let run request :=
    _generate_embeddings_background true example_encode example_service
      example_world ascii_decimal ascii_word example_clock "data/transcripts"
      request example_transcripts in
  let db1 := snd (fst (run example_embedding_request reset_status ∅)) in
  count (get_or_create_collection db1 "transcripts_aapl") = 1
  ∧ snd (fst (run recreate_request reset_status db1)) = db1.
Proof.
  intros run db1. split; [reflexivity|].
  apply (background_task_again true example_encode example_service
           example_world ascii_decimal ascii_word "data/transcripts"
           example_clock example_clock example_embedding_request
           recreate_request example_transcripts reset_status reset_status ∅).
  intros company Hcompany.
  apply list_elem_of_singleton in Hcompany as ->. by left.
Defined.

End OnFurtherExamples.
